(** * molly-tron-monitor: block monitor, worker pool and transfer decoder

    A shallow embedding of [processor/block_processor.go], the block monitor
    ([processLatestBlock], the history runs and the tick), the Redis-backed
    store ([redis/redis.go]), the retrying HTTP client ([http/client.go]),
    the validation of the configuration ([config/config.go]) and the start
    of the application ([initWatchAddresses] in [main.go]).

    Go strings are byte strings: they are embedded as [string] (a list of
    [ascii]), so [len] is [String.length] and slicing is by byte.  [int64]
    values are [Z] with the wrap-around written out, [float64] values are
    IEEE-754 binary64 numbers in the form of [spec_float]. *)

From Stdlib Require Import ZArith Ascii String List Lia Bool QArith Qabs.
From Stdlib Require Import Floats.SpecFloat.
From stdpp Require Import gmap strings list.

Local Open Scope string_scope.
Local Open Scope Z_scope.

(** [simpl] computes string concatenation on literals. *)
#[local] Arguments String.append !s1 s2 : simpl nomatch.

(** ** Strings (package [strings] and slicing) *)

Module GoString.

Definition len (s : string) : Z := Z.of_nat (String.length s).

(** [s[:n]]; the code slices only after it checked the length, the
    model cuts at the end of the string instead of a panic. *)
Fixpoint take (n : nat) (s : string) {struct s} : string :=
  match s, n with
  | String c s', S n' => String c (take n' s')
  | _, _ => EmptyString
  end.

(** [s[n:]] *)
Fixpoint drop (n : nat) (s : string) {struct s} : string :=
  match s, n with
  | String _ s', S n' => drop n' s'
  | _, _ => s
  end.

(** [strings.HasPrefix(s, p)] *)
Fixpoint HasPrefix (s p : string) {struct p} : bool :=
  match p, s with
  | EmptyString, _ => true
  | String a p', String b s' => if Ascii.eqb a b then HasPrefix s' p' else false
  | String _ _, EmptyString => false
  end.

(** [strings.TrimPrefix(s, p)] *)
Definition TrimPrefix (s p : string) : string :=
  if HasPrefix s p then drop (String.length p) s else s.

(** [strings.TrimLeft(s, cutset)] for a one-character cutset. *)
Fixpoint TrimLeft (s : string) (c : ascii) : string :=
  match s with
  | String a s' => if Ascii.eqb a c then TrimLeft s' c else s
  | EmptyString => EmptyString
  end.

(** [strings.Repeat(c, n)] for a one-character string. *)
Fixpoint Repeat (c : ascii) (n : nat) : string :=
  match n with
  | O => EmptyString
  | S n' => String c (Repeat c n')
  end.

End GoString.

Import GoString.

(** ** Hexadecimal (package [encoding/hex], [strconv.ParseUint] base 16) *)

(** Value of one hexadecimal digit, either case. *)
Definition fromHexChar (c : ascii) : option Z :=
  let n := Z.of_nat (nat_of_ascii c) in
  if (48 <=? n) && (n <=? 57) then Some (n - 48)
  else if (97 <=? n) && (n <=? 102) then Some (n - 97 + 10)
  else if (65 <=? n) && (n <=? 70) then Some (n - 65 + 10)
  else None.

(** [hex.DecodeString]: two digits per byte; an odd length or a
    character that is no hexadecimal digit is an error. *)
Fixpoint hex_DecodeString (s : string) : option (list Z) :=
  match s with
  | EmptyString => Some []
  | String _ EmptyString => None
  | String a (String b s') =>
      match fromHexChar a, fromHexChar b, hex_DecodeString s' with
      | Some x, Some y, Some l => Some ((16 * x + y) :: l)
      | _, _, _ => None
      end
  end.

Definition maxUint64 : Z := 2 ^ 64 - 1.

(** The digit loop of [strconv.ParseUint(s, 16, 64)]: [n] is the value
    read so far.  A bad digit is a syntax error, a value that leaves 64
    bits is a range error; both are [None] here. *)
Fixpoint ParseUint_loop (s : string) (n : Z) : option Z :=
  match s with
  | EmptyString => Some n
  | String c s' =>
      match fromHexChar c with
      | None => None
      | Some d =>
          if maxUint64 / 16 + 1 <=? n then None
          else
            let n1 := 16 * n + d in
            if maxUint64 <? n1 then None else ParseUint_loop s' n1
      end
  end.

Definition strconv_ParseUint16 (s : string) : option Z :=
  match s with
  | EmptyString => None
  | _ => ParseUint_loop s 0
  end.

(** ** SHA-256 (package [crypto/sha256], FIPS 180-4) on 32-bit words in [Z] *)

Module SHA256.

Definition wrap32 (x : Z) : Z := x mod 2 ^ 32.
Definition add32 (x y : Z) : Z := wrap32 (x + y).
Definition rotr (n x : Z) : Z :=
  Z.lor (Z.shiftr x n) (wrap32 (Z.shiftl x (32 - n))).
Definition not32 (x : Z) : Z := 2 ^ 32 - 1 - x.

Definition Ch (x y z : Z) : Z := Z.lxor (Z.land x y) (Z.land (not32 x) z).
Definition Maj (x y z : Z) : Z :=
  Z.lxor (Z.lxor (Z.land x y) (Z.land x z)) (Z.land y z).
Definition bsig0 (x : Z) : Z := Z.lxor (Z.lxor (rotr 2 x) (rotr 13 x)) (rotr 22 x).
Definition bsig1 (x : Z) : Z := Z.lxor (Z.lxor (rotr 6 x) (rotr 11 x)) (rotr 25 x).
Definition ssig0 (x : Z) : Z := Z.lxor (Z.lxor (rotr 7 x) (rotr 18 x)) (Z.shiftr x 3).
Definition ssig1 (x : Z) : Z := Z.lxor (Z.lxor (rotr 17 x) (rotr 19 x)) (Z.shiftr x 10).

(** The round constants are fractional parts of roots of the first
    primes: 32 bits of the cube roots of the first 64 for [K], of the square
    roots of the first 8 for the initial digest. *)
Definition is_prime (n : Z) : bool :=
  (2 <=? n) && List.forallb (fun d => negb (n mod d =? 0)) (seqZ 2 (n - 2)).

Definition primes (count : nat) : list Z :=
  List.firstn count (List.filter is_prime (seqZ 2 400)).

(** The integer cube root of [x], found bit by bit below [2 ^ n]. *)
Fixpoint cube_root (n : nat) (x r : Z) : Z :=
  match n with
  | O => r
  | S n' =>
      let c := r + 2 ^ Z.of_nat n' in
      if c * c * c <=? x then cube_root n' x c else cube_root n' x r
  end.

Definition K : list Z :=
  Eval vm_compute in
    List.map (fun p => wrap32 (cube_root 40 (p * 2 ^ 96) 0)) (primes 64).

(** The eight working words. *)
Record digest := Digest {
  h0 : Z; h1 : Z; h2 : Z; h3 : Z; h4 : Z; h5 : Z; h6 : Z; h7 : Z }.

Definition init : digest :=
  Eval vm_compute in
    match List.map (fun p => wrap32 (Z.sqrt (p * 2 ^ 64))) (primes 8) with
    | [a; b; c; d; e; f; g; h] => Digest a b c d e f g h
    | _ => Digest 0 0 0 0 0 0 0 0
    end.

(** Padding: a 0x80 byte, zeros up to 56 modulo 64, the bit length on
    eight bytes. *)
Definition be_bytes (n : nat) (x : Z) : list Z :=
  List.map (fun i => (x / 2 ^ (8 * Z.of_nat i)) mod 256) (List.rev (List.seq 0 n)).

Definition pad (msg : list Z) : list Z :=
  let l := Z.of_nat (List.length msg) in
  let zeros := Z.to_nat ((55 - l) mod 64) in
  (msg ++ 128 :: List.repeat 0 zeros ++ be_bytes 8 (8 * l))%list.

Fixpoint be_words (n : nat) (l : list Z) : list Z :=
  match n, l with
  | S n', a :: b :: c :: d :: l' =>
      (((a * 256 + b) * 256 + c) * 256 + d) :: be_words n' l'
  | _, _ => []
  end.

(** The message schedule, most recent word first while it is built. *)
Fixpoint schedule (n : nat) (rev_w : list Z) : list Z :=
  match n with
  | O => List.rev rev_w
  | S n' =>
      let w := add32 (add32 (ssig1 (List.nth 1 rev_w 0)) (List.nth 6 rev_w 0))
                     (add32 (ssig0 (List.nth 14 rev_w 0)) (List.nth 15 rev_w 0)) in
      schedule n' (w :: rev_w)
  end.

Definition round (s : digest) (kw : Z * Z) : digest :=
  let t1 := add32 (add32 (add32 (h7 s) (bsig1 (h4 s))) (Ch (h4 s) (h5 s) (h6 s)))
                  (add32 (fst kw) (snd kw)) in
  let t2 := add32 (bsig0 (h0 s)) (Maj (h0 s) (h1 s) (h2 s)) in
  Digest (add32 t1 t2) (h0 s) (h1 s) (h2 s) (add32 (h3 s) t1) (h4 s) (h5 s) (h6 s).

Definition compress (s : digest) (block : list Z) : digest :=
  let w := schedule 48 (List.rev (be_words 16 block)) in
  let r := List.fold_left round (List.combine K w) s in
  Digest (add32 (h0 s) (h0 r)) (add32 (h1 s) (h1 r)) (add32 (h2 s) (h2 r))
         (add32 (h3 s) (h3 r)) (add32 (h4 s) (h4 r)) (add32 (h5 s) (h5 r))
         (add32 (h6 s) (h6 r)) (add32 (h7 s) (h7 r)).

Fixpoint blocks (n : nat) (l : list Z) (s : digest) : digest :=
  match n with
  | O => s
  | S n' => blocks n' (List.skipn 64 l) (compress s (List.firstn 64 l))
  end.

Definition word_bytes (x : Z) : list Z :=
  [ (x / 2 ^ 24) mod 256; (x / 2 ^ 16) mod 256; (x / 2 ^ 8) mod 256; x mod 256 ].

(** [sha256.Sum256]: the 32 bytes of the digest. *)
Definition Sum256 (msg : list Z) : list Z :=
  let p := pad msg in
  let s := blocks (List.length p / 64) p init in
  (word_bytes (h0 s) ++ word_bytes (h1 s) ++ word_bytes (h2 s) ++ word_bytes (h3 s) ++
   word_bytes (h4 s) ++ word_bytes (h5 s) ++ word_bytes (h6 s) ++ word_bytes (h7 s))%list.

End SHA256.

(** ** Base58 (package [btcutil/base58]) *)

Module Base58.

Definition alphabet : string :=
  "123456789ABCDEFGHJKLMNPQRSTUVWXYZabcdefghijkmnopqrstuvwxyz".

Definition digit_char (d : Z) : ascii :=
  match String.get (Z.to_nat d) alphabet with
  | Some c => c
  | None => "1"%char
  end.

(** [big.Int.SetBytes]: the big-endian value of a byte string. *)
Definition SetBytes (b : list Z) : Z :=
  List.fold_left (fun acc x => acc * 256 + x) b 0.

(** The division loop of [Encode]: digits of [x], least significant
    first.  [fuel] bounds the number of digits. *)
Fixpoint digits (fuel : nat) (x : Z) : list Z :=
  match fuel with
  | O => []
  | S fuel' => if 0 <? x then (x mod 58) :: digits fuel' (x / 58) else []
  end.

(** One ['1'] for every leading zero byte. *)
Fixpoint leading_zeros (b : list Z) : list Z :=
  match b with
  | 0 :: b' => 0 :: leading_zeros b'
  | _ => []
  end.

(** [base58.Encode]: the digits, then the leading ones, reversed.  A value
    below [256 ^ n] has at most [2 * n] digits in base 58. *)
Definition Encode (b : list Z) : string :=
  let answer := (digits (2 * List.length b) (SetBytes b) ++ leading_zeros b)%list in
  string_of_list_ascii (List.map digit_char (List.rev answer)).

End Base58.

(** ** Address codec *)

(** [hexToTronAddress]: hex to bytes, four checksum bytes from the double
    SHA-256, Base58. *)
Definition hexToTronAddress (hexAddress : string) : option string :=
  match hex_DecodeString hexAddress with
  | None => None
  | Some addressBytes =>
      let hash1 := SHA256.Sum256 addressBytes in
      let hash2 := SHA256.Sum256 hash1 in
      let checksum := List.firstn 4 hash2 in
      let payload := (addressBytes ++ checksum)%list in
      Some (Base58.Encode payload)
  end.

(** [convertHexToBase58] *)
Definition convertHexToBase58 (hexAddr : string) : string :=
  let hexAddr := TrimPrefix hexAddr "0x" in
  if (len hexAddr =? 0) then hexAddr
  else if HasPrefix hexAddr "T" then hexAddr
  else match hexToTronAddress hexAddr with
       | None => hexAddr
       | Some tronAddress => tronAddress
       end.

(** ** float64 *)

(** IEEE-754 binary64: 53 bits of precision, exponents up to 1024. *)
Abbreviation float64 := spec_float.

(** Conversion of an integer ([float64(n)], and the number a JSON integer
    literal decodes to): the nearest binary64 value, ties to even. *)
Definition f64_of_Z (n : Z) : float64 := binary_normalize 53 1024 n 0 false.

(** [x / y] on [float64]. *)
Definition f64_div (x y : float64) : float64 := SFdiv 53 1024 x y.

Definition f64_zero : float64 := S754_zero false.

(** [json.Marshal] rejects a NaN or an infinity. *)
Definition f64_is_finite (x : float64) : bool :=
  match x with
  | S754_zero _ | S754_finite _ _ _ => true
  | S754_infinity _ | S754_nan => false
  end.

(** The rational a finite [float64] stands for. *)
Definition f64_to_Q (x : float64) : option Q :=
  match x with
  | S754_zero _ => Some (0 # 1)%Q
  | S754_finite s m e =>
      let v := if s then Z.neg m else Z.pos m in
      Some (if 0 <=? e then inject_Z (v * 2 ^ e) else Qmake v (Z.to_pos (2 ^ (- e))))
  | _ => None
  end.

(** Where the quotient of [q * den + num] by [den] lies between [q] and
    [q + 1], as [SFdiv] computes it for an even [den]. *)
Definition quotient_location (num den : Z) : location :=
  if num =? 0 then loc_Exact else loc_Inexact (2 * num ?= den).

(** ** int64 *)

Definition wrap64 (x : Z) : Z := (x + 2 ^ 63) mod 2 ^ 64 - 2 ^ 63.

(** ** Decoded JSON ([interface{}] values as [encoding/json] produces them) *)

#[warnings="-register-all"]
Inductive JSON : Type :=
| JNull
| JBool (b : bool)
| JNumber (f : float64)
| JString (s : string)
| JArray (l : list JSON)
| JObject (m : list (string * JSON)).

(** [m[key]] on a [map[string]interface{}], the object kept as its list of
    members; an absent key reads as [nil]. *)
Fixpoint map_index (m : list (string * JSON)) (key : string) : JSON :=
  match m with
  | [] => JNull
  | (k, v) :: m' => if String.eqb k key then v else map_index m' key
  end.

(** [v.(map[string]interface{})] with its [ok]. *)
Definition as_map (v : JSON) : option (list (string * JSON)) :=
  match v with
  | JObject m => Some m
  | _ => None
  end.

(** [s, _ := v.(string)]: the zero value when the assertion fails. *)
Definition as_string (v : JSON) : string :=
  match v with
  | JString s => s
  | _ => ""
  end.

(** [f, _ := v.(float64)] *)
Definition as_float64 (v : JSON) : float64 :=
  match v with
  | JNumber f => f
  | _ => f64_zero
  end.

(** ** Models ([models/types.go]) *)

Record Contract := { Type_ : string; Parameter_ : JSON }.

Record TransactionRaw := {
  Contracts : list Contract }.

Record Transaction := {
  RawData : option TransactionRaw;
  TxID : string }.

(** A [nil] slice of transactions is [None]. *)
Record Block := {
  Trans : option (list Transaction) }.

Record BlockData := {
  Height : Z;
  BlockHash : string;
  Timestamp : Z;
  Block_ : option Block }.

Record TransferEvent := {
  Source : string;
  Destination : string;
  Amount : float64;
  Fee : float64;
  TxHash : string;
  BlockHeight : Z;
  EventTimestamp : Z;
  Confirmations : Z;
  TokenType : string;
  ContractAddress : string;
  AssetName : string;
  IsUSDT : bool;
  USDValue : float64 }.

(** Times are kept as Unix seconds. *)
Record WatchAddress := {
  Address : string;
  AddedAt : Z;
  LastSeen : Z;
  TransferCount : Z }.

(** ** Configuration ([config.Config], the fields the core reads) *)

Record Config := {
  Monitor_WorkerCount : Z;
  Monitor_QueueSize : Z;
  Monitor_MaxBlockHeight : Z;
  Monitor_StartBlockHeight : Z;
  USDT_ContractAddress : string;
  USDT_EnableMonitoring : bool;
  USDT_Decimals : Z }.

(** ** The Redis store ([redis.RedisClient])

    The keys ["transfer:<txHash>"] and ["address_info:<address>"] are two
    maps, the lists ["block_queue"], ["transfers"], ["usdt_transfers"] are
    lists with the most recent [LPUSH] first, ["watch_addresses"] is a set.
    Stored JSON documents are the values they encode.  The server is taken
    to answer every command; key expiry is not part of the model. *)

Record Redis := {
  block_queue : list BlockData;
  transfer : gmap string TransferEvent;
  transfers : list TransferEvent;
  usdt_transfers : list TransferEvent;
  watch_addresses : gset string;
  address_info : gmap string WatchAddress }.

Inductive error : Type :=
| ErrInvalidParameter
| ErrInvalidValue
| ErrDataTooShort
| ErrAddressDataShort
| ErrAmountDataShort
| ErrParseAmount
| ErrInvalidBlock
| ErrMarshal
| ErrPush
| ErrAlreadyRunning
| ErrNotRunning.

(** A Go result [(v, err)] with [err != nil] or not. *)
Inductive res (A : Type) : Type :=
| Ok (a : A)
| Err (e : error).
Arguments Ok {A} a.
Arguments Err {A} e.

(** [LTRIM key 0 stop]: a negative [stop] counts from the end. *)
Definition LTrim0 {A : Type} (stop : Z) (l : list A) : list A :=
  if 0 <=? stop then List.firstn (Z.to_nat (stop + 1)) l
  else List.firstn (Z.to_nat (Z.of_nat (List.length l) + stop + 1)) l.

Definition marshal_ok (event : TransferEvent) : bool :=
  f64_is_finite (Amount event) && f64_is_finite (Fee event) &&
  f64_is_finite (USDValue event).

(** [SaveTransferEvent] *)
Definition SaveTransferEvent (r : Redis) (event : TransferEvent) : res unit * Redis :=
  if negb (marshal_ok event) then (Err ErrMarshal, r)
  else
    let key := TxHash event in
    let r1 := {| block_queue := block_queue r;
                 transfer := <[key := event]> (transfer r);
                 transfers := LTrim0 9999 (event :: transfers r);
                 usdt_transfers := usdt_transfers r;
                 watch_addresses := watch_addresses r;
                 address_info := address_info r |} in
    if IsUSDT event then
      (Ok tt, {| block_queue := block_queue r1;
                 transfer := transfer r1;
                 transfers := transfers r1;
                 usdt_transfers := LTrim0 9999 (event :: usdt_transfers r1);
                 watch_addresses := watch_addresses r1;
                 address_info := address_info r1 |})
    else (Ok tt, r1).

(** [GetTransferEvent] *)
Definition GetTransferEvent (r : Redis) (txHash : string) : option TransferEvent :=
  transfer r !! txHash.

(** [GetRecentTransfers]: [LRANGE transfers 0 limit-1]. *)
Definition GetRecentTransfers (r : Redis) (limit : Z) : list TransferEvent :=
  LTrim0 (limit - 1) (transfers r).

(** [GetWatchAddresses]: [SMEMBERS watch_addresses]. *)
Definition GetWatchAddresses (r : Redis) : list string :=
  elements (watch_addresses r).

(** [UpdateAddressStats]; [now] is [time.Now()] in seconds. *)
Definition UpdateAddressStats (now : Z) (r : Redis) (address : string)
    (event : TransferEvent) : Redis :=
  let addrInfo :=
    match address_info r !! address with
    | None => {| Address := address; AddedAt := now; LastSeen := 0; TransferCount := 0 |}
    | Some info => info
    end in
  let addrInfo :=
    {| Address := Address addrInfo;
       AddedAt := AddedAt addrInfo;
       LastSeen := Z.quot (EventTimestamp event) 1000;
       TransferCount := wrap64 (TransferCount addrInfo + 1) |} in
  {| block_queue := block_queue r;
     transfer := transfer r;
     transfers := transfers r;
     usdt_transfers := usdt_transfers r;
     watch_addresses := watch_addresses r;
     address_info := <[address := addrInfo]> (address_info r) |}.

(** [PushBlockData]: [LPUSH block_queue] then [LTRIM block_queue 0 size-1]. *)
Definition PushBlockData (cfg : Config) (r : Redis) (blockData : BlockData) : Redis :=
  {| block_queue := LTrim0 (Monitor_QueueSize cfg - 1) (blockData :: block_queue r);
     transfer := transfer r;
     transfers := transfers r;
     usdt_transfers := usdt_transfers r;
     watch_addresses := watch_addresses r;
     address_info := address_info r |}.

(** ** The block worker ([BlockWorker] in [processor/block_processor.go]) *)

Section Worker.

Variable cfg : Config.

(** [math.Pow(10, float64(d))] of the Go runtime. *)
Variable math_Pow10 : Z -> float64.

(** [time.Now()], in seconds. *)
Variable now : Z.

(** [updateAddressStats]: a placeholder event carries the block's
    timestamp; an error of the store is only logged. *)
Definition updateAddressStats (r : Redis) (address : string) (blockData : BlockData) : Redis :=
  let tempEvent :=
    {| Source := address; Destination := address; Amount := f64_zero; Fee := f64_zero;
       TxHash := ""; BlockHeight := Height blockData;
       EventTimestamp := Timestamp blockData; Confirmations := 0;
       TokenType := "TRX"; ContractAddress := ""; AssetName := "";
       IsUSDT := false; USDValue := f64_zero |} in
  UpdateAddressStats now r address tempEvent.

(** [watchAddressSet[a]]: [false] for an absent key. *)
Definition watched (watchAddressSet : gmap string bool) (a : string) : bool :=
  default false (watchAddressSet !! a).

(** The two guarded [updateAddressStats] calls every extractor ends with. *)
Definition touch (watchAddressSet : gmap string bool) (r : Redis)
    (from to : string) (blockData : BlockData) : Redis :=
  let r := if watched watchAddressSet from then updateAddressStats r from blockData else r in
  if watched watchAddressSet to then updateAddressStats r to blockData else r.

(** [extractTRXTransfer] *)
Definition extractTRXTransfer (contract : Contract) (tx : Transaction)
    (blockData : BlockData) (watchAddressSet : gmap string bool) (r : Redis)
    : res (option TransferEvent) * Redis :=
  match as_map (Parameter_ contract) with
  | None => (Err ErrInvalidParameter, r)
  | Some paramData =>
      match as_map (map_index paramData "value") with
      | None => (Err ErrInvalidValue, r)
      | Some valueData =>
          let ownerAddress := as_string (map_index valueData "owner_address") in
          let toAddress := as_string (map_index valueData "to_address") in
          let amount := as_float64 (map_index valueData "amount") in
          let fromAddr := convertHexToBase58 ownerAddress in
          let toAddr := convertHexToBase58 toAddress in
          let r := touch watchAddressSet r fromAddr toAddr blockData in
          (Ok (Some {| Source := fromAddr; Destination := toAddr;
                       Amount := f64_div amount (f64_of_Z 1000000);
                       Fee := f64_zero; TxHash := TxID tx;
                       BlockHeight := Height blockData;
                       EventTimestamp := Timestamp blockData; Confirmations := 0;
                       TokenType := "TRX"; ContractAddress := ""; AssetName := "";
                       IsUSDT := false; USDValue := f64_zero |}), r)
      end
  end.

(** [extractTRC10Transfer] *)
Definition extractTRC10Transfer (contract : Contract) (tx : Transaction)
    (blockData : BlockData) (watchAddressSet : gmap string bool) (r : Redis)
    : res (option TransferEvent) * Redis :=
  match as_map (Parameter_ contract) with
  | None => (Err ErrInvalidParameter, r)
  | Some paramData =>
      match as_map (map_index paramData "value") with
      | None => (Err ErrInvalidValue, r)
      | Some valueData =>
          let ownerAddressHex := as_string (map_index valueData "owner_address") in
          let toAddressHex := as_string (map_index valueData "to_address") in
          let amount := as_float64 (map_index valueData "amount") in
          let assetName := as_string (map_index valueData "asset_name") in
          let ownerAddress := convertHexToBase58 ownerAddressHex in
          let toAddress := convertHexToBase58 toAddressHex in
          if negb (watched watchAddressSet ownerAddress) &&
             negb (watched watchAddressSet toAddress)
          then (Ok None, r)
          else
            let r := touch watchAddressSet r ownerAddress toAddress blockData in
            (Ok (Some {| Source := ownerAddress; Destination := toAddress;
                         Amount := amount; Fee := f64_zero; TxHash := TxID tx;
                         BlockHeight := Height blockData;
                         EventTimestamp := Timestamp blockData; Confirmations := 0;
                         TokenType := "TRC10"; ContractAddress := "";
                         AssetName := assetName;
                         IsUSDT := false; USDValue := f64_zero |}), r)
      end
  end.

(** [isUSDTContract] *)
Definition isUSDTContract (contractAddress : string) : bool :=
  String.eqb contractAddress (USDT_ContractAddress cfg).

(** [parseHexAmount] *)
Definition parseHexAmount (hexStr : string) : option float64 :=
  let hexStr := TrimLeft hexStr "0" in
  if String.eqb hexStr "" then Some f64_zero
  else match strconv_ParseUint16 hexStr with
       | None => None
       | Some amount => Some (f64_of_Z amount)
       end.

(** [parseTRC20TransferData] *)
Definition parseTRC20TransferData (data ownerAddress contractAddress : string)
    (tx : Transaction) (blockData : BlockData) (isUSDT : bool)
    : res (option TransferEvent) :=
  if (len data <? 74) || negb (HasPrefix data "a9059cbb") then Ok None
  else if len data <? 8 then Err ErrDataTooShort
  else
    let data := drop 8 data in
    if len data <? 64 then Err ErrAddressDataShort
    else
      let toAddressHex := take 64 data in
      let data := drop 64 data in
      if len data <? 64 then Err ErrAmountDataShort
      else
        let amountHex := take 64 data in
        let toAddressHex := TrimLeft toAddressHex "0" in
        let toAddressHex :=
          if len toAddressHex <? 40
          then Repeat "0" (40 - String.length toAddressHex) ++ toAddressHex
          else toAddressHex in
        let fullAddressHex := "41" ++ toAddressHex in
        let toAddress := convertHexToBase58 fullAddressHex in
        match parseHexAmount amountHex with
        | None => Err ErrParseAmount
        | Some amount =>
            let amount :=
              if isUSDT then f64_div amount (math_Pow10 (USDT_Decimals cfg))
              else amount in
            let tokenType := if isUSDT then "USDT" else "TRC20" in
            let fromAddress := convertHexToBase58 ownerAddress in
            Ok (Some {| Source := fromAddress; Destination := toAddress;
                        Amount := amount; Fee := f64_zero; TxHash := TxID tx;
                        BlockHeight := Height blockData;
                        EventTimestamp := Timestamp blockData; Confirmations := 0;
                        TokenType := tokenType; ContractAddress := contractAddress;
                        AssetName := ""; IsUSDT := isUSDT; USDValue := amount |})
        end.

(** [extractTRC20Transfer] *)
Definition extractTRC20Transfer (contract : Contract) (tx : Transaction)
    (blockData : BlockData) (watchAddressSet : gmap string bool) (r : Redis)
    : res (option TransferEvent) * Redis :=
  match as_map (Parameter_ contract) with
  | None => (Err ErrInvalidParameter, r)
  | Some paramData =>
      match as_map (map_index paramData "value") with
      | None => (Err ErrInvalidValue, r)
      | Some valueData =>
          let ownerAddressHex := as_string (map_index valueData "owner_address") in
          let contractAddressHex := as_string (map_index valueData "contract_address") in
          let data := as_string (map_index valueData "data") in
          let ownerAddress := convertHexToBase58 ownerAddressHex in
          let contractAddress := convertHexToBase58 contractAddressHex in
          let isUSDT := isUSDTContract contractAddress in
          if isUSDT && negb (USDT_EnableMonitoring cfg) then (Ok None, r)
          else
            match parseTRC20TransferData data ownerAddress contractAddress
                    tx blockData isUSDT with
            | Err e => (Err e, r)
            | Ok None => (Ok None, r)
            | Ok (Some transfer) =>
                if negb (watched watchAddressSet (Source transfer)) &&
                   negb (watched watchAddressSet (Destination transfer))
                then (Ok None, r)
                else
                  (Ok (Some transfer),
                   touch watchAddressSet r (Source transfer) (Destination transfer)
                     blockData)
            end
      end
  end.

(** [extractTransferFromContract] *)
Definition extractTransferFromContract (contract : Contract) (tx : Transaction)
    (blockData : BlockData) (watchAddressSet : gmap string bool) (r : Redis)
    : res (option TransferEvent) * Redis :=
  if String.eqb (Type_ contract) "TransferContract"
  then extractTRXTransfer contract tx blockData watchAddressSet r
  else if String.eqb (Type_ contract) "TransferAssetContract"
  then extractTRC10Transfer contract tx blockData watchAddressSet r
  else if String.eqb (Type_ contract) "TriggerSmartContract"
  then extractTRC20Transfer contract tx blockData watchAddressSet r
  else (Ok None, r).

(** The loop of [extractTransfers] over the contracts of one
    transaction: an error is logged and the contract skipped. *)
Fixpoint extract_contracts (contracts : list Contract) (tx : Transaction)
    (blockData : BlockData) (watchAddressSet : gmap string bool)
    (acc : list TransferEvent) (r : Redis) : list TransferEvent * Redis :=
  match contracts with
  | [] => (acc, r)
  | contract :: rest =>
      match extractTransferFromContract contract tx blockData watchAddressSet r with
      | (Err _, r') => extract_contracts rest tx blockData watchAddressSet acc r'
      | (Ok None, r') => extract_contracts rest tx blockData watchAddressSet acc r'
      | (Ok (Some transfer), r') =>
          extract_contracts rest tx blockData watchAddressSet (acc ++ [transfer])%list r'
      end
  end.

(** [extractTransfers] *)
Definition extractTransfers (tx : Transaction) (blockData : BlockData) (r : Redis)
    : res (list TransferEvent) * Redis :=
  match RawData tx with
  | None => (Ok [], r)
  | Some raw =>
      match Contracts raw with
      | [] => (Ok [], r)
      | contracts =>
          let watchAddresses := GetWatchAddresses r in
          let watchAddressSet :=
            List.fold_left (fun (m : gmap string bool) addr => <[addr := true]> m)
              watchAddresses ∅ in
          let '(found, r') :=
            extract_contracts contracts tx blockData watchAddressSet [] r in
          (Ok found, r')
      end
  end.

(** The first loop of [processBlock]: the transfers of every transaction. *)
Fixpoint collect_transfers (txs : list Transaction) (blockData : BlockData)
    (acc : list TransferEvent) (r : Redis) : list TransferEvent * Redis :=
  match txs with
  | [] => (acc, r)
  | tx :: rest =>
      match extractTransfers tx blockData r with
      | (Err _, r') => collect_transfers rest blockData acc r'
      | (Ok txTransfers, r') =>
          collect_transfers rest blockData (acc ++ txTransfers)%list r'
      end
  end.

(** The second loop of [processBlock]: every transfer is saved;
    [found] is the pool's [transfersFound] counter. *)
Fixpoint save_transfers (evs : list TransferEvent) (found : Z) (r : Redis) : Z * Redis :=
  match evs with
  | [] => (found, r)
  | transfer :: rest =>
      match SaveTransferEvent r transfer with
      | (Err _, r') => save_transfers rest found r'
      | (Ok _, r') => save_transfers rest (wrap64 (found + 1)) r'
      end
  end.

(** [processBlock] *)
Definition processBlock (blockData : BlockData) (found : Z) (r : Redis)
    : res unit * (Z * Redis) :=
  match Block_ blockData with
  | None => (Err ErrInvalidBlock, (found, r))
  | Some block =>
      match Trans block with
      | None => (Err ErrInvalidBlock, (found, r))
      | Some txs =>
          let '(evs, r1) := collect_transfers txs blockData [] r in
          (Ok tt, save_transfers evs found r1)
      end
  end.

End Worker.

(** ** The worker pool's life cycle ([BlockProcessor], [BlockWorker])

    A worker's context is cancelled for good once it was stopped;
    [loops] counts the [processBlocks] loops the worker has launched.
    The goroutines [Start] launches are taken to have run [start]. *)

Record BlockWorker := {
  id : Z;
  w_running : bool;
  w_cancelled : bool;
  loops : nat }.

Record BlockProcessor := {
  running : bool;
  cancelled : bool;
  workers : list BlockWorker;
  processedBlocks : Z;
  transfersFound : Z;
  errors : Z }.

Module Worker.

(** [BlockWorker.start]: no result value. *)
Definition start (w : BlockWorker) : BlockWorker :=
  if w_running w then w
  else {| id := id w; w_running := true; w_cancelled := w_cancelled w;
          loops := S (loops w) |}.

(** [BlockWorker.stop] *)
Definition stop (w : BlockWorker) : BlockWorker :=
  if negb (w_running w) then w
  else {| id := id w; w_running := false; w_cancelled := true; loops := loops w |}.

End Worker.

Module Pool.

(** [NewBlockProcessor] *)
Definition NewBlockProcessor (cfg : Config) : BlockProcessor :=
  {| running := false; cancelled := false;
     workers :=
       List.map (fun i => {| id := Z.of_nat i; w_running := false;
                             w_cancelled := false; loops := O |})
                (List.seq 0 (Z.to_nat (Monitor_WorkerCount cfg)));
     processedBlocks := 0; transfersFound := 0; errors := 0 |}.

(** [BlockProcessor.Start] *)
Definition Start (bp : BlockProcessor) : res unit * BlockProcessor :=
  if running bp then (Err ErrAlreadyRunning, bp)
  else (Ok tt,
        {| running := true; cancelled := cancelled bp;
           workers := List.map Worker.start (workers bp);
           processedBlocks := processedBlocks bp;
           transfersFound := transfersFound bp; errors := errors bp |}).

(** [BlockProcessor.Stop]: cancelling the pool's context cancels
    the contexts derived from it. *)
Definition Stop (bp : BlockProcessor) : res unit * BlockProcessor :=
  if negb (running bp) then (Err ErrNotRunning, bp)
  else (Ok tt,
        {| running := false; cancelled := true;
           workers :=
             List.map (fun w => Worker.stop
                         {| id := id w; w_running := w_running w;
                            w_cancelled := true; loops := loops w |})
                      (workers bp);
           processedBlocks := processedBlocks bp;
           transfersFound := transfersFound bp; errors := errors bp |}).

End Pool.

(** ** The block monitor ([BlockMonitor]) *)

Record BlockMonitor := {
  m_running : bool;
  lastProcessedBlock : Z;
  m_processedBlocks : Z;
  m_errors : Z }.

Section Monitor.

Variable cfg : Config.

(** [httpClient.GetBlockByNumber]: [None] is an error of the client. *)
Variable GetBlockByNumber : Z -> option BlockData.

(** Whether the store accepts the [LPUSH] of a block. *)
Variable push_ok : BlockData -> bool.

Definition push (r : Redis) (blockData : BlockData) : res unit * Redis :=
  if push_ok blockData then (Ok tt, PushBlockData cfg r blockData)
  else (Err ErrPush, r).

Definition count_block (bm : BlockMonitor) : BlockMonitor :=
  {| m_running := m_running bm; lastProcessedBlock := lastProcessedBlock bm;
     m_processedBlocks := wrap64 (m_processedBlocks bm + 1);
     m_errors := m_errors bm |}.

(** The backfill loop [for blockNum := startBlock; blockNum <= endBlock;
    blockNum++]; [None] when [fuel] iterations were not enough. *)
Fixpoint backfill (fuel : nat) (blockNum endBlock : Z) (bm : BlockMonitor) (r : Redis)
    : option (BlockMonitor * Redis) :=
  if blockNum <=? endBlock then
    match fuel with
    | O => None
    | S fuel' =>
        let next := wrap64 (blockNum + 1) in
        match GetBlockByNumber blockNum with
        | None => backfill fuel' next endBlock bm r
        | Some specificBlockData =>
            match push r specificBlockData with
            | (Err _, r') => backfill fuel' next endBlock bm r'
            | (Ok _, r') => backfill fuel' next endBlock (count_block bm) r'
            end
        end
    end
  else Some (bm, r).

Definition maxGap : Z := 10.

(** [processLatestBlock], after [GetLatestBlock] answered [blockData]. *)
Definition processLatestBlock (fuel : nat) (blockData : BlockData)
    (bm : BlockMonitor) (r : Redis) : option (res unit * (BlockMonitor * Redis)) :=
  if Height blockData <=? lastProcessedBlock bm then Some (Ok tt, (bm, r))
  else if (0 <? Monitor_MaxBlockHeight cfg) &&
          (Monitor_MaxBlockHeight cfg <? Height blockData)
  then Some (Ok tt, (bm, r))
  else if (0 <? Monitor_StartBlockHeight cfg) &&
          (Height blockData <? Monitor_StartBlockHeight cfg)
  then Some (Ok tt, (bm, r))
  else
    let startBlock := wrap64 (lastProcessedBlock bm + 1) in
    let endBlock := Height blockData in
    let finish (st : BlockMonitor * Redis) :=
      let '(bm', r') := st in
      (Ok tt,
       ({| m_running := m_running bm'; lastProcessedBlock := Height blockData;
           m_processedBlocks := wrap64 (m_processedBlocks bm' + 1);
           m_errors := m_errors bm' |}, r')) in
    if startBlock <? endBlock then
      let gap := wrap64 (wrap64 (endBlock - startBlock) + 1) in
      let startBlock :=
        if maxGap <? gap then wrap64 (wrap64 (endBlock - maxGap) + 1) else startBlock in
      match backfill fuel startBlock endBlock bm r with
      | None => None
      | Some st => Some (finish st)
      end
    else
      match push r blockData with
      | (Err e, r') => Some (Err e, (bm, r'))
      | (Ok _, r') => Some (finish (bm, r'))
      end.

End Monitor.

(** ** More of the Redis client ([redis/redis.go]) *)

(** [time.Time{}], the zero time, in Unix seconds. *)
Definition zero_time : Z := -62135596800.

(** [PopBlockData]: [BRPOP block_queue] takes the element at the tail of
    the list; an empty queue is [(nil, nil)] once the wait timed out. *)
Definition PopBlockData (r : Redis) : option BlockData * Redis :=
  match list.last (block_queue r) with
  | None => (None, r)
  | Some blockData =>
      (Some blockData,
       {| block_queue := List.removelast (block_queue r);
          transfer := transfer r;
          transfers := transfers r;
          usdt_transfers := usdt_transfers r;
          watch_addresses := watch_addresses r;
          address_info := address_info r |})
  end.

(** [AddWatchAddress]: [SADD watch_addresses], then a fresh record under
    ["address_info:<address>"], written over the one that was there. *)
Definition AddWatchAddress (now : Z) (r : Redis) (address : string) : Redis :=
  {| block_queue := block_queue r;
     transfer := transfer r;
     transfers := transfers r;
     usdt_transfers := usdt_transfers r;
     watch_addresses := {[address]} ∪ watch_addresses r;
     address_info :=
       <[address := {| Address := address; AddedAt := now; LastSeen := zero_time;
                       TransferCount := 0 |}]> (address_info r) |}.

(** [RemoveWatchAddress]: [SREM watch_addresses] and [DEL] of the record. *)
Definition RemoveWatchAddress (r : Redis) (address : string) : Redis :=
  {| block_queue := block_queue r;
     transfer := transfer r;
     transfers := transfers r;
     usdt_transfers := usdt_transfers r;
     watch_addresses := watch_addresses r ∖ {[address]};
     address_info := delete address (address_info r) |}.

(** [IsWatchAddress]: [SISMEMBER watch_addresses]. *)
Definition IsWatchAddress (r : Redis) (address : string) : bool :=
  bool_decide (address ∈ watch_addresses r).

(** [GetQueueSize]: [LLEN block_queue]. *)
Definition GetQueueSize (r : Redis) : Z := Z.of_nat (List.length (block_queue r)).


(** ** The worker's loop ([processBlocks]) *)

Section WorkerLoop.

Variable cfg : Config.
Variable math_Pow10 : Z -> float64.
Variable now : Z.

(** One pass of the loop once the context was found live: a block is
    popped and processed, and the pool counts it as processed or as an
    error.  The counters are the pool's, written without a lock; the
    passes of one worker are followed here. *)
Definition processBlocks_pass (bp : BlockProcessor) (r : Redis) : BlockProcessor * Redis :=
  match PopBlockData r with
  | (None, r) => (bp, r)
  | (Some blockData, r) =>
      match processBlock cfg math_Pow10 now blockData (transfersFound bp) r with
      | (Err _, (found, r')) =>
          ({| running := running bp; cancelled := cancelled bp; workers := workers bp;
              processedBlocks := processedBlocks bp; transfersFound := found;
              errors := wrap64 (errors bp + 1) |}, r')
      | (Ok _, (found, r')) =>
          ({| running := running bp; cancelled := cancelled bp; workers := workers bp;
              processedBlocks := wrap64 (processedBlocks bp + 1);
              transfersFound := found; errors := errors bp |}, r')
      end
  end.

(** [processBlocks]: the first [fuel] passes of the loop of worker [w];
    the loop returns when it finds the worker's context cancelled. *)
Fixpoint processBlocks (fuel : nat) (w : BlockWorker) (bp : BlockProcessor) (r : Redis)
    : BlockProcessor * Redis :=
  match fuel with
  | O => (bp, r)
  | S fuel' =>
      if w_cancelled w then (bp, r)
      else
        let '(bp', r') := processBlocks_pass bp r in
        processBlocks fuel' w bp' r'
  end.

End WorkerLoop.

(** ** Errors of the configuration, the client and the history run *)

Inductive fault : Type :=
| ErrInterrupted
| ErrRequestFailed (tries : Z)
| ErrBaseURL
| ErrRedisAddr
| ErrBlockInterval
| ErrWorkerCount
| ErrQueueSize
| ErrAddressFormat (address : string)
| ErrAddressFormatAt (address : string) (index : Z)
| ErrAddressExists (address : string)
| ErrAddressMissing (address : string).

(** ** More of the block monitor *)

Section MonitorRuns.

Variable cfg : Config.
Variable GetBlockByNumber : Z -> option BlockData.
Variable push_ok : BlockData -> bool.

(** Whether the monitor's context is cancelled. *)
Variable done : bool.

(** [ProcessHistoricalBlocks]: the loop [for blockNum := startBlock;
    blockNum <= endBlock; blockNum++]; [None] (no error) is [nil], and the
    outer [None] is a loop that [fuel] passes did not finish. *)
Fixpoint ProcessHistoricalBlocks (fuel : nat) (blockNum endBlock : Z) (r : Redis)
    : option (option fault * Redis) :=
  if blockNum <=? endBlock then
    match fuel with
    | O => None
    | S fuel' =>
        if done then Some (Some ErrInterrupted, r)
        else
          let next := wrap64 (blockNum + 1) in
          match GetBlockByNumber blockNum with
          | None => ProcessHistoricalBlocks fuel' next endBlock r
          | Some blockData =>
              ProcessHistoricalBlocks fuel' next endBlock
                (snd (push cfg push_ok r blockData))
          end
    end
  else Some (None, r).

(** [SyncToLatestBlock], after [GetLatestBlock] answered [latestBlock]. *)
Definition SyncToLatestBlock (fuel : nat) (latestBlock : BlockData)
    (bm : BlockMonitor) (r : Redis) : option (option fault * Redis) :=
  let latestHeight := Height latestBlock in
  let currentHeight := lastProcessedBlock bm in
  if latestHeight <=? currentHeight then Some (None, r)
  else ProcessHistoricalBlocks fuel (wrap64 (currentHeight + 1)) latestHeight r.

(** The [ticker.C] case of [monitorBlocks]: [latest] is the answer of
    [GetLatestBlock], [None] when the client failed; an error of
    [processLatestBlock] is logged and counted. *)
Definition monitorBlocks_tick (fuel : nat) (latest : option BlockData)
    (bm : BlockMonitor) (r : Redis) : option (BlockMonitor * Redis) :=
  let failed (bm : BlockMonitor) :=
    {| m_running := m_running bm; lastProcessedBlock := lastProcessedBlock bm;
       m_processedBlocks := m_processedBlocks bm;
       m_errors := wrap64 (m_errors bm + 1) |} in
  match latest with
  | None => Some (failed bm, r)
  | Some blockData =>
      match processLatestBlock cfg GetBlockByNumber push_ok fuel blockData bm r with
      | None => None
      | Some (Err _, (bm', r')) => Some (failed bm', r')
      | Some (Ok _, st) => Some st
      end
  end.

End MonitorRuns.

(** ** The HTTP client ([http/client.go]) *)

Module Client.

Record BlockHeaderRaw := {
  Number : Z;
  Timestamp_ : Z }.

Record BlockHeader := {
  Header_RawData : option BlockHeaderRaw }.

(** The response of [/wallet/getnowblock] and [/wallet/getblockbynum]. *)
Record RawResponse := {
  BlockID : string;
  Response_BlockHeader : option BlockHeader;
  Transactions : option (list Transaction) }.

Record HTTPClient := {
  retryMax : Z;
  requestCount : Z;
  errorCount : Z;
  successCount : Z }.

(** The [BlockData] both block requests build from a response. *)
Definition build_BlockData (rawResponse : RawResponse) : BlockData :=
  let header :=
    match Response_BlockHeader rawResponse with
    | Some h => Header_RawData h
    | None => None
    end in
  {| Height := match header with Some raw => Number raw | None => 0 end;
     BlockHash := BlockID rawResponse;
     Timestamp := match header with Some raw => Timestamp_ raw | None => 0 end;
     Block_ := Some {| Trans := Transactions rawResponse |} |}.

Definition count_error (c : HTTPClient) : HTTPClient :=
  {| retryMax := retryMax c; requestCount := requestCount c;
     errorCount := wrap64 (errorCount c + 1); successCount := successCount c |}.

(** The retry loop of [makeRequest], [n] attempts from attempt [i] on;
    [doRequest i] is what attempt [i] gets, [None] for an error. *)
Fixpoint attempts {A : Type} (doRequest : Z -> option A) (n : nat) (i : Z)
    (c : HTTPClient) : option A * HTTPClient :=
  match n with
  | O => (None, c)
  | S n' =>
      match doRequest i with
      | Some result => (Some result, c)
      | None => attempts doRequest n' (i + 1) (count_error c)
      end
  end.

(** [makeRequest]: the attempts [0 .. retryMax], for a [retryMax] below
    the largest [int] and a context that is not cancelled. *)
Definition makeRequest {A : Type} (doRequest : Z -> option A) (c : HTTPClient)
    : (fault + A) * HTTPClient :=
  match attempts doRequest (Z.to_nat (retryMax c + 1)) 0 c with
  | (Some result, c') => (inr result, c')
  | (None, c') => (inl (ErrRequestFailed (retryMax c + 1)), c')
  end.

Definition count_success (c : HTTPClient) : HTTPClient :=
  {| retryMax := retryMax c; requestCount := wrap64 (requestCount c + 1);
     errorCount := errorCount c; successCount := wrap64 (successCount c + 1) |}.

(** [GetLatestBlock] *)
Definition GetLatestBlock (doRequest : Z -> option RawResponse) (c : HTTPClient)
    : (fault + BlockData) * HTTPClient :=
  match makeRequest doRequest c with
  | (inl e, c') => (inl e, c')
  | (inr rawResponse, c') => (inr (build_BlockData rawResponse), count_success c')
  end.

(** [GetBlockByNumber]: the same with the request for one height. *)
Definition GetBlockByNumber (doRequest : Z -> option RawResponse) (c : HTTPClient)
    : (fault + BlockData) * HTTPClient :=
  match makeRequest doRequest c with
  | (inl e, c') => (inl e, c')
  | (inr rawResponse, c') => (inr (build_BlockData rawResponse), count_success c')
  end.

(** The ["success_rate"] entry of [GetStats]. *)
Definition success_rate (c : HTTPClient) : float64 :=
  let total := requestCount c in
  if total =? 0 then f64_zero
  else SFmul 53 1024 (f64_div (f64_of_Z (successCount c)) (f64_of_Z total))
         (f64_of_Z 100).

(** [ResetStats] *)
Definition ResetStats (c : HTTPClient) : HTTPClient :=
  {| retryMax := retryMax c; requestCount := 0; errorCount := 0; successCount := 0 |}.

End Client.

(** ** The configuration file ([config/config.go]) *)

(** The fields [validateConfig] reads besides those of [Config]. *)
Record Settings := {
  core : Config;
  TronGrid_BaseURL : string;
  Redis_Addr : string;
  Monitor_BlockInterval : Z;
  WatchAddresses : list string }.

(** [time.Second], a [time.Duration] in nanoseconds. *)
Definition time_Second : Z := 1000000000.

(** [isValidTronAddress] *)
Definition isValidTronAddress (address : string) : bool :=
  if negb (len address =? 34) || negb (HasPrefix address "T") then false else true.

(** The loop of [validateConfig] over the watch addresses from index [i]. *)
Fixpoint validate_addresses (i : Z) (addresses : list string) : option fault :=
  match addresses with
  | [] => None
  | addr :: rest =>
      if negb (isValidTronAddress addr) then Some (ErrAddressFormatAt addr i)
      else validate_addresses (i + 1) rest
  end.

(** [validateConfig]: [None] is [nil]. *)
Definition validateConfig (config : Settings) : option fault :=
  if String.eqb (TronGrid_BaseURL config) "" then Some ErrBaseURL
  else if String.eqb (Redis_Addr config) "" then Some ErrRedisAddr
  else if Monitor_BlockInterval config <? time_Second then Some ErrBlockInterval
  else if Monitor_WorkerCount (core config) <=? 0 then Some ErrWorkerCount
  else if Monitor_QueueSize (core config) <=? 0 then Some ErrQueueSize
  else validate_addresses 0 (WatchAddresses config).

Definition set_WatchAddresses (c : Settings) (addresses : list string) : Settings :=
  {| core := core c; TronGrid_BaseURL := TronGrid_BaseURL c; Redis_Addr := Redis_Addr c;
     Monitor_BlockInterval := Monitor_BlockInterval c; WatchAddresses := addresses |}.

(** [Config.GetWatchAddressesSet] *)
Definition Config_GetWatchAddressesSet (c : Settings) : gmap string bool :=
  List.fold_left (fun (addresses : gmap string bool) addr => <[addr := true]> addresses)
    (WatchAddresses c) ∅.

(** [Config.AddWatchAddress] *)
Definition Config_AddWatchAddress (c : Settings) (address : string)
    : option fault * Settings :=
  if negb (isValidTronAddress address) then (Some (ErrAddressFormat address), c)
  else if List.existsb (String.eqb address) (WatchAddresses c)
  then (Some (ErrAddressExists address), c)
  else (None, set_WatchAddresses c (WatchAddresses c ++ [address])%list).

(** The slice without its first element equal to [address], if there is
    one: [append(s[:i], s[i+1:]...)] at the first match. *)
Fixpoint remove_first (address : string) (addresses : list string) : option (list string) :=
  match addresses with
  | [] => None
  | addr :: rest =>
      if String.eqb addr address then Some rest
      else option_map (cons addr) (remove_first address rest)
  end.

(** [Config.RemoveWatchAddress] *)
Definition Config_RemoveWatchAddress (c : Settings) (address : string)
    : option fault * Settings :=
  match remove_first address (WatchAddresses c) with
  | Some addresses => (None, set_WatchAddresses c addresses)
  | None => (Some (ErrAddressMissing address), c)
  end.

(** ** The application ([main.go]) *)

(** [initWatchAddresses]: the configured addresses the store does not
    watch yet are added; a failing command would only be logged.  The
    calls are taken to read the same clock value [now]. *)
Definition initWatchAddresses (now : Z) (configured : list string) (r : Redis) : Redis :=
  let existingAddresses := GetWatchAddresses r in
  let existingMap :=
    List.fold_left (fun (m : gmap string bool) addr => <[addr := true]> m)
      existingAddresses ∅ in
  List.fold_left
    (fun (r : Redis) addr =>
       if negb (watched existingMap addr) then AddWatchAddress now r addr else r)
    configured r.

(** * Vocabulary of the statements *)

(** The value of a hexadecimal numeral read after [acc], most significant
    digit first. *)
Fixpoint hex_value_from (s : string) (acc : Z) : option Z :=
  match s with
  | EmptyString => Some acc
  | String c s' =>
      match fromHexChar c with
      | None => None
      | Some d => hex_value_from s' (16 * acc + d)
      end
  end.

(** A string of hexadecimal digits as a big-endian unsigned integer. *)
Definition hex_value (s : string) : option Z := hex_value_from s 0.

(** The range of a [byte]. *)
Definition is_byte (b : Z) : Prop := 0 <= b < 256.

(** The provider's display form: 34 characters, the first one a [T]
    ([isValidTronAddress] of the configuration). *)
Definition display_shape (s : string) : Prop :=
  String.length s = 34%nat /\ HasPrefix s "T" = true.

(** Left-padded with zeros to 64 hexadecimal characters. *)
Definition pad64 (h : string) : string := Repeat "0" (64 - String.length h) ++ h.

(** The low 20 bytes of a 32-byte argument: its last 40 characters. *)
Definition low20 (arg : string) : string := drop 24 arg.

(** A member of the [value] object of a contract's parameter, as the
    three extractors read it; [nil] when it is not there. *)
Definition value_field (contract : Contract) (key : string) : JSON :=
  match as_map (Parameter_ contract) with
  | Some paramData =>
      match as_map (map_index paramData "value") with
      | Some valueData => map_index valueData key
      | None => JNull
      end
  | None => JNull
  end.

(** The parameter has the two objects every extractor asks for. *)
Definition has_value (contract : Contract) : Prop :=
  exists paramData valueData,
    Parameter_ contract = JObject paramData /\
    map_index paramData "value" = JObject valueData.

(** The set [extractTransfers] builds from [GetWatchAddresses]. *)
Definition watch_set (r : Redis) : gmap string bool :=
  List.fold_left (fun (m : gmap string bool) addr => <[addr := true]> m)
    (GetWatchAddresses r) ∅.

(** A block of one transaction that has one contract. *)
Definition single_contract (blockData : BlockData) (tx : Transaction)
    (contract : Contract) : Prop :=
  Block_ blockData = Some {| Trans := Some [tx] |} /\
  RawData tx = Some {| Contracts := [contract] |}.

(** The event an extractor returned, if any. *)
Definition event_of (out : res (option TransferEvent) * Redis) : option TransferEvent :=
  match out with
  | (Ok (Some ev), _) => Some ev
  | _ => None
  end.

(** The blocks a run over the heights [hs] puts on the queue, in order:
    those the client delivered and the store accepted. *)
Definition enqueued (GetBlockByNumber : Z -> option BlockData)
    (push_ok : BlockData -> bool) (hs : list Z) : list BlockData :=
  List.filter push_ok (omap GetBlockByNumber hs).

(** The blocks a reader takes off the queue one after the other, until
    the queue is empty or [fuel] blocks were taken. *)
Fixpoint drain (fuel : nat) (r : Redis) : list BlockData :=
  match fuel with
  | O => []
  | S fuel' =>
      match PopBlockData r with
      | (Some blockData, r') => blockData :: drain fuel' r'
      | (None, _) => []
      end
  end.

(** What the store keeps true of its events and address records: the two
    lists hold at most 10000 events, the stablecoin list only stablecoin
    events, every event was serialisable, and every record sits under the
    key it names. *)
Definition store_ok (r : Redis) : Prop :=
  Z.of_nat (List.length (transfers r)) <= 10000 /\
  Z.of_nat (List.length (usdt_transfers r)) <= 10000 /\
  List.Forall (fun ev => IsUSDT ev = true) (usdt_transfers r) /\
  List.Forall (fun ev => marshal_ok ev = true) (transfers r) /\
  map_Forall (fun key ev => TxHash ev = key /\ marshal_ok ev = true) (transfer r) /\
  map_Forall (fun key info => Address info = key) (address_info r).

(** The record [AddWatchAddress] writes. *)
Definition fresh_record (now : Z) (address : string) : WatchAddress :=
  {| Address := address; AddedAt := now; LastSeen := zero_time; TransferCount := 0 |}.



(** A client after [k] more failed attempts. *)
Definition failed_attempts (k : Z) (c : Client.HTTPClient) : Client.HTTPClient :=
  {| Client.retryMax := Client.retryMax c;
     Client.requestCount := Client.requestCount c;
     Client.errorCount := Client.errorCount c + k;
     Client.successCount := Client.successCount c |}.

(** The extractors change nothing but address records, and keep every
    record under the key it names. *)
Definition records_only (r r' : Redis) : Prop :=
  block_queue r' = block_queue r /\ transfer r' = transfer r /\
  transfers r' = transfers r /\ usdt_transfers r' = usdt_transfers r /\
  watch_addresses r' = watch_addresses r /\
  (map_Forall (fun key info => Address info = key) (address_info r) ->
   map_Forall (fun key info => Address info = key) (address_info r')).

(** * Fixtures for closed examples *)

(** The defaults of [setDefaults]. *)
Definition default_config : Config :=
  {| Monitor_WorkerCount := 4; Monitor_QueueSize := 1000;
     Monitor_MaxBlockHeight := 0; Monitor_StartBlockHeight := 0;
     USDT_ContractAddress := "TR7NHqjeKQxGTCi8q8ZY4pL8otSzgjLj6t";
     USDT_EnableMonitoring := true; USDT_Decimals := 6 |}.

(** [math.Pow(10, d)] where [10 ^ d] is a [float64], that is for [d] from
    0 to 22. *)
Definition Pow10 (d : Z) : float64 := f64_of_Z (10 ^ d).

(** A transaction and a block to decode a contract in. *)
Definition tx0 : Transaction := {| RawData := None; TxID := "5f2a6c2d" |}.

Definition block0 : BlockData :=
  {| Height := 58000000; BlockHash := ""; Timestamp := 1700000000000; Block_ := None |}.

(** A store with nothing in it and no watch address. *)
Definition empty_store : Redis :=
  {| block_queue := []; transfer := ∅; transfers := []; usdt_transfers := [];
     watch_addresses := ∅; address_info := ∅ |}.

(** A [TriggerSmartContract] with the given [value] members. *)
Definition trigger (owner contractAddress data : string) : Contract :=
  {| Type_ := "TriggerSmartContract";
     Parameter_ :=
       JObject [("value",
                 JObject [("data", JString data); ("owner_address", JString owner);
                          ("contract_address", JString contractAddress)]);
                ("type_url", JString "type.googleapis.com/protocol.TriggerSmartContract")] |}.

(** A [TransferContract] with the given [value] object. *)
Definition native (valueData : list (string * JSON)) : Contract :=
  {| Type_ := "TransferContract";
     Parameter_ :=
       JObject [("value", JObject valueData);
                ("type_url", JString "type.googleapis.com/protocol.TransferContract")] |}.

(** The block of one transaction, the transaction of one contract. *)
Definition block_of (tx : Transaction) : BlockData :=
  {| Height := 58000000; BlockHash := ""; Timestamp := 1700000000000;
     Block_ := Some {| Trans := Some [tx] |} |}.

Definition tx_of (contract : Contract) : Transaction :=
  {| RawData := Some {| Contracts := [contract] |}; TxID := "5f2a6c2d" |}.

(** A transfer of 1000000 units of a token that is not the tracked one. *)
Definition token_call : Contract :=
  trigger "TJRabPrwbZy45sbavfcjinPJC18kjpRTv8"
    "41eca9bc828a3005b9a3b909f2cc5c2a54794de05f"
    ("a9059cbb" ++ pad64 "a614f803b6fd780986a42c78ec9c7f77e6ded13c" ++ pad64 "0f4240").

(** A watch set that holds the sender of [token_call]. *)
Definition watch_sender : gmap string bool :=
  {["TJRabPrwbZy45sbavfcjinPJC18kjpRTv8" := true]}.

(** A native transfer of [A] sun between two accounts. *)
Definition native_call (A : Z) : Contract :=
  native [("amount", JNumber (f64_of_Z A));
          ("owner_address", JString "41a614f803b6fd780986a42c78ec9c7f77e6ded13c");
          ("to_address", JString "41eca9bc828a3005b9a3b909f2cc5c2a54794de05f")].

(** A [TransferAssetContract] between the same two accounts. *)
Definition asset_call : Contract :=
  {| Type_ := "TransferAssetContract";
     Parameter_ :=
       JObject [("value",
                 JObject [("amount", JNumber (f64_of_Z 25)); ("asset_name", JString "1002000");
                          ("owner_address",
                           JString "41a614f803b6fd780986a42c78ec9c7f77e6ded13c");
                          ("to_address",
                           JString "41eca9bc828a3005b9a3b909f2cc5c2a54794de05f")])] |}.

(** An event of five TRX. *)
Definition sample_event : TransferEvent :=
  {| Source := "TR7NHqjeKQxGTCi8q8ZY4pL8otSzgjLj6t";
     Destination := "TJRabPrwbZy45sbavfcjinPJC18kjpRTv8";
     Amount := f64_of_Z 5; Fee := f64_zero; TxHash := "5f2a6c2d";
     BlockHeight := 58000000; EventTimestamp := 1700000000000; Confirmations := 0;
     TokenType := "TRX"; ContractAddress := ""; AssetName := "";
     IsUSDT := false; USDValue := f64_zero |}.

(** A second event of the same transaction. *)
Definition second_event : TransferEvent :=
  {| Source := "TR7NHqjeKQxGTCi8q8ZY4pL8otSzgjLj6t";
     Destination := "TJRabPrwbZy45sbavfcjinPJC18kjpRTv8";
     Amount := f64_of_Z 25; Fee := f64_zero; TxHash := "5f2a6c2d";
     BlockHeight := 58000000; EventTimestamp := 1700000000000; Confirmations := 0;
     TokenType := "TRC10"; ContractAddress := ""; AssetName := "1002000";
     IsUSDT := false; USDValue := f64_zero |}.

(** The default pool of four workers, started. *)
Definition started_pool : BlockProcessor :=
  snd (Pool.Start (Pool.NewBlockProcessor default_config)).

(** A chain that delivers every block. *)
Definition chain (h : Z) : option BlockData :=
  Some {| Height := h; BlockHash := ""; Timestamp := 1700000000000 + 3000 * h;
          Block_ := Some {| Trans := Some [] |} |}.

(** A running monitor that has processed height [h]. *)
Definition monitor_at (h : Z) : BlockMonitor :=
  {| m_running := true; lastProcessedBlock := h; m_processedBlocks := 0; m_errors := 0 |}.

(** The head of that chain at height [h]. *)
Definition head_at (h : Z) : BlockData :=
  {| Height := h; BlockHash := ""; Timestamp := 1700000000000 + 3000 * h;
     Block_ := Some {| Trans := Some [] |} |}.


(** A block at height [h] with one native transfer of five TRX. *)
Definition native_block (h : Z) : BlockData :=
  {| Height := h; BlockHash := ""; Timestamp := 1700000000000 + 3000 * h;
     Block_ := Some {| Trans := Some [tx_of (native_call 5000000)] |} |}.


(** A response with nothing in it. *)
Definition empty_response : Client.RawResponse :=
  {| Client.BlockID := ""; Client.Response_BlockHeader := None;
     Client.Transactions := None |}.

(** A client with the default three retries that has made no request. *)
Definition client0 : Client.HTTPClient :=
  {| Client.retryMax := 3; Client.requestCount := 0; Client.errorCount := 0;
     Client.successCount := 0 |}.

(** A service that answers the third attempt. *)
Definition third_time (i : Z) : option Client.RawResponse :=
  if i =? 2 then Some empty_response else None.

(** * Properties *)

(** ** Strings *)

Section StringFacts.

Lemma length_app (a b : string) :
  String.length (a ++ b) = (String.length a + String.length b)%nat.
Proof. induction a as [|c a IH]; simpl; [reflexivity | now rewrite IH]. Qed.

Lemma length_Repeat (c : ascii) (n : nat) : String.length (Repeat c n) = n.
Proof. induction n as [|n IH]; simpl; [reflexivity | now rewrite IH]. Qed.

Lemma take_app (a b : string) : take (String.length a) (a ++ b) = a.
Proof. induction a as [|c a IH]; simpl; [now destruct b | now rewrite IH]. Qed.

Lemma drop_app (a b : string) : drop (String.length a) (a ++ b) = b.
Proof. induction a as [|c a IH]; simpl; [now destruct b | exact IH]. Qed.

Lemma take_all (n : nat) (s : string) :
  (String.length s <= n)%nat -> take n s = s.
Proof.
  revert n; induction s as [|c s IH]; intros [|n] H; simpl in *; try reflexivity; try lia.
  rewrite IH by lia; reflexivity.
Qed.

Lemma length_drop (n : nat) (s : string) :
  String.length (drop n s) = (String.length s - n)%nat.
Proof.
  revert s; induction n as [|n IH]; intros [|c s]; simpl; try reflexivity; try lia.
  apply IH.
Qed.

Lemma HasPrefix_app (p s : string) : HasPrefix (p ++ s) p = true.
Proof.
  induction p as [|c p IH]; simpl; [reflexivity | now rewrite Ascii.eqb_refl].
Qed.

Lemma HasPrefix_cons (s : string) (c : ascii) :
  HasPrefix s (String c EmptyString) = true <-> exists s', s = String c s'.
Proof.
  destruct s as [|d s]; simpl.
  - split; [discriminate | intros [s' H]; discriminate].
  - destruct (Ascii.eqb_spec c d) as [->|Hne].
    + split; eauto.
    + split; [discriminate | intros [s' H]; congruence].
Qed.

Lemma TrimLeft_Repeat (c : ascii) (n : nat) (s : string) :
  TrimLeft (Repeat c n ++ s) c = TrimLeft s c.
Proof.
  induction n as [|n IH]; simpl; [reflexivity | now rewrite Ascii.eqb_refl].
Qed.

Lemma length_TrimLeft (s : string) (c : ascii) :
  (String.length (TrimLeft s c) <= String.length s)%nat.
Proof.
  induction s as [|a s IH]; simpl; [lia |].
  destruct (Ascii.eqb a c); simpl; lia.
Qed.

(** Cutting the leading [c]s and putting as many back is the identity. *)
Lemma Repeat_TrimLeft (s : string) (c : ascii) :
  Repeat c (String.length s - String.length (TrimLeft s c)) ++ TrimLeft s c = s.
Proof.
  induction s as [|a s IH]; simpl; [reflexivity |].
  destruct (Ascii.eqb_spec a c) as [->|Hne].
  - pose proof (length_TrimLeft s c).
    replace (S (String.length s) - String.length (TrimLeft s c))%nat
      with (S (String.length s - String.length (TrimLeft s c))) by lia.
    simpl. now rewrite IH.
  - simpl. now rewrite Nat.sub_diag.
Qed.

End StringFacts.

(** ** Hexadecimal numerals *)

Section HexFacts.

Lemma fromHexChar_range (c : ascii) (d : Z) :
  fromHexChar c = Some d -> 0 <= d < 16.
Proof.
  unfold fromHexChar.
  repeat match goal with
         | |- context [if ?b then _ else _] => destruct b eqn:?
         end; intros [= <-]; lia.
Qed.

Lemma hex_value_from_ge (s : string) (acc v : Z) :
  0 <= acc -> hex_value_from s acc = Some v -> acc <= v.
Proof.
  revert acc; induction s as [|c s IH]; simpl; intros acc Hacc H.
  - injection H as <-; lia.
  - destruct (fromHexChar c) as [d|] eqn:Hd; [|discriminate].
    apply fromHexChar_range in Hd.
    apply IH in H; lia.
Qed.

Lemma ParseUint_loop_value (s : string) (n v : Z) :
  0 <= n -> hex_value_from s n = Some v -> v <= maxUint64 ->
  ParseUint_loop s n = Some v.
Proof.
  revert n; induction s as [|c s IH]; simpl; intros n Hn H Hv; [exact H |].
  destruct (fromHexChar c) as [d|] eqn:Hd; [|discriminate].
  pose proof (fromHexChar_range _ _ Hd) as Hr.
  assert (Hge : 16 * n + d <= v) by (apply (hex_value_from_ge s); [lia | exact H]).
  change (maxUint64 / 16 + 1) with (2 ^ 60).
  unfold maxUint64 in *.
  destruct (Z.leb_spec (2 ^ 60) n); [lia |].
  destruct (Z.ltb_spec (2 ^ 64 - 1) (16 * n + d)); [lia |].
  apply IH; [lia | exact H | exact Hv].
Qed.

Lemma ParseUint_loop_range (s : string) (n v : Z) :
  0 <= n <= maxUint64 -> hex_value_from s n = Some v -> maxUint64 < v ->
  ParseUint_loop s n = None.
Proof.
  revert n; induction s as [|c s IH]; simpl; intros n Hn H Hv.
  - injection H as <-; lia.
  - destruct (fromHexChar c) as [d|] eqn:Hd; [|discriminate].
    pose proof (fromHexChar_range _ _ Hd) as Hr.
    destruct (maxUint64 / 16 + 1 <=? n); [reflexivity |].
    destruct (Z.ltb_spec maxUint64 (16 * n + d)); [reflexivity |].
    apply IH; [lia | exact H | exact Hv].
Qed.

Lemma ParseUint_loop_syntax (s : string) (n : Z) :
  hex_value_from s n = None -> ParseUint_loop s n = None.
Proof.
  revert n; induction s as [|c s IH]; simpl; intros n H; [discriminate |].
  destruct (fromHexChar c) as [d|]; [|reflexivity].
  destruct (maxUint64 / 16 + 1 <=? n); [reflexivity |].
  destruct (maxUint64 <? 16 * n + d); [reflexivity |].
  now apply IH.
Qed.

Lemma hex_value_TrimLeft (s : string) :
  hex_value (TrimLeft s "0") = hex_value s.
Proof.
  unfold hex_value.
  induction s as [|c s IH]; simpl; [reflexivity |].
  destruct (Ascii.eqb_spec c "0"%char) as [->|Hne]; [exact IH | reflexivity].
Qed.

End HexFacts.

(** ** Bytes, SHA-256 output and Base58 digits *)

(** Replace a closed arithmetic term by its value, everywhere. *)
Ltac evaluate t :=
  let v := eval vm_compute in t in change t with v in *.

Section CodecFacts.

Lemma hex_DecodeString_bytes (s : string) (l : list Z) :
  hex_DecodeString s = Some l ->
  Forall is_byte l /\ String.length s = (2 * List.length l)%nat.
Proof.
  revert l. remember (String.length s) as n eqn:Hn.
  revert s Hn. induction n as [n IH] using lt_wf_ind. intros s Hn l H. subst n.
  destruct s as [|a [|b s]]; simpl in H.
  - inversion H; subst l. split; [constructor | reflexivity].
  - discriminate.
  - destruct (fromHexChar a) as [x|] eqn:Hx; [|discriminate].
    destruct (fromHexChar b) as [y|] eqn:Hy; [|discriminate].
    destruct (hex_DecodeString s) as [l'|] eqn:Hl; [|discriminate].
    inversion H; subst l.
    apply fromHexChar_range in Hx, Hy.
    destruct (IH (String.length s) ltac:(simpl; lia) s eq_refl l' Hl) as [Hb Hlen].
    split.
    + constructor; [unfold is_byte; lia | exact Hb].
    + simpl. rewrite Hlen. lia.
Qed.

(** The four checksum bytes are bytes, whatever was hashed. *)
Lemma checksum_bytes (msg : list Z) :
  exists c0 c1 c2 c3,
    List.firstn 4 (SHA256.Sum256 msg) = [c0; c1; c2; c3] /\
    is_byte c0 /\ is_byte c1 /\ is_byte c2 /\ is_byte c3.
Proof.
  unfold SHA256.Sum256, SHA256.word_bytes. cbn [List.app List.firstn].
  do 4 eexists. split; [reflexivity |].
  unfold is_byte. repeat split; apply Z.mod_pos_bound; lia.
Qed.

Lemma SetBytes_from (l : list Z) (acc : Z) :
  List.fold_left (fun a x => a * 256 + x) l acc =
  acc * 256 ^ Z.of_nat (List.length l) + Base58.SetBytes l.
Proof.
  unfold Base58.SetBytes. revert acc.
  induction l as [|b l IH]; intros acc; simpl List.fold_left.
  - simpl. lia.
  - rewrite IH, (IH (0 * 256 + b)).
    replace (Z.of_nat (List.length (b :: l))) with (Z.of_nat (List.length l) + 1)
      by (simpl List.length; lia).
    rewrite Z.pow_add_r by lia. lia.
Qed.

Lemma SetBytes_cons (b : Z) (l : list Z) :
  Base58.SetBytes (b :: l) = b * 256 ^ Z.of_nat (List.length l) + Base58.SetBytes l.
Proof.
  unfold Base58.SetBytes at 1. simpl List.fold_left. rewrite SetBytes_from. lia.
Qed.

Lemma SetBytes_range (l : list Z) :
  Forall is_byte l -> 0 <= Base58.SetBytes l < 256 ^ Z.of_nat (List.length l).
Proof.
  induction 1 as [|b l Hb _ IH].
  - cbv. split; [discriminate | reflexivity].
  - rewrite SetBytes_cons.
    replace (Z.of_nat (List.length (b :: l))) with (Z.of_nat (List.length l) + 1)
      by (simpl List.length; lia).
    rewrite Z.pow_add_r by lia. unfold is_byte in Hb.
    assert (0 < 256 ^ Z.of_nat (List.length l)) by (apply Z.pow_pos_nonneg; lia).
    nia.
Qed.

Lemma digits_zero (fuel : nat) : Base58.digits fuel 0 = [].
Proof. destruct fuel; reflexivity. Qed.

(** A value with [k + 1] digits in base 58: the loop produces them, the
    most significant one last. *)
Lemma digits_top (k : nat) :
  forall (fuel : nat) (x : Z),
    58 ^ Z.of_nat k <= x < 58 ^ (Z.of_nat k + 1) -> (k < fuel)%nat ->
    exists low, Base58.digits fuel x = (low ++ [x / 58 ^ Z.of_nat k])%list /\
                List.length low = k.
Proof.
  induction k as [|k IH]; intros fuel x Hx Hf.
  - destruct fuel as [|fuel]; [lia |].
    change (58 ^ Z.of_nat 0) with 1 in *. change (58 ^ (Z.of_nat 0 + 1)) with 58 in Hx.
    exists []. split; [|reflexivity].
    simpl. destruct (Z.ltb_spec 0 x); [|lia].
    rewrite (Z.div_small x 58), digits_zero by lia.
    rewrite Z.mod_small, Z.div_1_r by lia. reflexivity.
  - destruct fuel as [|fuel]; [lia |].
    replace (Z.of_nat (S k)) with (Z.of_nat k + 1) in * by lia.
    assert (Hp : 0 < 58 ^ Z.of_nat k) by (apply Z.pow_pos_nonneg; lia).
    rewrite !Z.pow_add_r in Hx by lia. change (58 ^ 1) with 58 in Hx.
    assert (Hq : 58 ^ Z.of_nat k <= x / 58 < 58 ^ (Z.of_nat k + 1)).
    { rewrite Z.pow_add_r by lia. change (58 ^ 1) with 58. split.
      - apply Z.div_le_lower_bound; lia.
      - apply Z.div_lt_upper_bound; lia. }
    destruct (IH fuel (x / 58) Hq ltac:(lia)) as (low & Hd & Hl).
    exists (x mod 58 :: low). split; [|simpl; lia].
    simpl Base58.digits. destruct (Z.ltb_spec 0 x); [|lia].
    rewrite Hd. rewrite Z.pow_add_r by lia. change (58 ^ 1) with 58.
    rewrite Z.div_div by lia. rewrite (Z.mul_comm 58). reflexivity.
Qed.

Lemma length_string_of_list_ascii (l : list ascii) :
  String.length (string_of_list_ascii l) = List.length l.
Proof. induction l as [|c l IH]; simpl; [reflexivity | now rewrite IH]. Qed.

(** A 25-byte payload that starts with 0x41 encodes to 34 characters,
    the first one a [T]. *)
Lemma Encode_41 (body : list Z) :
  Forall is_byte body -> List.length body = 24%nat ->
  exists tail, Base58.Encode (65 :: body) = String "T" tail /\
               String.length tail = 33%nat.
Proof.
  intros Hb Hl. unfold Base58.Encode.
  pose proof (SetBytes_range body Hb) as Hr. rewrite Hl in Hr.
  assert (Hx : 58 ^ Z.of_nat 33 <= Base58.SetBytes (65 :: body) < 58 ^ (Z.of_nat 33 + 1)).
  { rewrite SetBytes_cons, Hl.
    evaluate (58 ^ Z.of_nat 33). evaluate (58 ^ (Z.of_nat 33 + 1)).
    evaluate (256 ^ Z.of_nat 24). lia. }
  destruct (digits_top 33 (2 * List.length (65 :: body)) _ Hx) as (low & Hd & Hlow).
  { simpl List.length. lia. }
  rewrite Hd. cbn [Base58.leading_zeros]. rewrite List.app_nil_r.
  rewrite List.rev_app_distr. cbn [List.rev List.app List.map string_of_list_ascii].
  assert (Hq : Base58.SetBytes (65 :: body) / 58 ^ Z.of_nat 33 = 26).
  { rewrite SetBytes_cons, Hl.
    evaluate (58 ^ Z.of_nat 33). evaluate (256 ^ Z.of_nat 24).
    symmetry. apply Z.div_unique_pos with
      (r := 65 * 256 ^ 24 + Base58.SetBytes body - 58 ^ 33 * 26); lia. }
  rewrite Hq. eexists. split; [reflexivity |].
  rewrite length_string_of_list_ascii, List.length_map, List.length_rev. exact Hlow.
Qed.

End CodecFacts.

(** ** Integers as [float64] *)

Section FloatFacts.

Lemma digits2_pos_bounds (p : positive) :
  2 ^ (Z.pos (digits2_pos p) - 1) <= Z.pos p < 2 ^ Z.pos (digits2_pos p).
Proof.
  induction p as [p IH|p IH|]; cbn [digits2_pos].
  - rewrite Pos2Z.inj_succ.
    replace (Z.succ (Z.pos (digits2_pos p)) - 1) with (Z.pos (digits2_pos p) - 1 + 1)
      by lia.
    rewrite Z.pow_succ_r by lia. rewrite Z.pow_add_r by lia. lia.
  - rewrite Pos2Z.inj_succ.
    replace (Z.succ (Z.pos (digits2_pos p)) - 1) with (Z.pos (digits2_pos p) - 1 + 1)
      by lia.
    rewrite Z.pow_succ_r by lia. rewrite Z.pow_add_r by lia. lia.
  - cbv. split; [discriminate | reflexivity].
Qed.

Lemma digits2_pos_shift (p k : positive) :
  digits2_pos (Pos.iter xO p k) = (digits2_pos p + k)%positive.
Proof.
  induction k as [|k IH] using Pos.peano_ind.
  - cbn. lia.
  - rewrite Pos.iter_succ. cbn [digits2_pos]. rewrite IH. lia.
Qed.

Lemma Zpos_shift (p k : positive) : Z.pos (Pos.iter xO p k) = Z.pos p * 2 ^ Z.pos k.
Proof.
  induction k as [|k IH] using Pos.peano_ind.
  - cbn. lia.
  - rewrite Pos.iter_succ, Pos2Z.inj_xO, IH, Pos2Z.inj_succ, Z.pow_succ_r by lia. lia.
Qed.

(** A mantissa of 53 bits with an exponent in range is kept as it is. *)
Lemma binary_round_aux_canonical (s : bool) (m : positive) (e : Z) :
  Z.pos (digits2_pos m) = 53 -> -1074 <= e <= 971 ->
  binary_round_aux 53 1024 s (Z.pos m) e loc_Exact = S754_finite s m e.
Proof.
  intros Hd He. unfold binary_round_aux, shr_fexp, fexp, emin.
  cbn [Zdigits2 shr_record_of_loc]. rewrite Hd.
  replace (Z.max (53 + e - 53) (3 - 1024 - 53) - e) with 0 by lia.
  cbn [shr shr_m loc_of_shr_record round_nearest_even Zdigits2 shr_record_of_loc].
  rewrite Hd.
  replace (Z.max (53 + e - 53) (3 - 1024 - 53) - e) with 0 by lia.
  cbn [shr shr_m].
  destruct (Z.leb_spec e (1024 - 53)); [reflexivity | lia].
Qed.

(** An integer below [2 ^ 53] is a [float64]: the conversion is exact. *)
Lemma f64_of_Z_exact (n : Z) :
  0 <= n < 2 ^ 53 ->
  exists q, f64_to_Q (f64_of_Z n) = Some q /\ (q == inject_Z n)%Q.
Proof.
  intros Hn. destruct n as [|p|p]; [| |lia].
  - eexists. split; reflexivity.
  - unfold f64_of_Z, binary_normalize, binary_round.
    pose proof (digits2_pos_bounds p) as Hb.
    set (d := digits2_pos p) in *.
    assert (Hd : Z.pos d <= 53).
    { destruct (Z.le_gt_cases (Z.pos d) 53) as [|Hgt]; [assumption |].
      assert (2 ^ 53 <= 2 ^ (Z.pos d - 1)) by (apply Z.pow_le_mono_r; lia). lia. }
    unfold fexp, emin, shl_align.
    replace (Z.max (Z.pos d + 0 - 53) (3 - 1024 - 53) - 0) with (Z.pos d - 53) by lia.
    destruct (Z.pos d - 53) as [|k|k] eqn:Hk; [| lia |].
    + rewrite binary_round_aux_canonical by lia.
      eexists. split; [reflexivity |]. unfold Qeq. cbn. lia.
    + replace (Z.max (Z.pos d + 0 - 53) (3 - 1024 - 53)) with (Z.neg k) by lia.
      rewrite binary_round_aux_canonical.
      * eexists. split; [reflexivity |]. cbn [Z.leb Z.compare].
        unfold Qeq. cbn [Qnum Qden inject_Z]. rewrite Zpos_shift.
        change (- Z.neg k) with (Z.pos k).
        rewrite Z2Pos.id by (apply Z.pow_pos_nonneg; lia). lia.
      * rewrite digits2_pos_shift. fold d. lia.
      * lia.
Qed.

(** The number of bits of a positive integer between two powers of two. *)
Lemma Zdigits2_between (x d : Z) :
  0 < d -> 2 ^ (d - 1) <= x < 2 ^ d -> Zdigits2 x = d.
Proof.
  intros Hd Hx.
  assert (0 < 2 ^ (d - 1)) by (apply Z.pow_pos_nonneg; lia).
  destruct x as [|p|p]; [lia | | lia].
  cbn [Zdigits2]. pose proof (digits2_pos_bounds p) as Hb.
  set (D := Z.pos (digits2_pos p)) in *.
  destruct (Z.lt_trichotomy D d) as [Hlt|[Heq|Hgt]]; [| exact Heq |].
  - assert (2 ^ D <= 2 ^ (d - 1)) by (apply Z.pow_le_mono_r; lia). lia.
  - assert (2 ^ d <= 2 ^ (D - 1)) by (apply Z.pow_le_mono_r; lia). lia.
Qed.

(** The second alignment of [binary_round_aux]: a mantissa of 53 bits
    stays, [2 ^ 53] becomes [2 ^ 52] one exponent up. *)
Lemma second_align (m e : Z) :
  2 ^ 52 <= m <= 2 ^ 53 -> -1074 <= e <= 969 ->
  exists m' e',
    (let '(mrs, e2) := shr_fexp 53 1024 m e loc_Exact in (shr_m mrs, e2)) =
      (Z.pos m', e') /\
    e <= e' <= e + 1 /\ Z.pos m' * 2 ^ (e' - e) = m.
Proof.
  intros Hm He. unfold shr_fexp, fexp, emin. cbn [shr_record_of_loc].
  destruct (Z.eq_dec m (2 ^ 53)) as [->|Hne].
  - vm_compute (Zdigits2 (2 ^ 53)).
    replace (Z.max (54 + e - 53) (3 - 1024 - 53) - e) with 1 by lia.
    cbn. exists (4503599627370496%positive), (e + 1).
    split; [reflexivity |]. split; [lia |].
    replace (e + 1 - e) with 1 by lia. reflexivity.
  - rewrite (Zdigits2_between m 53) by lia.
    replace (Z.max (53 + e - 53) (3 - 1024 - 53) - e) with 0 by lia.
    cbn [shr shr_m]. destruct m as [|p|p]; try lia.
    exists p, e. split; [reflexivity |]. split; [lia |].
    rewrite Z.sub_diag. lia.
Qed.

Lemma loc_roundtrip (m : Z) (l : location) :
  loc_of_shr_record (shr_record_of_loc m l) = l.
Proof. destruct l as [|[| |]]; reflexivity. Qed.

(** Rounding a quotient [q + num / den] of 53 or 54 bits: the result is
    finite and off by at most [2 ^ -53] of the quotient. *)
Lemma round_quotient (q e num den : Z) :
  2 ^ 52 <= q < 2 ^ 54 -> -1074 <= e <= 900 -> 0 <= num < den ->
  exists m e2,
    binary_round_aux 53 1024 false q e (quotient_location num den) =
      S754_finite false m e2 /\
    e <= e2 <= e + 2 /\
    Z.abs (Z.pos m * 2 ^ (e2 - e) * den - (q * den + num)) * 2 ^ 53 <= q * den + num.
Proof.
  intros Hq He Hn.
  set (T := q * den + num).
  unfold binary_round_aux.
  destruct (Z.lt_ge_cases q (2 ^ 53)) as [Hs|Hb].
  - (* 53 bits: no first shift *)
    unfold shr_fexp at 1, fexp, emin.
    rewrite (Zdigits2_between q 53) by lia.
    replace (Z.max (53 + e - 53) (3 - 1024 - 53) - e) with 0 by lia.
    cbn [shr]. rewrite loc_roundtrip.
    cbn [shr_m].
    replace (shr_m (shr_record_of_loc q (quotient_location num den))) with q
      by (destruct (quotient_location num den) as [|[| |]]; reflexivity).
    set (mr := round_nearest_even q (quotient_location num den)).
    assert (Hmr : (mr = q \/ mr = q + 1) /\ 2 * Z.abs (mr * den - T) <= den).
    { unfold mr, quotient_location, T.
      destruct (Z.eqb_spec num 0) as [->|Hnz]; cbn [round_nearest_even].
      - split; [auto | lia].
      - destruct (Z.compare_spec (2 * num) den); cbn [round_nearest_even].
        + destruct (Z.even q); split; auto; lia.
        + split; [auto | lia].
        + split; [auto | lia]. }
    destruct Hmr as [Hmr Herr].
    destruct (second_align mr e) as (m' & e' & Hal & He' & Hval); [lia | lia |].
    destruct (shr_fexp 53 1024 mr e loc_Exact) as [mrs'' e''].
    injection Hal as Hm'' He''. rewrite Hm''. subst e''.
    destruct (Z.leb_spec e' (1024 - 53)); [|lia].
    exists m', e'. split; [reflexivity |]. split; [lia |].
    rewrite Hval.
    assert (2 ^ 52 * den <= T) by (unfold T; nia).
    nia.
  - (* 54 bits: one shift *)
    unfold shr_fexp at 1, fexp, emin.
    rewrite (Zdigits2_between q 54) by lia.
    replace (Z.max (54 + e - 53) (3 - 1024 - 53) - e) with 1 by lia.
    cbn [shr SpecFloat.iter_pos].
    set (mrs := shr_1 (shr_record_of_loc q (quotient_location num den))).
    set (mr := round_nearest_even (shr_m mrs) (loc_of_shr_record mrs)).
    assert (Hmr : 2 ^ 52 <= mr <= 2 ^ 53 /\ Z.abs (2 * mr * den - T) <= den).
    { unfold mr, mrs, quotient_location, T.
      destruct q as [|[p|p|]|]; try lia;
        (destruct (Z.eqb_spec num 0) as [->|Hnz];
         [|destruct (Z.compare_spec (2 * num) den)]);
        cbn [shr_record_of_loc shr_1 shr_m loc_of_shr_record round_nearest_even orb];
        try (destruct (Z.even (Z.pos p))); lia. }
    destruct Hmr as [Hmr Herr].
    destruct (second_align mr (e + 1)) as (m' & e' & Hal & He' & Hval); [lia | lia |].
    destruct (shr_fexp 53 1024 mr (e + 1) loc_Exact) as [mrs'' e''].
    injection Hal as Hm'' He''. rewrite Hm''. subst e''.
    destruct (Z.leb_spec e' (1024 - 53)); [|lia].
    exists m', e'. split; [reflexivity |]. split; [lia |].
    replace (e' - e) with (e' - (e + 1) + 1) by lia.
    rewrite Z.pow_add_r by lia. change (2 ^ 1) with 2.
    replace (Z.pos m' * (2 ^ (e' - (e + 1)) * 2)) with (2 * mr) by lia.
    assert (2 ^ 53 * den <= T) by (unfold T; nia).
    nia.
Qed.

(** The [float64] of a positive integer below [2 ^ 53]: the integer
    shifted to 53 bits. *)
Lemma f64_of_Z_normal (p : positive) :
  Z.pos p < 2 ^ 53 ->
  exists m k,
    f64_of_Z (Z.pos p) = S754_finite false m (- k) /\ 0 <= k <= 52 /\
    Z.pos m = Z.pos p * 2 ^ k /\ Z.pos (digits2_pos m) = 53.
Proof.
  intros Hn. unfold f64_of_Z, binary_normalize, binary_round.
  pose proof (digits2_pos_bounds p) as Hb.
  set (d := digits2_pos p) in *.
  assert (Hd : Z.pos d <= 53).
  { destruct (Z.le_gt_cases (Z.pos d) 53) as [|Hgt]; [assumption |].
    assert (2 ^ 53 <= 2 ^ (Z.pos d - 1)) by (apply Z.pow_le_mono_r; lia). lia. }
  unfold fexp, emin, shl_align.
  replace (Z.max (Z.pos d + 0 - 53) (3 - 1024 - 53) - 0) with (Z.pos d - 53) by lia.
  destruct (Z.pos d - 53) as [|k|k] eqn:Hk; [| lia |].
  - rewrite binary_round_aux_canonical by lia.
    exists p, 0. split; [reflexivity |]. split; [lia |]. split; [|fold d]; lia.
  - replace (Z.max (Z.pos d + 0 - 53) (3 - 1024 - 53)) with (Z.neg k) by lia.
    rewrite binary_round_aux_canonical.
    + exists (Pos.iter xO p k), (Z.pos k). split; [reflexivity |].
      split; [lia |]. split; [apply Zpos_shift |].
      rewrite digits2_pos_shift. fold d. lia.
    + rewrite digits2_pos_shift. fold d. lia.
    + lia.
Qed.

(** Division of an integer amount by [1e6]: the quotient is a finite
    [float64] [m * 2 ^ e] within [2 ^ -53] of [A / 1_000_000], relatively. *)
Lemma f64_div_1e6 (A : Z) :
  0 < A < 2 ^ 53 ->
  exists m e,
    f64_div (f64_of_Z A) (f64_of_Z 1000000) = S754_finite false m e /\ e < 0 /\
    Z.abs (Z.pos m * 1000000 - A * 2 ^ (- e)) * 2 ^ 53 <= A * 2 ^ (- e).
Proof.
  intros HA. destruct A as [|p|p]; try lia.
  destruct (f64_of_Z_normal p) as (m1 & k & -> & Hk & Hm1 & Hd1); [lia |].
  assert (Hb1 : 2 ^ 52 <= Z.pos m1 < 2 ^ 53).
  { pose proof (digits2_pos_bounds m1) as Hb. rewrite Hd1 in Hb. exact Hb. }
  change (f64_of_Z 1000000) with (S754_finite false 8589934592000000 (-33)).
  unfold f64_div, SFdiv, SFdiv_core_binary.
  cbn [Zdigits2 xorb]. rewrite Hd1.
  change (Z.pos (digits2_pos 8589934592000000)) with 53.
  unfold fexp, emin.
  replace (Z.min (Z.max (53 + - k - (53 + -33) - 53) (3 - 1024 - 53)) (- k - -33))
    with (- k - 20) by lia.
  replace (- k - -33 - (- k - 20)) with 53 by lia.
  rewrite Z.shiftl_mul_pow2 by lia.
  pose proof (Z_div_mod (Z.pos m1 * 2 ^ 53) 8589934592000000 eq_refl) as Hdiv.
  destruct (Z.div_eucl (Z.pos m1 * 2 ^ 53) 8589934592000000) as [q r].
  destruct Hdiv as [Hqr Hr].
  change (new_location 8589934592000000 r) with (quotient_location r 8589934592000000).
  destruct (round_quotient q (- k - 20) r 8589934592000000) as (m & e2 & -> & He2 & Hbound).
  { change (2 ^ 52) with 4503599627370496 in *.
    change (2 ^ 53) with 9007199254740992 in *.
    change (2 ^ 54) with 18014398509481984. nia. }
  { lia. }
  { lia. }
  exists m, e2. split; [reflexivity |]. split; [lia |].
  replace (q * 8589934592000000 + r) with (Z.pos m1 * 2 ^ 53) in Hbound by lia.
  rewrite Hm1 in Hbound.
  set (j := e2 - (- k - 20)) in *.
  assert (Hj : 0 <= j <= 2) by (unfold j; lia).
  replace (- e2) with (k + 20 - j) by (unfold j; lia).
  set (P := 2 ^ (k + 20 - j)).
  set (S := 2 ^ (33 + j)).
  assert (HS : 0 < S) by (apply Z.pow_pos_nonneg; lia).
  assert (E1 : 2 ^ j * 8589934592000000 = 1000000 * S).
  { unfold S. rewrite Z.pow_add_r by lia. change (2 ^ 33) with 8589934592. lia. }
  assert (E2 : 2 ^ k * 2 ^ 53 = P * S).
  { unfold P, S. rewrite <- !Z.pow_add_r by lia. f_equal. lia. }
  replace (Z.pos m * 2 ^ j * 8589934592000000 - Z.pos p * 2 ^ k * 2 ^ 53)
    with ((Z.pos m * 1000000 - Z.pos p * P) * S) in Hbound by nia.
  replace (Z.pos p * 2 ^ k * 2 ^ 53) with (Z.pos p * P * S) in Hbound by nia.
  rewrite Z.abs_mul, (Z.abs_eq S) in Hbound by lia.
  nia.
Qed.

(** The same in rationals, zero included: the quotient is within
    [2 ^ -53] of [A / 1_000_000], relatively. *)
Lemma f64_div_1e6_Q (A : Z) :
  0 <= A < 2 ^ 53 ->
  exists q,
    f64_to_Q (f64_div (f64_of_Z A) (f64_of_Z 1000000)) = Some q /\
    (Qabs (q - (A # 1000000)) * inject_Z (2 ^ 53) <= A # 1000000)%Q.
Proof.
  intros HA. destruct (Z.eq_dec A 0) as [->|Hnz].
  { eexists. split; [reflexivity |]. vm_compute. discriminate. }
  destruct (f64_div_1e6 A) as (m & e & -> & He & Hb); [lia |].
  unfold f64_to_Q. destruct (Z.leb_spec 0 e) as [|_]; [lia |].
  eexists. split; [reflexivity |].
  assert (Hd : 0 < 2 ^ (- e)) by (apply Z.pow_pos_nonneg; lia).
  set (d := 2 ^ (- e)) in *.
  unfold Qle, Qabs, Qminus, Qplus, Qopp, Qmult, inject_Z. cbn [Qnum Qden].
  rewrite !Pos2Z.inj_mul, Z2Pos.id by exact Hd.
  replace (Z.pos m * 1000000 + - A * d) with (Z.pos m * 1000000 - A * d) by lia.
  nia.
Qed.

End FloatFacts.

(** ** Test vectors *)

(** FIPS 180-4, the digest of ["abc"]. *)
Example Sum256_abc :
  SHA256.Sum256 [97; 98; 99] =
  [186; 120; 22; 191; 143; 1; 207; 234; 65; 65; 64; 222; 93; 174; 34; 35;
   176; 3; 97; 163; 150; 23; 122; 156; 180; 16; 255; 97; 242; 0; 21; 173].
Proof. vm_compute. reflexivity. Qed.

(** The default stablecoin contract of the configuration, from its
    hexadecimal form. *)
Example convertHexToBase58_usdt :
  convertHexToBase58 "41a614f803b6fd780986a42c78ec9c7f77e6ded13c" =
  "TR7NHqjeKQxGTCi8q8ZY4pL8otSzgjLj6t".
Proof. vm_compute. reflexivity. Qed.

(** ** The address codec *)

Section Codec.

Lemma convertHexToBase58_T (s : string) :
  HasPrefix s "T" = true -> convertHexToBase58 s = s.
Proof.
  intros H. apply HasPrefix_cons in H as [s' ->]. reflexivity.
Qed.

Lemma convertHexToBase58_undecodable (s : string) :
  hex_DecodeString (TrimPrefix s "0x") = None ->
  convertHexToBase58 s = TrimPrefix s "0x".
Proof.
  intros H. unfold convertHexToBase58, hexToTronAddress. rewrite H.
  destruct (len (TrimPrefix s "0x") =? 0); [reflexivity |].
  destruct (HasPrefix (TrimPrefix s "0x") "T"); reflexivity.
Qed.

(** A 21-byte hexadecimal address with the version byte 0x41 comes out
    in display form. *)
Lemma convertHexToBase58_address (h : string) (body : list Z) :
  hex_DecodeString h = Some (65 :: body) -> List.length body = 20%nat ->
  exists tail, convertHexToBase58 h = String "T" tail /\ String.length tail = 33%nat.
Proof.
  intros H Hl.
  destruct (hex_DecodeString_bytes _ _ H) as [Hb _].
  apply Forall_cons in Hb as [_ Hb].
  destruct (checksum_bytes (SHA256.Sum256 (65 :: body)))
    as (d0 & d1 & d2 & d3 & Hd & D0 & D1 & D2 & D3).
  destruct (Encode_41 (body ++ [d0; d1; d2; d3])) as (tail & He & Ht).
  { apply Forall_app. split; [exact Hb |].
    repeat (apply List.Forall_cons; [assumption |]). apply List.Forall_nil. }
  { rewrite List.length_app, Hl. reflexivity. }
  exists tail. split; [|exact Ht]. rewrite <- He.
  unfold convertHexToBase58, hexToTronAddress.
  destruct h as [|a [|b rest]]; simpl in H; try discriminate H.
  destruct (fromHexChar a) as [x|] eqn:Hx; [|discriminate H].
  destruct (fromHexChar b) as [y|] eqn:Hy; [|discriminate H].
  destruct (hex_DecodeString rest) as [l|] eqn:Hrest; [|discriminate H].
  assert (Hxy : 16 * x + y = 65 /\ l = body) by (inversion H; auto).
  destruct Hxy as [Hxy ->].
  pose proof (fromHexChar_range _ _ Hx). pose proof (fromHexChar_range _ _ Hy).
  assert (Ha0 : Ascii.eqb "0" a = false).
  { destruct (Ascii.eqb_spec "0"%char a) as [<-|]; [|reflexivity].
    cbv in Hx. inversion Hx. lia. }
  assert (HaT : Ascii.eqb "T" a = false).
  { destruct (Ascii.eqb_spec "T"%char a) as [<-|]; [|reflexivity].
    cbv in Hx. discriminate Hx. }
  unfold TrimPrefix. cbn [HasPrefix]. rewrite Ha0.
  replace (len (String a (String b rest)) =? 0) with false
    by (symmetry; apply Z.eqb_neq; unfold len; simpl String.length; lia).
  rewrite HaT.
  cbn [hex_DecodeString]. rewrite Hx, Hy, Hrest, Hxy, Hd. reflexivity.
Qed.

End Codec.

(** ** Decoding a [transfer(address,uint256)] call *)

Section TransferCall.

Variable cfg : Config.
Variable math_Pow10 : Z -> float64.

Lemma append_assoc (a b c : string) : (a ++ b) ++ c = a ++ (b ++ c).
Proof. induction a as [|x a IH]; simpl; [reflexivity | now rewrite IH]. Qed.

Lemma Repeat_add (c : ascii) (m n : nat) :
  Repeat c (m + n) = Repeat c m ++ Repeat c n.
Proof. induction m as [|m IH]; simpl; [reflexivity | now rewrite IH]. Qed.

Lemma length_pad64 (h : string) :
  (String.length h <= 64)%nat -> String.length (pad64 h) = 64%nat.
Proof. intros H. unfold pad64. rewrite length_app, length_Repeat. lia. Qed.

Lemma low20_pad64 (h : string) :
  (String.length h <= 40)%nat ->
  low20 (pad64 h) = Repeat "0" (40 - String.length h) ++ h.
Proof.
  intros H. unfold low20, pad64.
  replace (64 - String.length h)%nat with (24 + (40 - String.length h))%nat by lia.
  rewrite Repeat_add, append_assoc.
  rewrite <- (length_Repeat "0" 24) at 1. apply drop_app.
Qed.

(** With at most 20 significant bytes, trimming the zeros and padding
    back to 40 characters keeps the low 20 bytes. *)
Lemma trim_pad_low20 (h : string) :
  (String.length h <= 40)%nat ->
  (let t := TrimLeft (pad64 h) "0" in
   if len t <? 40 then Repeat "0" (40 - String.length t) ++ t else t) =
  low20 (pad64 h).
Proof.
  intros H. rewrite low20_pad64 by exact H. cbv zeta.
  assert (Et : TrimLeft (pad64 h) "0" = TrimLeft h "0")
    by (unfold pad64; apply TrimLeft_Repeat).
  rewrite !Et.
  pose proof (length_TrimLeft h "0") as Hle.
  pose proof (Repeat_TrimLeft h "0") as Hid.
  unfold len. destruct (Z.ltb_spec (Z.of_nat (String.length (TrimLeft h "0"))) 40).
  - transitivity (Repeat "0" (40 - String.length h) ++
                  (Repeat "0" (String.length h - String.length (TrimLeft h "0")) ++
                   TrimLeft h "0")); [| now rewrite Hid].
    rewrite <- append_assoc, <- Repeat_add. f_equal. f_equal. lia.
  - replace (String.length h - String.length (TrimLeft h "0"))%nat with O in Hid by lia.
    replace (40 - String.length h)%nat with O by lia.
    simpl in Hid |- *. exact Hid.
Qed.

Lemma parseHexAmount_value (s : string) (n : Z) :
  hex_value s = Some n -> n <= maxUint64 -> parseHexAmount s = Some (f64_of_Z n).
Proof.
  intros H Hn. unfold parseHexAmount.
  rewrite <- hex_value_TrimLeft in H.
  destruct (TrimLeft s "0") as [|c t] eqn:Ht.
  - simpl. cbv in H. injection H as <-. reflexivity.
  - replace (String.eqb (String c t) "") with false by reflexivity.
    unfold strconv_ParseUint16.
    rewrite (ParseUint_loop_value _ 0 n); [reflexivity | lia | exact H | exact Hn].
Qed.

Lemma parseHexAmount_range (s : string) (n : Z) :
  hex_value s = Some n -> maxUint64 < n -> parseHexAmount s = None.
Proof.
  intros H Hn. unfold parseHexAmount.
  rewrite <- hex_value_TrimLeft in H.
  destruct (TrimLeft s "0") as [|c t] eqn:Ht.
  - cbv in H. injection H as <-. unfold maxUint64 in Hn. lia.
  - replace (String.eqb (String c t) "") with false by reflexivity.
    unfold strconv_ParseUint16.
    rewrite (ParseUint_loop_range _ 0 n); [reflexivity | | exact H | exact Hn].
    unfold maxUint64. lia.
Qed.

Lemma hex_value_pad64 (h : string) : hex_value (pad64 h) = hex_value h.
Proof.
  rewrite <- (hex_value_TrimLeft (pad64 h)), <- (hex_value_TrimLeft h).
  unfold pad64. now rewrite TrimLeft_Repeat.
Qed.

(** The layout of a well-formed call: selector, two 64-character
    arguments, anything after them. *)
Lemma parseTRC20TransferData_layout (arg1 arg2 rest ownerAddress contractAddress : string)
    (tx : Transaction) (blockData : BlockData) (isUSDT : bool) :
  String.length arg1 = 64%nat -> String.length arg2 = 64%nat ->
  parseTRC20TransferData cfg math_Pow10 ("a9059cbb" ++ arg1 ++ arg2 ++ rest)
    ownerAddress contractAddress tx blockData isUSDT =
  match parseHexAmount arg2 with
  | None => Err ErrParseAmount
  | Some amount =>
      let amount :=
        if isUSDT then f64_div amount (math_Pow10 (USDT_Decimals cfg)) else amount in
      Ok (Some {| Source := convertHexToBase58 ownerAddress;
                  Destination :=
                    convertHexToBase58
                      ("41" ++ (let t := TrimLeft arg1 "0" in
                                if len t <? 40
                                then Repeat "0" (40 - String.length t) ++ t else t));
                  Amount := amount; Fee := f64_zero; TxHash := TxID tx;
                  BlockHeight := Height blockData;
                  EventTimestamp := Timestamp blockData; Confirmations := 0;
                  TokenType := if isUSDT then "USDT" else "TRC20";
                  ContractAddress := contractAddress;
                  AssetName := ""; IsUSDT := isUSDT; USDValue := amount |})
  end.
Proof.
  intros H1 H2. unfold parseTRC20TransferData. cbv zeta.
  assert (Hrest : 0 <= len rest) by (unfold len; lia).
  assert (Hlen : len ("a9059cbb" ++ arg1 ++ arg2 ++ rest) = 136 + len rest).
  { unfold len. rewrite !length_app, H1, H2. simpl String.length. lia. }
  assert (Hd8 : drop 8 ("a9059cbb" ++ arg1 ++ arg2 ++ rest) = arg1 ++ arg2 ++ rest)
    by apply (drop_app "a9059cbb").
  assert (Hl1 : len (arg1 ++ arg2 ++ rest) = 128 + len rest).
  { unfold len. rewrite !length_app, H1, H2. lia. }
  assert (Ht1 : take 64 (arg1 ++ arg2 ++ rest) = arg1)
    by (rewrite <- H1; apply take_app).
  assert (Hd1 : drop 64 (arg1 ++ arg2 ++ rest) = arg2 ++ rest)
    by (rewrite <- H1; apply drop_app).
  assert (Hl2 : len (arg2 ++ rest) = 64 + len rest).
  { unfold len. rewrite length_app, H2. lia. }
  assert (Ht2 : take 64 (arg2 ++ rest) = arg2)
    by (rewrite <- H2; apply take_app).
  rewrite Hlen, HasPrefix_app, !Hd8, Hl1, Ht1, !Hd1, Hl2, Ht2.
  replace (136 + len rest <? 74) with false by (symmetry; apply Z.ltb_ge; lia).
  replace (136 + len rest <? 8) with false by (symmetry; apply Z.ltb_ge; lia).
  replace (128 + len rest <? 64) with false by (symmetry; apply Z.ltb_ge; lia).
  replace (64 + len rest <? 64) with false by (symmetry; apply Z.ltb_ge; lia).
  reflexivity.
Qed.

End TransferCall.

Section TransferCallClaims.

Variable cfg : Config.
Variable math_Pow10 : Z -> float64.
Variable now : Z.

Lemma append_nil_r (a : string) : a ++ "" = a.
Proof. induction a as [|x a IH]; simpl; [reflexivity | now rewrite IH]. Qed.

Lemma ParseUint_loop_inv (s : string) (n v : Z) :
  0 <= n <= maxUint64 -> ParseUint_loop s n = Some v ->
  hex_value_from s n = Some v /\ 0 <= v <= maxUint64.
Proof.
  revert n; induction s as [|c s IH]; simpl; intros n Hn H.
  - inversion H; subst v. split; [reflexivity | exact Hn].
  - destruct (fromHexChar c) as [d|] eqn:Hd; [|discriminate H].
    pose proof (fromHexChar_range _ _ Hd) as Hr.
    destruct (maxUint64 / 16 + 1 <=? n); [discriminate H |].
    destruct (Z.ltb_spec maxUint64 (16 * n + d)); [discriminate H |].
    apply IH; [lia | exact H].
Qed.

Lemma parseHexAmount_inv (s : string) (a : float64) :
  parseHexAmount s = Some a ->
  exists n, hex_value s = Some n /\ 0 <= n <= maxUint64 /\ a = f64_of_Z n.
Proof.
  unfold parseHexAmount. intros H. rewrite <- hex_value_TrimLeft.
  destruct (TrimLeft s "0") as [|c t] eqn:Ht.
  - simpl in H. inversion H. exists 0. repeat split; try reflexivity. discriminate.
  - replace (String.eqb (String c t) "") with false in H by reflexivity.
    unfold strconv_ParseUint16 in H.
    destruct (ParseUint_loop (String c t) 0) as [v|] eqn:Hv; [|discriminate H].
    apply ParseUint_loop_inv in Hv as [Hv Hr]; [|unfold maxUint64; lia].
    inversion H. exists v. auto.
Qed.

(** What a returned event is made of. *)
Lemma parseTRC20TransferData_inv (data ownerAddress contractAddress : string)
    (tx : Transaction) (blockData : BlockData) (isUSDT : bool) (ev : TransferEvent) :
  parseTRC20TransferData cfg math_Pow10 data ownerAddress contractAddress
    tx blockData isUSDT = Ok (Some ev) ->
  exists amount,
    parseHexAmount (take 64 (drop 64 (drop 8 data))) = Some amount /\
    IsUSDT ev = isUSDT /\
    Amount ev =
      (if isUSDT then f64_div amount (math_Pow10 (USDT_Decimals cfg)) else amount) /\
    USDValue ev = Amount ev.
Proof.
  unfold parseTRC20TransferData. cbv zeta.
  destruct ((len data <? 74) || negb (HasPrefix data "a9059cbb")); [discriminate |].
  destruct (len data <? 8); [discriminate |].
  destruct (len (drop 8 data) <? 64); [discriminate |].
  destruct (len (drop 64 (drop 8 data)) <? 64); [discriminate |].
  destruct (parseHexAmount (take 64 (drop 64 (drop 8 data)))) as [amount|];
    [|discriminate].
  intros H. inversion H; subst ev; clear H. exists amount. cbn. auto.
Qed.

Lemma parseTRC20TransferData_short (data ownerAddress contractAddress : string)
    (tx : Transaction) (blockData : BlockData) (isUSDT : bool) :
  len data < 74 \/ HasPrefix data "a9059cbb" = false ->
  parseTRC20TransferData cfg math_Pow10 data ownerAddress contractAddress
    tx blockData isUSDT = Ok None.
Proof.
  intros H. unfold parseTRC20TransferData.
  destruct (Z.ltb_spec (len data) 74) as [|Hge]; [reflexivity |].
  destruct H as [H|H]; [lia |]. now rewrite H.
Qed.

Lemma parseTRC20TransferData_truncated (data ownerAddress contractAddress : string)
    (tx : Transaction) (blockData : BlockData) (isUSDT : bool) :
  HasPrefix data "a9059cbb" = true -> 74 <= len data < 136 ->
  parseTRC20TransferData cfg math_Pow10 data ownerAddress contractAddress
    tx blockData isUSDT = Err ErrAmountDataShort.
Proof.
  intros Hp Hl. unfold parseTRC20TransferData. cbv zeta. rewrite Hp.
  assert (L8 : len (drop 8 data) = len data - 8)
    by (unfold len in *; rewrite length_drop; lia).
  assert (L72 : len (drop 64 (drop 8 data)) = len data - 72)
    by (unfold len in *; rewrite !length_drop; lia).
  rewrite L8, L72.
  replace (len data <? 74) with false by (symmetry; apply Z.ltb_ge; lia).
  replace (len data <? 8) with false by (symmetry; apply Z.ltb_ge; lia).
  replace (len data - 8 <? 64) with false by (symmetry; apply Z.ltb_ge; lia).
  replace (len data - 72 <? 64) with true by (symmetry; apply Z.ltb_lt; lia).
  reflexivity.
Qed.

(** An event [extractTRC20Transfer] returns is the one
    [parseTRC20TransferData] built, tagged by the converted contract
    address. *)
Lemma extractTRC20Transfer_emits (contract : Contract) (tx : Transaction)
    (blockData : BlockData) (ws : gmap string bool) (r r' : Redis) (ev : TransferEvent) :
  extractTRC20Transfer cfg math_Pow10 now contract tx blockData ws r = (Ok (Some ev), r') ->
  let contractAddress :=
    convertHexToBase58 (as_string (value_field contract "contract_address")) in
  parseTRC20TransferData cfg math_Pow10
    (as_string (value_field contract "data"))
    (convertHexToBase58 (as_string (value_field contract "owner_address")))
    contractAddress tx blockData (isUSDTContract cfg contractAddress) = Ok (Some ev).
Proof.
  unfold extractTRC20Transfer, value_field. cbv zeta.
  destruct (as_map (Parameter_ contract)) as [paramData|]; [|discriminate].
  destruct (as_map (map_index paramData "value")) as [valueData|]; [|discriminate].
  destruct (_ && negb (USDT_EnableMonitoring cfg)); [discriminate |].
  destruct (parseTRC20TransferData _ _ _ _ _ _ _ _) as [[transfer|]|e];
    try discriminate.
  destruct (_ && _); [discriminate |].
  intros H. inversion H. reflexivity.
Qed.

Lemma Type_TriggerSmartContract (contract : Contract) (tx : Transaction)
    (blockData : BlockData) (ws : gmap string bool) (r : Redis) :
  Type_ contract = "TriggerSmartContract" ->
  extractTransferFromContract cfg math_Pow10 now contract tx blockData ws r =
  extractTRC20Transfer cfg math_Pow10 now contract tx blockData ws r.
Proof. intros H. unfold extractTransferFromContract. now rewrite H. Qed.

End TransferCallClaims.

Section TransferCallTheorems.

Variable cfg : Config.
Variable math_Pow10 : Z -> float64.
Variable now : Z.

(** C1, as amended.  For [data = "a9059cbb" + pad64(destHex) +
    pad64(amountHex)] where [destHex] has at most 40 characters (the
    upper 12 bytes of the first argument are zero) and [amountHex] is a
    hexadecimal numeral of value [n]: when [n] fits 64 bits the decoder
    returns an event whose destination is the codec applied to ["41"]
    followed by the low 20 bytes of the first argument, and whose amount is
    [float64(n)], which is [n] itself below [2 ^ 53], divided by
    [math.Pow(10, decimals)] exactly when the converted contract address is
    the configured stablecoin contract; when [n] does not fit 64 bits the
    decoder returns an error and no event. *)
Theorem transfer_call_decoded
    (destHex amountHex ownerAddress contractAddress : string) (n : Z)
    (tx : Transaction) (blockData : BlockData) :
  (String.length destHex <= 40)%nat -> (String.length amountHex <= 64)%nat ->
  hex_value amountHex = Some n ->
  let decoded :=
    parseTRC20TransferData cfg math_Pow10
      ("a9059cbb" ++ pad64 destHex ++ pad64 amountHex)
      ownerAddress contractAddress tx blockData (isUSDTContract cfg contractAddress) in
  (n <= maxUint64 ->
   exists ev,
     decoded = Ok (Some ev) /\
     Destination ev = convertHexToBase58 ("41" ++ low20 (pad64 destHex)) /\
     Amount ev =
       (if String.eqb contractAddress (USDT_ContractAddress cfg)
        then f64_div (f64_of_Z n) (math_Pow10 (USDT_Decimals cfg))
        else f64_of_Z n) /\
     (n < 2 ^ 53 ->
      exists q, f64_to_Q (f64_of_Z n) = Some q /\ (q == inject_Z n)%Q)) /\
  (maxUint64 < n -> decoded = Err ErrParseAmount).
Proof.
  intros Hd Ha Hn decoded. subst decoded.
  rewrite <- (append_nil_r (pad64 amountHex)).
  rewrite parseTRC20TransferData_layout
    by (apply length_pad64; lia).
  rewrite <- hex_value_pad64 in Hn.
  split; intros Hr.
  - rewrite (parseHexAmount_value _ _ Hn Hr). cbv zeta.
    eexists. split; [reflexivity |]. cbn [Destination Amount].
    split; [|split; [reflexivity |]].
    + f_equal. f_equal. apply (trim_pad_low20 destHex Hd).
    + intros Hs. apply f64_of_Z_exact. split; [|exact Hs].
      rewrite hex_value_pad64 in Hn.
      apply (hex_value_from_ge amountHex 0 n); [lia | exact Hn].
  - now rewrite (parseHexAmount_range _ _ Hn Hr).
Qed.

(** C6, as amended.  Data shorter than 74 characters or without the
    selector [a9059cbb] gives no event and no error.  Data with the
    selector and 74 to 135 characters, too short for two 32-byte
    arguments, gives no event and the error "amount data too short" to
    the caller of the decoder.  In both cases the loop over the
    transaction's contracts goes on with the next contract, the events
    found so far and the store as they were. *)
Theorem unrecognized_call :
  (forall data ownerAddress contractAddress tx blockData isUSDT,
      len data < 74 \/ HasPrefix data "a9059cbb" = false ->
      parseTRC20TransferData cfg math_Pow10 data ownerAddress contractAddress
        tx blockData isUSDT = Ok None) /\
  (forall data ownerAddress contractAddress tx blockData isUSDT,
      HasPrefix data "a9059cbb" = true -> 74 <= len data < 136 ->
      parseTRC20TransferData cfg math_Pow10 data ownerAddress contractAddress
        tx blockData isUSDT = Err ErrAmountDataShort) /\
  (forall contract rest tx blockData ws acc r,
      Type_ contract = "TriggerSmartContract" ->
      (len (as_string (value_field contract "data")) < 136 \/
       HasPrefix (as_string (value_field contract "data")) "a9059cbb" = false) ->
      extract_contracts cfg math_Pow10 now (contract :: rest) tx blockData ws acc r =
      extract_contracts cfg math_Pow10 now rest tx blockData ws acc r).
Proof.
  split; [|split].
  - intros. now apply parseTRC20TransferData_short.
  - intros. now apply parseTRC20TransferData_truncated.
  - intros contract rest tx blockData ws acc r Ht Hdata.
    cbn [extract_contracts]. rewrite Type_TriggerSmartContract by exact Ht.
    unfold extractTRC20Transfer. unfold value_field in Hdata. cbv zeta.
    destruct (as_map (Parameter_ contract)) as [paramData|]; [|reflexivity].
    destruct (as_map (map_index paramData "value")) as [valueData|]; [|reflexivity].
    destruct (_ && negb (USDT_EnableMonitoring cfg)); [reflexivity |].
    set (data := as_string (map_index valueData "data")) in *.
    destruct (HasPrefix data "a9059cbb") eqn:Hp.
    + destruct (Z.lt_ge_cases (len data) 74) as [Hs|Hs].
      * rewrite parseTRC20TransferData_short by (left; exact Hs). reflexivity.
      * rewrite parseTRC20TransferData_truncated; [reflexivity | exact Hp |].
        destruct Hdata as [Hl|Hl]; [lia | discriminate Hl].
    + rewrite parseTRC20TransferData_short by (right; exact Hp). reflexivity.
Qed.

(** C10.  Every event the decoder emits for a [TriggerSmartContract] has
    [USDValue] equal to its [Amount]; for a contract other than the
    tracked stablecoin both are [float64(n)], [n] the unscaled integer
    read from the second argument of the call, and that is [n] itself
    below [2 ^ 53]. *)
Theorem usd_value_is_amount (contract : Contract) (tx : Transaction)
    (blockData : BlockData) (ws : gmap string bool) (r r' : Redis) (ev : TransferEvent) :
  Type_ contract = "TriggerSmartContract" ->
  extractTransferFromContract cfg math_Pow10 now contract tx blockData ws r =
    (Ok (Some ev), r') ->
  USDValue ev = Amount ev /\
  (IsUSDT ev = false ->
   exists n,
     hex_value (take 64 (drop 64 (drop 8 (as_string (value_field contract "data")))))
       = Some n /\
     0 <= n <= maxUint64 /\ Amount ev = f64_of_Z n /\ USDValue ev = f64_of_Z n /\
     (n < 2 ^ 53 ->
      exists q, f64_to_Q (USDValue ev) = Some q /\ (q == inject_Z n)%Q)).
Proof.
  intros Ht H. rewrite Type_TriggerSmartContract in H by exact Ht.
  apply extractTRC20Transfer_emits in H. cbv zeta in H.
  apply parseTRC20TransferData_inv in H as (amount & Hp & Hu & Ha & Hv).
  split; [exact Hv |]. intros Hf.
  apply parseHexAmount_inv in Hp as (n & Hn & Hr & ->).
  exists n. rewrite Hv, Ha, <- Hu, Hf.
  repeat split; try tauto. intros Hs. apply f64_of_Z_exact. lia.
Qed.

End TransferCallTheorems.

Lemma transfer_call_decoded_witness :
  exists ev,
    parseTRC20TransferData default_config Pow10
      ("a9059cbb" ++ pad64 "a614f803b6fd780986a42c78ec9c7f77e6ded13c" ++ pad64 "0f4240")
      "TJRabPrwbZy45sbavfcjinPJC18kjpRTv8" "TR7NHqjeKQxGTCi8q8ZY4pL8otSzgjLj6t"
      tx0 block0
      (isUSDTContract default_config "TR7NHqjeKQxGTCi8q8ZY4pL8otSzgjLj6t")
    = Ok (Some ev) /\
    Destination ev =
      convertHexToBase58
        ("41" ++ low20 (pad64 "a614f803b6fd780986a42c78ec9c7f77e6ded13c")) /\
    Amount ev = f64_div (f64_of_Z 1000000) (Pow10 6) /\
    (1000000 < 2 ^ 53 ->
     exists q, f64_to_Q (f64_of_Z 1000000) = Some q /\ (q == inject_Z 1000000)%Q).
Proof.
  apply (transfer_call_decoded default_config Pow10
           "a614f803b6fd780986a42c78ec9c7f77e6ded13c" "0f4240"
           "TJRabPrwbZy45sbavfcjinPJC18kjpRTv8" "TR7NHqjeKQxGTCi8q8ZY4pL8otSzgjLj6t"
           1000000 tx0 block0).
  - simpl; lia.
  - simpl; lia.
  - reflexivity.
  - vm_compute; discriminate.
Defined.

(** The claim of C1 fails on the code: an amount of [2 ^ 64] is no event
    but an error, an amount of [2 ^ 53 + 1] is decoded to [2 ^ 53], and a
    first argument that carries the version byte (21 significant bytes) is
    not cut to its low 20 bytes. *)
Lemma transfer_call_counterexample :
  hex_value "10000000000000000" = Some (2 ^ 64) /\
  parseTRC20TransferData default_config Pow10
    ("a9059cbb" ++ pad64 "a614f803b6fd780986a42c78ec9c7f77e6ded13c"
                ++ pad64 "10000000000000000")
    "" "" tx0 block0 false = Err ErrParseAmount /\
  hex_value "20000000000001" = Some 9007199254740993 /\
  (exists ev,
     parseTRC20TransferData default_config Pow10
       ("a9059cbb" ++ pad64 "a614f803b6fd780986a42c78ec9c7f77e6ded13c"
                   ++ pad64 "20000000000001")
       "" "" tx0 block0 false = Ok (Some ev) /\
     f64_to_Q (Amount ev) = Some (inject_Z 9007199254740992)) /\
  (exists ev,
     parseTRC20TransferData default_config Pow10
       ("a9059cbb" ++ pad64 "41a614f803b6fd780986a42c78ec9c7f77e6ded13c" ++ pad64 "01")
       "" "" tx0 block0 false = Ok (Some ev) /\
     Destination ev = convertHexToBase58 "4141a614f803b6fd780986a42c78ec9c7f77e6ded13c" /\
     Destination ev <>
       convertHexToBase58
         ("41" ++ low20 (pad64 "41a614f803b6fd780986a42c78ec9c7f77e6ded13c"))).
Proof.
  split; [reflexivity |]. split; [vm_compute; reflexivity |].
  split; [reflexivity |]. split.
  - eexists. split; [vm_compute; reflexivity | reflexivity].
  - eexists. split; [vm_compute; reflexivity |].
    split; [vm_compute; reflexivity | vm_compute; discriminate].
Qed.

Lemma unrecognized_call_witness :
  parseTRC20TransferData default_config Pow10 "a9059cbb" "" "" tx0 block0 false = Ok None /\
  parseTRC20TransferData default_config Pow10 ("a9059cbb" ++ Repeat "0" 100)
    "" "" tx0 block0 false = Err ErrAmountDataShort /\
  extract_contracts default_config Pow10 0
    [trigger "" "" ("a9059cbb" ++ Repeat "0" 100)] tx0 block0 ∅ [] empty_store =
  ([], empty_store).
Proof.
  destruct (unrecognized_call default_config Pow10 0) as (H1 & H2 & H3).
  split; [apply (H1 "a9059cbb"); left; vm_compute; reflexivity |].
  split.
  - apply (H2 ("a9059cbb" ++ Repeat "0" 100));
      [vm_compute; reflexivity | vm_compute; split; [discriminate | reflexivity]].
  - rewrite H3; [reflexivity | reflexivity | left; vm_compute; reflexivity].
Defined.

(** The claim of C6 fails on the code: data with the selector and 74
    characters is too short for two arguments, and the decoder hands an
    error to its caller. *)
Lemma unrecognized_call_counterexample :
  len ("a9059cbb" ++ Repeat "0" 66) = 74 /\
  parseTRC20TransferData default_config Pow10 ("a9059cbb" ++ Repeat "0" 66)
    "" "" tx0 block0 false = Err ErrAmountDataShort /\
  extractTransferFromContract default_config Pow10 0
    (trigger "" "" ("a9059cbb" ++ Repeat "0" 66)) tx0 block0 ∅ empty_store =
  (Err ErrAmountDataShort, empty_store).
Proof. repeat split; vm_compute; reflexivity. Qed.

Lemma usd_value_is_amount_witness :
  exists ev r',
    extractTransferFromContract default_config Pow10 0 token_call tx0 block0
      watch_sender empty_store = (Ok (Some ev), r') /\
    USDValue ev = Amount ev /\ Amount ev = f64_of_Z 1000000.
Proof.
  destruct (extractTransferFromContract default_config Pow10 0 token_call tx0 block0
              watch_sender empty_store)
    as [[[ev|]|e] r'] eqn:E;
    [| vm_compute in E; discriminate E | vm_compute in E; discriminate E].
  exists ev, r'. split; [reflexivity |].
  destruct (usd_value_is_amount default_config Pow10 0 token_call _ _ _ _ _ _
              (eq_refl : Type_ token_call = "TriggerSmartContract") E)
    as [Hu Hn].
  split; [exact Hu |].
  assert (Hf : IsUSDT ev = false) by (vm_compute in E; inversion E; reflexivity).
  destruct (Hn Hf) as (n & Hv & _ & Ha & _ & _).
  vm_compute in Hv. inversion Hv; subst n. exact Ha.
Defined.

(** ** The address codec: fixed points *)

(** C7, as amended.  An address in display form is returned unchanged; a
    21-byte hexadecimal address with the version byte 0x41 is encoded to
    display form, so the codec applied once more returns it unchanged; the
    empty input is returned unchanged; an input that fails hexadecimal
    decoding once a leading ["0x"] is removed is returned as that remainder:
    unchanged without the prefix, without its ["0x"] otherwise. *)
Theorem address_codec_fixed_points :
  (forall s, display_shape s -> convertHexToBase58 s = s) /\
  (forall h body,
      hex_DecodeString h = Some (65 :: body) -> List.length body = 20%nat ->
      display_shape (convertHexToBase58 h) /\
      convertHexToBase58 (convertHexToBase58 h) = convertHexToBase58 h) /\
  convertHexToBase58 "" = "" /\
  (forall s, hex_DecodeString (TrimPrefix s "0x") = None ->
      convertHexToBase58 s = TrimPrefix s "0x").
Proof.
  split; [|split; [|split]].
  - intros s [_ H]. now apply convertHexToBase58_T.
  - intros h body H Hl.
    destruct (convertHexToBase58_address h body H Hl) as (tail & -> & Ht).
    split; [split |].
    + simpl. now rewrite Ht.
    + reflexivity.
    + apply convertHexToBase58_T. reflexivity.
  - reflexivity.
  - apply convertHexToBase58_undecodable.
Qed.

Lemma address_codec_fixed_points_witness :
  convertHexToBase58 "TR7NHqjeKQxGTCi8q8ZY4pL8otSzgjLj6t" =
    "TR7NHqjeKQxGTCi8q8ZY4pL8otSzgjLj6t" /\
  convertHexToBase58 (convertHexToBase58 "41a614f803b6fd780986a42c78ec9c7f77e6ded13c") =
    convertHexToBase58 "41a614f803b6fd780986a42c78ec9c7f77e6ded13c" /\
  convertHexToBase58 "not-hex" = TrimPrefix "not-hex" "0x".
Proof.
  destruct address_codec_fixed_points as (H1 & H2 & _ & H4).
  split; [apply H1; split; reflexivity |].
  split; [| apply H4; reflexivity].
  apply (H2 "41a614f803b6fd780986a42c78ec9c7f77e6ded13c"
            [166; 20; 248; 3; 182; 253; 120; 9; 134; 164; 44; 120; 236; 156; 127;
             119; 230; 222; 209; 60]); reflexivity.
Defined.

(** The claim of C7 fails on the code: ["0xzz"] fails hexadecimal decoding
    and is returned as ["zz"]; the output for ["0x0xzz"] is changed again by
    a second application. *)
Lemma address_codec_counterexample :
  hex_DecodeString "0xzz" = None /\
  convertHexToBase58 "0xzz" = "zz" /\
  convertHexToBase58 "0xzz" <> "0xzz" /\
  convertHexToBase58 "0x0xzz" = "0xzz" /\
  convertHexToBase58 (convertHexToBase58 "0x0xzz") <> convertHexToBase58 "0x0xzz".
Proof. repeat split; try reflexivity; vm_compute; discriminate. Qed.

(** ** The three extractors *)

Section Extractors.

Variable cfg : Config.
Variable math_Pow10 : Z -> float64.
Variable now : Z.

Lemma Type_TransferContract (contract : Contract) (tx : Transaction)
    (blockData : BlockData) (ws : gmap string bool) (r : Redis) :
  Type_ contract = "TransferContract" ->
  extractTransferFromContract cfg math_Pow10 now contract tx blockData ws r =
  extractTRXTransfer now contract tx blockData ws r.
Proof. intros H. unfold extractTransferFromContract. now rewrite H. Qed.

Lemma Type_TransferAssetContract (contract : Contract) (tx : Transaction)
    (blockData : BlockData) (ws : gmap string bool) (r : Redis) :
  Type_ contract = "TransferAssetContract" ->
  extractTransferFromContract cfg math_Pow10 now contract tx blockData ws r =
  extractTRC10Transfer now contract tx blockData ws r.
Proof. intros H. unfold extractTransferFromContract. now rewrite H. Qed.

Lemma value_field_has_value (contract : Contract) :
  has_value contract ->
  exists paramData valueData,
    as_map (Parameter_ contract) = Some paramData /\
    as_map (map_index paramData "value") = Some valueData /\
    forall key, value_field contract key = map_index valueData key.
Proof.
  intros (p & v & Hp & Hv). exists p, v. unfold value_field.
  rewrite Hp. cbn [as_map]. rewrite Hv. auto.
Qed.

(** A native transfer with its two objects always gives an event. *)
Lemma extractTRXTransfer_emits (contract : Contract) (tx : Transaction)
    (blockData : BlockData) (ws : gmap string bool) (r : Redis) :
  has_value contract ->
  let fromAddr :=
    convertHexToBase58 (as_string (value_field contract "owner_address")) in
  let toAddr := convertHexToBase58 (as_string (value_field contract "to_address")) in
  exists ev,
    extractTRXTransfer now contract tx blockData ws r =
      (Ok (Some ev), touch now ws r fromAddr toAddr blockData) /\
    Source ev = fromAddr /\ Destination ev = toAddr /\
    Amount ev =
      f64_div (as_float64 (value_field contract "amount")) (f64_of_Z 1000000) /\
    TxHash ev = TxID tx /\ TokenType ev = "TRX" /\ IsUSDT ev = false /\
    Fee ev = f64_zero /\ USDValue ev = f64_zero.
Proof.
  intros H. destruct (value_field_has_value _ H) as (p & v & Hp & Hv & Hf).
  cbv zeta. unfold extractTRXTransfer. rewrite Hp, Hv, !Hf.
  eexists. split; [reflexivity |]. cbn. auto 10.
Qed.

(** Without the parameter object or its [value] object every extractor
    fails and leaves the store alone. *)
Lemma extract_without_value (contract : Contract) (tx : Transaction)
    (blockData : BlockData) (ws : gmap string bool) (r : Redis) :
  Type_ contract = "TransferContract" \/ Type_ contract = "TransferAssetContract" \/
  Type_ contract = "TriggerSmartContract" ->
  ~ has_value contract ->
  exists e,
    extractTransferFromContract cfg math_Pow10 now contract tx blockData ws r = (Err e, r).
Proof.
  intros Ht Hn.
  assert (Hv : as_map (Parameter_ contract) = None \/
               exists p, as_map (Parameter_ contract) = Some p /\
                         as_map (map_index p "value") = None).
  { destruct (Parameter_ contract) as [| | | | |p] eqn:Hp; cbn; auto.
    right. exists p. split; [reflexivity |].
    destruct (map_index p "value") as [| | | | |v] eqn:Hv; cbn; auto.
    exfalso. apply Hn. exists p, v. auto. }
  destruct Ht as [Ht|[Ht|Ht]];
    [rewrite Type_TransferContract by exact Ht; unfold extractTRXTransfer
    |rewrite Type_TransferAssetContract by exact Ht; unfold extractTRC10Transfer
    |rewrite Type_TriggerSmartContract by exact Ht; unfold extractTRC20Transfer];
    (destruct Hv as [Hv|(p & Hp & Hv)];
     [rewrite Hv | rewrite Hp, Hv]; eexists; reflexivity).
Qed.

(** An extractor that returns no event has left the store alone. *)
Lemma no_event_no_effect (contract : Contract) (tx : Transaction)
    (blockData : BlockData) (ws : gmap string bool) (r r' : Redis)
    (o : res (option TransferEvent)) :
  extractTransferFromContract cfg math_Pow10 now contract tx blockData ws r = (o, r') ->
  (forall ev, o <> Ok (Some ev)) -> r' = r.
Proof.
  unfold extractTransferFromContract, extractTRXTransfer, extractTRC10Transfer,
    extractTRC20Transfer. cbv zeta. intros H Ho.
  repeat match type of H with
         | context [if ?b then _ else _] => destruct b
         | context [match ?x with _ => _ end] => destruct x
         end;
    inversion H; subst; try reflexivity; exfalso; eapply Ho; reflexivity.
Qed.

End Extractors.

(** ** Blocks with one transaction of one contract *)

Section Blocks.

Variable cfg : Config.
Variable math_Pow10 : Z -> float64.
Variable now : Z.

Lemma LTrim0_cons {A : Type} (stop : Z) (x : A) (l : list A) :
  0 <= stop -> LTrim0 stop (x :: l) = x :: List.firstn (Z.to_nat stop) l.
Proof.
  intros H. unfold LTrim0. destruct (Z.leb_spec 0 stop); [|lia].
  rewrite Z2Nat.inj_add by lia. rewrite Nat.add_comm. reflexivity.
Qed.

Lemma SaveTransferEvent_stores (r : Redis) (event : TransferEvent) :
  marshal_ok event = true ->
  exists r',
    SaveTransferEvent r event = (Ok tt, r') /\
    transfer r' = <[TxHash event := event]> (transfer r) /\
    transfers r' = LTrim0 9999 (event :: transfers r) /\
    usdt_transfers r' =
      (if IsUSDT event then LTrim0 9999 (event :: usdt_transfers r)
       else usdt_transfers r) /\
    address_info r' = address_info r /\ watch_addresses r' = watch_addresses r /\
    block_queue r' = block_queue r.
Proof.
  intros H. unfold SaveTransferEvent. rewrite H. cbn [negb].
  destruct (IsUSDT event); eexists; (split; [reflexivity |]); cbn; auto 10.
Qed.

Lemma watched_fold (l : list string) (m : gmap string bool) (a : string) :
  watched
    (List.fold_left (fun (m : gmap string bool) addr => <[addr := true]> m) l m) a = true
  <-> a ∈ l \/ watched m a = true.
Proof.
  revert m. induction l as [|x l IH]; intros m; cbn [List.fold_left].
  - split; [auto | intros [H|H]; [inversion H | exact H]].
  - rewrite IH. unfold watched. rewrite lookup_insert.
    destruct (decide (x = a)) as [->|Hne]; cbn.
    + split; [left; left | auto].
    + split; intros [H|H]; auto.
      * left. now right.
      * inversion H; subst; [contradiction | auto].
Qed.

(** The set built from [GetWatchAddresses] holds the watch addresses of
    the store and nothing else. *)
Lemma watched_watch_set (r : Redis) (a : string) :
  watched (watch_set r) a = true <-> a ∈ watch_addresses r.
Proof.
  unfold watch_set, GetWatchAddresses. rewrite watched_fold, elem_of_elements.
  unfold watched. rewrite lookup_empty. cbn. split; [intros [H|H] | auto].
  - exact H.
  - discriminate H.
Qed.

Lemma processBlock_single (blockData : BlockData) (tx : Transaction)
    (contract : Contract) (found : Z) (r : Redis) :
  single_contract blockData tx contract ->
  processBlock cfg math_Pow10 now blockData found r =
  match extractTransferFromContract cfg math_Pow10 now contract tx blockData
          (watch_set r) r with
  | (Ok (Some ev), r1) => (Ok tt, save_transfers [ev] found r1)
  | (_, r1) => (Ok tt, (found, r1))
  end.
Proof.
  intros [Hb Ht]. unfold processBlock. rewrite Hb. cbn [Trans collect_transfers].
  unfold extractTransfers. rewrite Ht. cbn [Contracts extract_contracts].
  fold (watch_set r).
  destruct (extractTransferFromContract _ _ _ _ _ _ _ _) as [[[ev|]|e] r1];
    reflexivity.
Qed.

(** C3, as amended.  A [TransferContract] whose amount is the integer
    [A] (the [float64] a JSON decoder reads it as) gives a [TRX] event
    whose amount is the binary64 quotient of [float64(A)] by [1e6]: not in
    general the rational [A / 1_000_000], but, for [0 <= A < 2 ^ 53], a
    finite [float64] within [2 ^ -53] of it, relatively. *)
Theorem native_amount (contract : Contract) (tx : Transaction)
    (blockData : BlockData) (ws : gmap string bool) (r : Redis) (A : Z) :
  Type_ contract = "TransferContract" -> has_value contract ->
  value_field contract "amount" = JNumber (f64_of_Z A) ->
  exists ev r',
    extractTransferFromContract cfg math_Pow10 now contract tx blockData ws r =
      (Ok (Some ev), r') /\
    Amount ev = f64_div (f64_of_Z A) (f64_of_Z 1000000) /\
    TokenType ev = "TRX" /\
    (0 <= A < 2 ^ 53 ->
     exists q,
       f64_to_Q (Amount ev) = Some q /\
       (Qabs (q - (A # 1000000)) * inject_Z (2 ^ 53) <= A # 1000000)%Q).
Proof.
  intros Ht Hv Ha. rewrite Type_TransferContract by exact Ht.
  destruct (extractTRXTransfer_emits now contract tx blockData ws r Hv)
    as (ev & He & _ & _ & Hamt & _ & Htok & _).
  exists ev. eexists. split; [exact He |]. rewrite Hamt, Ha.
  split; [reflexivity |]. split; [exact Htok |]. apply f64_div_1e6_Q.
Qed.

(** C4.  A [TransferAssetContract] or a [TriggerSmartContract] transfer
    whose source and destination are both outside the watch set gives no
    event and leaves the store, address statistics included, as it was;
    a block whose contract gives no event stores nothing.  A
    [TransferContract] gives an event whatever the watch set is, and the
    block stores it under its transaction hash and at the head of the
    list of transfers. *)
Theorem watch_filter :
  (forall contract tx blockData ws r,
      Type_ contract = "TransferAssetContract" -> has_value contract ->
      watched ws (convertHexToBase58 (as_string (value_field contract "owner_address")))
        = false ->
      watched ws (convertHexToBase58 (as_string (value_field contract "to_address")))
        = false ->
      extractTransferFromContract cfg math_Pow10 now contract tx blockData ws r =
        (Ok None, r)) /\
  (forall contract tx blockData ws r transfer,
      Type_ contract = "TriggerSmartContract" -> has_value contract ->
      parseTRC20TransferData cfg math_Pow10
        (as_string (value_field contract "data"))
        (convertHexToBase58 (as_string (value_field contract "owner_address")))
        (convertHexToBase58 (as_string (value_field contract "contract_address")))
        tx blockData
        (isUSDTContract cfg
           (convertHexToBase58 (as_string (value_field contract "contract_address"))))
        = Ok (Some transfer) ->
      watched ws (Source transfer) = false ->
      watched ws (Destination transfer) = false ->
      extractTransferFromContract cfg math_Pow10 now contract tx blockData ws r =
        (Ok None, r)) /\
  (forall blockData tx contract found r,
      single_contract blockData tx contract ->
      extractTransferFromContract cfg math_Pow10 now contract tx blockData
        (watch_set r) r = (Ok None, r) ->
      processBlock cfg math_Pow10 now blockData found r = (Ok tt, (found, r))) /\
  (forall blockData tx contract found r,
      single_contract blockData tx contract ->
      Type_ contract = "TransferContract" -> has_value contract ->
      exists ev r1,
        extractTransferFromContract cfg math_Pow10 now contract tx blockData
          (watch_set r) r = (Ok (Some ev), r1) /\
        (marshal_ok ev = true ->
         exists r2,
           processBlock cfg math_Pow10 now blockData found r =
             (Ok tt, (wrap64 (found + 1), r2)) /\
           GetTransferEvent r2 (TxID tx) = Some ev /\
           List.hd_error (transfers r2) = Some ev)).
Proof.
  split; [|split; [|split]].
  - intros contract tx blockData ws r Ht Hv Hs Hd.
    rewrite Type_TransferAssetContract by exact Ht.
    destruct (value_field_has_value _ Hv) as (p & v & Hp & Hpv & Hf).
    unfold extractTRC10Transfer. rewrite Hp, Hpv. cbv zeta.
    rewrite !Hf in Hs, Hd. now rewrite Hs, Hd.
  - intros contract tx blockData ws r transfer Ht Hv Hparse Hs Hd.
    rewrite Type_TriggerSmartContract by exact Ht.
    destruct (value_field_has_value _ Hv) as (p & v & Hp & Hpv & Hf).
    unfold extractTRC20Transfer. rewrite Hp, Hpv. cbv zeta.
    destruct (_ && negb (USDT_EnableMonitoring cfg)); [reflexivity |].
    rewrite !Hf in Hparse. rewrite Hparse. now rewrite Hs, Hd.
  - intros blockData tx contract found r Hsingle He.
    rewrite (processBlock_single _ _ _ _ _ Hsingle), He. reflexivity.
  - intros blockData tx contract found r Hsingle Ht Hv.
    rewrite (processBlock_single _ _ _ _ _ Hsingle).
    rewrite Type_TransferContract by exact Ht.
    destruct (extractTRXTransfer_emits now contract tx blockData (watch_set r) r Hv)
      as (ev & He & _ & _ & _ & Hh & _).
    rewrite He. exists ev. eexists. split; [reflexivity |].
    intros Hm. cbn [save_transfers].
    destruct (SaveTransferEvent_stores
                (touch now (watch_set r) r
                   (convertHexToBase58 (as_string (value_field contract "owner_address")))
                   (convertHexToBase58 (as_string (value_field contract "to_address")))
                   blockData) ev Hm)
      as (r2 & Hsave & Hkey & Hlist & _).
    rewrite Hsave. exists r2. split; [reflexivity |].
    unfold GetTransferEvent. rewrite Hkey, <- Hh, Hlist.
    split; [apply lookup_insert_eq |].
    rewrite LTrim0_cons by lia. reflexivity.
Qed.

(** C5, as amended.  A contract of one of the three kinds whose
    parameter is no object, or has no object under [value], is a decoding
    failure: an error, no event, the store untouched.  A failing contract
    never fails its transaction or its block: the loop over the contracts
    goes on, [extractTransfers] returns no error, and [processBlock]
    succeeds on every block that has a transaction list.  A member of
    [value] that is missing or of the wrong type is no failure: it reads
    as the empty string or zero, and a [TransferContract] still gives its
    event. *)
Theorem malformed_parameters :
  (forall contract tx blockData ws r,
      Type_ contract = "TransferContract" \/
      Type_ contract = "TransferAssetContract" \/
      Type_ contract = "TriggerSmartContract" ->
      ~ has_value contract ->
      exists e,
        extractTransferFromContract cfg math_Pow10 now contract tx blockData ws r =
          (Err e, r)) /\
  (forall contract rest tx blockData ws acc r e r',
      extractTransferFromContract cfg math_Pow10 now contract tx blockData ws r =
        (Err e, r') ->
      extract_contracts cfg math_Pow10 now (contract :: rest) tx blockData ws acc r =
      extract_contracts cfg math_Pow10 now rest tx blockData ws acc r) /\
  (forall tx blockData r,
      exists evs r', extractTransfers cfg math_Pow10 now tx blockData r = (Ok evs, r')) /\
  (forall blockData block txs found r,
      Block_ blockData = Some block -> Trans block = Some txs ->
      fst (processBlock cfg math_Pow10 now blockData found r) = Ok tt) /\
  (forall contract tx blockData ws r,
      Type_ contract = "TransferContract" -> has_value contract ->
      exists ev r',
        extractTransferFromContract cfg math_Pow10 now contract tx blockData ws r =
          (Ok (Some ev), r') /\
        Source ev =
          convertHexToBase58 (as_string (value_field contract "owner_address")) /\
        Destination ev =
          convertHexToBase58 (as_string (value_field contract "to_address")) /\
        Amount ev =
          f64_div (as_float64 (value_field contract "amount")) (f64_of_Z 1000000)).
Proof.
  split; [|split; [|split; [|split]]].
  - intros. now apply extract_without_value.
  - intros contract rest tx blockData ws acc r e r' H.
    cbn [extract_contracts]. rewrite H.
    assert (r' = r) as ->; [|reflexivity].
    eapply no_event_no_effect; [exact H | discriminate].
  - intros tx blockData r. unfold extractTransfers.
    destruct (RawData tx) as [raw|]; [|eauto].
    destruct (Contracts raw) as [|c l]; [eauto |].
    destruct (extract_contracts _ _ _ _ _ _ _ _ _) as [found r']. eauto.
  - intros blockData block txs found r Hb Ht. unfold processBlock.
    rewrite Hb, Ht. destruct (collect_transfers _ _ _ _ _ _ _). reflexivity.
  - intros contract tx blockData ws r Ht Hv.
    rewrite Type_TransferContract by exact Ht.
    destruct (extractTRXTransfer_emits now contract tx blockData ws r Hv)
      as (ev & He & Hs & Hd & Ha & _).
    exists ev. eexists. split; [exact He |]. auto.
Qed.

End Blocks.

Lemma has_value_native (valueData : list (string * JSON)) : has_value (native valueData).
Proof. do 2 eexists. split; reflexivity. Qed.

Lemma native_amount_witness :
  exists ev r' q,
    extractTransferFromContract default_config Pow10 0 (native_call 5000000)
      tx0 block0 ∅ empty_store = (Ok (Some ev), r') /\
    Amount ev = f64_div (f64_of_Z 5000000) (f64_of_Z 1000000) /\
    TokenType ev = "TRX" /\
    f64_to_Q (Amount ev) = Some q /\
    (Qabs (q - (5000000 # 1000000)) * inject_Z (2 ^ 53) <= 5000000 # 1000000)%Q.
Proof.
  destruct (native_amount default_config Pow10 0 (native_call 5000000) tx0 block0 ∅
              empty_store 5000000 eq_refl (has_value_native _) eq_refl)
    as (ev & r' & He & Ha & Ht & Hq).
  destruct Hq as (q & Hq & Hb); [split; [discriminate | reflexivity] |].
  exists ev, r', q. repeat split; assumption.
Defined.

(** Five million sun are exactly five TRX. *)
Example five_trx :
  exists q,
    f64_to_Q (f64_div (f64_of_Z 5000000) (f64_of_Z 1000000)) = Some q /\ (q == 5 # 1)%Q.
Proof. eexists. split; [reflexivity |]. vm_compute. reflexivity. Qed.

(** The claim of C3 fails on the code: for [A = 1] the amount is the
    [float64] [4722366482869645 * 2 ^ -72], which is not [1 / 1_000_000]. *)
Lemma native_amount_counterexample :
  Amount <$> event_of (extractTransferFromContract default_config Pow10 0 (native_call 1)
                         tx0 block0 ∅ empty_store)
    = Some (S754_finite false 4722366482869645 (-72)) /\
  f64_to_Q (S754_finite false 4722366482869645 (-72))
    = Some (4722366482869645 # 4722366482869645213696)%Q /\
  ~ (4722366482869645 # 4722366482869645213696 == 1 # 1000000)%Q.
Proof.
  split; [vm_compute; reflexivity |]. split; [reflexivity |].
  intros H. vm_compute in H. discriminate H.
Qed.

Lemma watch_filter_witness :
  extractTransferFromContract default_config Pow10 0 asset_call tx0 block0 ∅ empty_store =
    (Ok None, empty_store) /\
  (exists ev r2,
     processBlock default_config Pow10 0 (block_of (tx_of (native_call 5000000)))
       0 empty_store = (Ok tt, (1, r2)) /\
     GetTransferEvent r2 "5f2a6c2d" = Some ev /\
     List.hd_error (transfers r2) = Some ev /\ TokenType ev = "TRX").
Proof.
  destruct (watch_filter default_config Pow10 0) as (H1 & _ & _ & H4).
  split.
  - apply H1; [reflexivity | do 2 eexists; split; reflexivity | reflexivity | reflexivity].
  - destruct (H4 (block_of (tx_of (native_call 5000000))) (tx_of (native_call 5000000))
                (native_call 5000000) 0 empty_store)
      as (ev & r1 & He & Hs);
      [split; reflexivity | reflexivity | apply has_value_native |].
    vm_compute in He. inversion He; subst ev r1; clear He.
    destruct (Hs eq_refl) as (r2 & Hp & Hg & Hh).
    eexists. exists r2. split; [exact Hp |]. split; [exact Hg |].
    split; [exact Hh | reflexivity].
Defined.

Lemma malformed_parameters_witness :
  (exists e,
     extractTransferFromContract default_config Pow10 0
       {| Type_ := "TransferContract"; Parameter_ := JString "0a15" |}
       tx0 block0 ∅ empty_store = (Err e, empty_store)) /\
  (exists ev r',
     extractTransferFromContract default_config Pow10 0
       (native [("owner_address", JNumber (f64_of_Z 7))]) tx0 block0 ∅ empty_store =
       (Ok (Some ev), r') /\
     Source ev =
       convertHexToBase58
         (as_string (value_field (native [("owner_address", JNumber (f64_of_Z 7))])
                       "owner_address")) /\
     Destination ev =
       convertHexToBase58
         (as_string (value_field (native [("owner_address", JNumber (f64_of_Z 7))])
                       "to_address")) /\
     Amount ev =
       f64_div
         (as_float64 (value_field (native [("owner_address", JNumber (f64_of_Z 7))])
                        "amount"))
         (f64_of_Z 1000000)).
Proof.
  destruct (malformed_parameters default_config Pow10 0) as (H1 & _ & _ & _ & H5).
  split.
  - apply H1; [left; reflexivity |]. intros (p & v & Hp & _). discriminate Hp.
  - apply H5; [reflexivity | apply has_value_native].
Defined.

(** The claim of C5 fails on the code: a [TransferContract] whose [value]
    has no [owner_address], no [to_address] and no [amount] is decoded to an
    event with empty addresses and a zero amount. *)
Lemma malformed_parameters_counterexample :
  event_of (extractTransferFromContract default_config Pow10 0 (native [])
              tx0 block0 ∅ empty_store)
  = Some {| Source := ""; Destination := ""; Amount := S754_zero false;
            Fee := S754_zero false; TxHash := TxID tx0;
            BlockHeight := Height block0; EventTimestamp := Timestamp block0;
            Confirmations := 0; TokenType := "TRX"; ContractAddress := "";
            AssetName := ""; IsUSDT := false; USDValue := S754_zero false |}.
Proof. vm_compute. reflexivity. Qed.

(** ** Saving an event twice *)

Section Store.

Lemma firstn_cons_firstn {A : Type} (x : A) (l : list A) (k : Z) :
  0 < k ->
  List.firstn (Z.to_nat k) (x :: List.firstn (Z.to_nat k) l) =
  x :: List.firstn (Z.to_nat (k - 1)) l.
Proof.
  intros H. replace (Z.to_nat k) with (S (Z.to_nat (k - 1))) at 1 by lia.
  cbn [List.firstn]. f_equal. rewrite List.firstn_firstn. f_equal. lia.
Qed.

(** C8, as amended.  Saving the same event twice leaves one record under
    its key ["transfer:<txHash>"]: the second write puts the same value
    where the first one put it.  The list of recent transfers, and the
    list of stablecoin transfers for a tracked event, receive a copy at
    each write: after the second write the event is there twice. *)
Theorem save_twice (r : Redis) (event : TransferEvent) :
  marshal_ok event = true ->
  exists r1 r2,
    SaveTransferEvent r event = (Ok tt, r1) /\
    SaveTransferEvent r1 event = (Ok tt, r2) /\
    transfer r2 = transfer r1 /\
    GetTransferEvent r2 (TxHash event) = Some event /\
    transfers r1 = event :: List.firstn (Z.to_nat 9999) (transfers r) /\
    transfers r2 = event :: event :: List.firstn (Z.to_nat 9998) (transfers r) /\
    (IsUSDT event = true ->
     usdt_transfers r2 =
       event :: event :: List.firstn (Z.to_nat 9998) (usdt_transfers r)).
Proof.
  intros Hm.
  destruct (SaveTransferEvent_stores r event Hm)
    as (r1 & H1 & K1 & L1 & U1 & _).
  destruct (SaveTransferEvent_stores r1 event Hm)
    as (r2 & H2 & K2 & L2 & U2 & _).
  exists r1, r2. split; [exact H1 |]. split; [exact H2 |].
  rewrite LTrim0_cons in L1 by lia.
  split; [rewrite K2, K1; apply insert_insert_eq |].
  split; [unfold GetTransferEvent; rewrite K2; apply lookup_insert_eq |].
  split; [exact L1 |].
  split.
  - rewrite L2, L1, LTrim0_cons by lia. f_equal.
    apply (firstn_cons_firstn event (transfers r) 9999). lia.
  - intros Hu. rewrite Hu in U1, U2.
    rewrite U2, U1, !LTrim0_cons by lia. f_equal.
    apply (firstn_cons_firstn event (usdt_transfers r) 9999). lia.
Qed.

(** The key is the transaction hash alone: of two events of one
    transaction the later one replaces the earlier one under the key. *)
Lemma same_hash_overwrites (r : Redis) (first second : TransferEvent) :
  marshal_ok first = true -> marshal_ok second = true ->
  TxHash first = TxHash second ->
  GetTransferEvent
    (snd (SaveTransferEvent (snd (SaveTransferEvent r first)) second))
    (TxHash first) = Some second.
Proof.
  intros H1 H2 Hh.
  destruct (SaveTransferEvent_stores r first H1) as (r1 & E1 & _).
  destruct (SaveTransferEvent_stores r1 second H2) as (r2 & E2 & K2 & _).
  rewrite E1. cbn [snd]. rewrite E2. cbn [snd].
  unfold GetTransferEvent. rewrite K2, Hh. apply lookup_insert_eq.
Qed.

End Store.

Lemma save_twice_witness :
  exists r1 r2,
    SaveTransferEvent empty_store sample_event = (Ok tt, r1) /\
    SaveTransferEvent r1 sample_event = (Ok tt, r2) /\
    transfer r2 = transfer r1 /\
    GetTransferEvent r2 "5f2a6c2d" = Some sample_event /\
    transfers r2 = [sample_event; sample_event].
Proof.
  destruct (save_twice empty_store sample_event eq_refl)
    as (r1 & r2 & H1 & H2 & K & G & _ & L & _).
  exists r1, r2. auto.
Defined.

(** The claim of C8 fails on the code: after the same event was saved
    twice the list of recent transfers holds it twice, and
    [GetRecentTransfers] returns both. *)
Lemma save_twice_counterexample :
  transfers (snd (SaveTransferEvent (snd (SaveTransferEvent empty_store sample_event))
                    sample_event))
    = [sample_event; sample_event] /\
  GetRecentTransfers
    (snd (SaveTransferEvent (snd (SaveTransferEvent empty_store sample_event))
            sample_event)) 10
    = [sample_event; sample_event].
Proof. split; vm_compute; reflexivity. Qed.

(** ** Starting and stopping the pool *)

(** C9, as amended.  [start] on a running worker and [stop] on a stopped
    worker do nothing.  [Start] on a running pool and [Stop] on a stopped
    pool leave the pool as it is and return an error. *)
Theorem start_stop_in_target_state :
  (forall w, w_running w = true -> Worker.start w = w) /\
  (forall w, w_running w = false -> Worker.stop w = w) /\
  (forall bp, running bp = true -> Pool.Start bp = (Err ErrAlreadyRunning, bp)) /\
  (forall bp, running bp = false -> Pool.Stop bp = (Err ErrNotRunning, bp)).
Proof.
  repeat split; intros x H.
  - unfold Worker.start. now rewrite H.
  - unfold Worker.stop. now rewrite H.
  - unfold Pool.Start. now rewrite H.
  - unfold Pool.Stop. now rewrite H.
Qed.

Lemma start_stop_in_target_state_witness :
  List.map Worker.start (workers started_pool) = workers started_pool /\
  Pool.Start started_pool = (Err ErrAlreadyRunning, started_pool) /\
  Pool.Stop (Pool.NewBlockProcessor default_config) =
    (Err ErrNotRunning, Pool.NewBlockProcessor default_config).
Proof.
  destruct start_stop_in_target_state as (H1 & _ & H3 & H4).
  split; [|split; [apply H3; reflexivity | apply H4; reflexivity]].
  change (workers started_pool) with
    (List.map Worker.start (workers (Pool.NewBlockProcessor default_config))).
  rewrite List.map_map. apply List.map_ext_in. intros w Hw.
  apply H1. apply List.in_map_iff in Hw as (i & <- & _). reflexivity.
Defined.

(** The claim of C9 fails on the code: [Start] on a pool that is running
    fails with "already running", and so does [Stop] on one that is not
    running with "not running". *)
Lemma start_stop_counterexample :
  running started_pool = true /\
  fst (Pool.Start started_pool) = Err ErrAlreadyRunning /\
  running (Pool.NewBlockProcessor default_config) = false /\
  fst (Pool.Stop (Pool.NewBlockProcessor default_config)) = Err ErrNotRunning.
Proof. repeat split. Qed.

(** ** The monitor's tick *)

Section MonitorFacts.

Variable cfg : Config.
Variable GetBlockByNumber : Z -> option BlockData.
Variable push_ok : BlockData -> bool.

Local Abbreviation queued := (enqueued GetBlockByNumber push_ok).

Lemma wrap64_id (x : Z) : - 2 ^ 63 <= x < 2 ^ 63 -> wrap64 x = x.
Proof. intros H. unfold wrap64. rewrite Z.mod_small; lia. Qed.

Lemma enqueued_cons (h : Z) (hs : list Z) :
  queued (h :: hs) =
  match GetBlockByNumber h with
  | Some b => if push_ok b then b :: queued hs else queued hs
  | None => queued hs
  end.
Proof. unfold enqueued. cbn. destruct (GetBlockByNumber h); reflexivity. Qed.

Lemma count_block_iter_comm (n : nat) (bm : BlockMonitor) :
  Nat.iter n count_block (count_block bm) = count_block (Nat.iter n count_block bm).
Proof.
  induction n as [|n IH]; [reflexivity |].
  change (count_block (Nat.iter n count_block (count_block bm)) =
          count_block (count_block (Nat.iter n count_block bm))).
  now rewrite IH.
Qed.

(** The loop from [a] over [n] heights, none of them the largest
    [int64]: every height is asked for once, in ascending order. *)
Lemma backfill_range (n : nat) :
  forall (fuel : nat) (a : Z) (bm : BlockMonitor) (r : Redis),
    (n <= fuel)%nat -> - 2 ^ 63 <= a -> a + Z.of_nat n < 2 ^ 63 ->
    backfill cfg GetBlockByNumber push_ok fuel a (a + Z.of_nat n - 1) bm r =
    Some (Nat.iter (List.length (queued (seqZ a (Z.of_nat n)))) count_block bm,
          List.fold_left (PushBlockData cfg) (queued (seqZ a (Z.of_nat n))) r).
Proof.
  induction n as [|n IH]; intros fuel a bm r Hf Ha Hb.
  - replace (a + Z.of_nat 0 - 1) with (a - 1) by lia.
    destruct fuel; cbn [backfill];
      (destruct (Z.leb_spec a (a - 1)); [lia | reflexivity]).
  - destruct fuel as [|fuel]; [lia |]. cbn [backfill].
    destruct (Z.leb_spec a (a + Z.of_nat (S n) - 1)); [|lia].
    rewrite wrap64_id by lia.
    replace (a + Z.of_nat (S n) - 1) with (a + 1 + Z.of_nat n - 1) by lia.
    rewrite (seqZ_cons a (Z.of_nat (S n))) by lia.
    replace (Z.pred (Z.of_nat (S n))) with (Z.of_nat n) by lia.
    replace (Z.succ a) with (a + 1) by lia.
    rewrite enqueued_cons. unfold push.
    destruct (GetBlockByNumber a) as [b|]; [destruct (push_ok b) |];
      rewrite IH by lia; try reflexivity.
    cbn [List.length List.fold_left]. rewrite count_block_iter_comm. reflexivity.
Qed.

(** A tick that finds missed heights: the window is the last ten heights
    up to the head, or all of them when there are fewer. *)
Lemma processLatestBlock_gap (fuel : nat) (blockData : BlockData)
    (bm : BlockMonitor) (r : Redis) :
  let last := lastProcessedBlock bm in
  let head := Height blockData in
  0 <= last -> last + 1 < head -> head < 2 ^ 62 ->
  (Monitor_MaxBlockHeight cfg <= 0 \/ head <= Monitor_MaxBlockHeight cfg) ->
  (Monitor_StartBlockHeight cfg <= 0 \/ Monitor_StartBlockHeight cfg <= head) ->
  (10 <= fuel)%nat ->
  let start := Z.max (last + 1) (head - 9) in
  let pushed := queued (seqZ start (head - start + 1)) in
  processLatestBlock cfg GetBlockByNumber push_ok fuel blockData bm r =
  Some (Ok tt,
        ({| m_running := m_running bm; lastProcessedBlock := head;
            m_processedBlocks :=
              wrap64 (m_processedBlocks
                        (Nat.iter (List.length pushed) count_block bm) + 1);
            m_errors := m_errors bm |},
         List.fold_left (PushBlockData cfg) pushed r)).
Proof.
  intros last head Hl Hg Hh Hmax Hmin Hf start pushed.
  unfold processLatestBlock. fold last head.
  destruct (Z.leb_spec head last); [lia |].
  replace ((0 <? Monitor_MaxBlockHeight cfg) && (Monitor_MaxBlockHeight cfg <? head))
    with false
    by (symmetry; apply andb_false_iff;
        destruct Hmax; [left; apply Z.ltb_ge | right; apply Z.ltb_ge]; lia).
  replace ((0 <? Monitor_StartBlockHeight cfg) && (head <? Monitor_StartBlockHeight cfg))
    with false
    by (symmetry; apply andb_false_iff;
        destruct Hmin; [left; apply Z.ltb_ge | right; apply Z.ltb_ge]; lia).
  cbv zeta. unfold maxGap.
  rewrite (wrap64_id (last + 1)) by lia.
  destruct (Z.ltb_spec (last + 1) head); [|lia].
  rewrite (wrap64_id (head - (last + 1))), (wrap64_id (head - (last + 1) + 1)) by lia.
  rewrite (wrap64_id (head - 10)), (wrap64_id (head - 10 + 1)) by lia.
  assert (Hs : (if 10 <? head - (last + 1) + 1 then head - 10 + 1 else last + 1) = start).
  { unfold start. destruct (Z.ltb_spec 10 (head - (last + 1) + 1)); lia. }
  rewrite Hs.
  assert (Hn : head = start + Z.of_nat (Z.to_nat (head - start + 1)) - 1)
    by (unfold start; lia).
  rewrite Hn at 1.
  rewrite backfill_range by (unfold start; lia).
  rewrite Z2Nat.id by (unfold start; lia).
  fold pushed.
  assert (Hi : forall k bm0,
             m_running (Nat.iter k count_block bm0) = m_running bm0 /\
             m_errors (Nat.iter k count_block bm0) = m_errors bm0).
  { induction k as [|k IHk]; intros bm0; cbn; [auto | apply IHk]. }
  destruct (Hi (List.length pushed) bm) as [-> ->]. reflexivity.
Qed.

(** A head that is not above [lastProcessedBlock] changes nothing. *)
Lemma processLatestBlock_not_new (fuel : nat) (blockData : BlockData)
    (bm : BlockMonitor) (r : Redis) :
  Height blockData <= lastProcessedBlock bm ->
  processLatestBlock cfg GetBlockByNumber push_ok fuel blockData bm r =
  Some (Ok tt, (bm, r)).
Proof.
  intros H. unfold processLatestBlock.
  destruct (Z.leb_spec (Height blockData) (lastProcessedBlock bm)); [reflexivity | lia].
Qed.

(** The head right after [lastProcessedBlock] is pushed as it was
    fetched, without a second request. *)
Lemma processLatestBlock_next (fuel : nat) (blockData : BlockData)
    (bm : BlockMonitor) (r : Redis) :
  Height blockData = lastProcessedBlock bm + 1 -> Height blockData < 2 ^ 63 ->
  - 2 ^ 63 <= lastProcessedBlock bm ->
  (Monitor_MaxBlockHeight cfg <= 0 \/ Height blockData <= Monitor_MaxBlockHeight cfg) ->
  (Monitor_StartBlockHeight cfg <= 0 \/
   Monitor_StartBlockHeight cfg <= Height blockData) ->
  push_ok blockData = true ->
  processLatestBlock cfg GetBlockByNumber push_ok fuel blockData bm r =
  Some (Ok tt,
        ({| m_running := m_running bm; lastProcessedBlock := Height blockData;
            m_processedBlocks := wrap64 (m_processedBlocks bm + 1);
            m_errors := m_errors bm |},
         PushBlockData cfg r blockData)).
Proof.
  intros Hh Hb Hl Hmax Hmin Hp. unfold processLatestBlock.
  destruct (Z.leb_spec (Height blockData) (lastProcessedBlock bm)); [lia |].
  replace ((0 <? Monitor_MaxBlockHeight cfg) &&
           (Monitor_MaxBlockHeight cfg <? Height blockData)) with false
    by (symmetry; apply andb_false_iff;
        destruct Hmax; [left; apply Z.ltb_ge | right; apply Z.ltb_ge]; lia).
  replace ((0 <? Monitor_StartBlockHeight cfg) &&
           (Height blockData <? Monitor_StartBlockHeight cfg)) with false
    by (symmetry; apply andb_false_iff;
        destruct Hmin; [left; apply Z.ltb_ge | right; apply Z.ltb_ge]; lia).
  cbv zeta. rewrite wrap64_id by lia.
  destruct (Z.ltb_spec (lastProcessedBlock bm + 1) (Height blockData)); [lia |].
  unfold push. rewrite Hp. reflexivity.
Qed.

(** C2.  With [lastProcessedBlock = 100] and a head of height 115 that no
    configured ceiling or floor blocks, the tick asks for the heights 106
    to 115 and for no other, pushes the blocks it got in ascending
    order, and sets [lastProcessedBlock] to 115; when every one of the
    ten is delivered and accepted, exactly these ten blocks are pushed.
    The heights 101 to 105 are never asked for. *)
Theorem gap_recovery (fuel : nat) (blockData : BlockData)
    (bm : BlockMonitor) (r : Redis) :
  lastProcessedBlock bm = 100 -> Height blockData = 115 ->
  (Monitor_MaxBlockHeight cfg <= 0 \/ 115 <= Monitor_MaxBlockHeight cfg) ->
  (Monitor_StartBlockHeight cfg <= 0 \/ Monitor_StartBlockHeight cfg <= 115) ->
  (10 <= fuel)%nat ->
  exists bm' r',
    processLatestBlock cfg GetBlockByNumber push_ok fuel blockData bm r =
      Some (Ok tt, (bm', r')) /\
    lastProcessedBlock bm' = 115 /\
    r' = List.fold_left (PushBlockData cfg)
           (queued [106; 107; 108; 109; 110; 111; 112; 113; 114; 115]) r /\
    (forall blocks : Z -> BlockData,
        (forall h, 106 <= h <= 115 ->
                   GetBlockByNumber h = Some (blocks h) /\ push_ok (blocks h) = true) ->
        queued [106; 107; 108; 109; 110; 111; 112; 113; 114; 115] =
        List.map blocks [106; 107; 108; 109; 110; 111; 112; 113; 114; 115]).
Proof.
  intros Hl Hh Hmax Hmin Hf.
  pose proof (processLatestBlock_gap fuel blockData bm r) as H.
  cbv zeta in H. rewrite Hl, Hh in H.
  specialize (H ltac:(lia) ltac:(lia) ltac:(lia) Hmax Hmin Hf).
  change (seqZ (Z.max (100 + 1) (115 - 9)) (115 - Z.max (100 + 1) (115 - 9) + 1))
    with [106; 107; 108; 109; 110; 111; 112; 113; 114; 115] in H.
  do 2 eexists. split; [exact H |]. split; [reflexivity |]. split; [reflexivity |].
  intros blocks Hb. unfold enqueued. cbn [omap list_omap].
  repeat match goal with
         | |- context [GetBlockByNumber ?h] =>
             destruct (Hb h ltac:(lia)) as [-> ?]
         end.
  cbn [List.filter List.map].
  repeat match goal with
         | E : push_ok _ = true |- _ => rewrite E; clear E
         end.
  reflexivity.
Qed.

End MonitorFacts.

Lemma gap_recovery_witness :
  exists bm' r',
    processLatestBlock default_config chain (fun _ => true) 10 (head_at 115)
      (monitor_at 100) empty_store = Some (Ok tt, (bm', r')) /\
    lastProcessedBlock bm' = 115 /\
    List.map Height (block_queue r') = [115; 114; 113; 112; 111; 110; 109; 108; 107; 106].
Proof.
  destruct (gap_recovery default_config chain (fun _ => true) 10 (head_at 115)
              (monitor_at 100) empty_store eq_refl eq_refl)
    as (bm' & r' & H & Hl & Hr & _).
  - left. vm_compute. discriminate.
  - left. vm_compute. discriminate.
  - lia.
  - exists bm', r'. split; [exact H |]. split; [exact Hl |].
    rewrite Hr. vm_compute. reflexivity.
Defined.

Lemma processLatestBlock_gap_witness :
  processLatestBlock default_config chain (fun _ => true) 10 (head_at 8)
    (monitor_at 5) empty_store =
  Some (Ok tt,
        ({| m_running := true; lastProcessedBlock := 8; m_processedBlocks := 4;
            m_errors := 0 |},
         List.fold_left (PushBlockData default_config)
           (enqueued chain (fun _ => true) [6; 7; 8]) empty_store)).
Proof.
  apply (processLatestBlock_gap default_config chain (fun _ => true) 10 (head_at 8)
           (monitor_at 5) empty_store); cbn; try lia; left; lia.
Defined.

Lemma processLatestBlock_not_new_witness :
  processLatestBlock default_config chain (fun _ => true) 10 (head_at 100)
    (monitor_at 100) empty_store = Some (Ok tt, (monitor_at 100, empty_store)).
Proof.
  apply (processLatestBlock_not_new default_config chain (fun _ => true) 10
           (head_at 100) (monitor_at 100) empty_store).
  cbn. lia.
Defined.

Lemma processLatestBlock_next_witness :
  processLatestBlock default_config chain (fun _ => true) 10 (head_at 101)
    (monitor_at 100) empty_store =
  Some (Ok tt,
        ({| m_running := true; lastProcessedBlock := 101; m_processedBlocks := 1;
            m_errors := 0 |},
         PushBlockData default_config empty_store (head_at 101))).
Proof.
  apply (processLatestBlock_next default_config chain (fun _ => true) 10
           (head_at 101) (monitor_at 100) empty_store); cbn; try lia;
    try reflexivity; left; lia.
Defined.

Lemma f64_of_Z_exact_witness :
  exists q, f64_to_Q (f64_of_Z 1000000) = Some q /\ (q == inject_Z 1000000)%Q.
Proof. apply (f64_of_Z_exact 1000000). lia. Defined.

Lemma same_hash_overwrites_witness :
  GetTransferEvent
    (snd (SaveTransferEvent (snd (SaveTransferEvent empty_store sample_event))
            second_event))
    (TxHash sample_event) = Some second_event.
Proof.
  apply (same_hash_overwrites empty_store sample_event second_event); reflexivity.
Defined.

Lemma convertHexToBase58_address_witness :
  exists tail,
    convertHexToBase58 "41eca9bc828a3005b9a3b909f2cc5c2a54794de05f" = String "T" tail /\
    String.length tail = 33%nat.
Proof.
  apply (convertHexToBase58_address "41eca9bc828a3005b9a3b909f2cc5c2a54794de05f"
           [236; 169; 188; 130; 138; 48; 5; 185; 163; 185; 9; 242; 204; 92; 42; 84;
            121; 77; 224; 95]); reflexivity.
Defined.

(** * The rest of the service *)

(** ** The block queue *)

Section Queue.

Variable cfg : Config.

Lemma LTrim0_firstn {A : Type} (size : Z) (l : list A) :
  0 < size -> LTrim0 (size - 1) l = List.firstn (Z.to_nat size) l.
Proof.
  intros H. unfold LTrim0. destruct (Z.leb_spec 0 (size - 1)); [|lia].
  f_equal. lia.
Qed.

Lemma block_queue_pushes (bs : list BlockData) :
  forall r : Redis,
    0 < Monitor_QueueSize cfg ->
    (List.length (block_queue r) <= Z.to_nat (Monitor_QueueSize cfg))%nat ->
    block_queue (List.fold_left (PushBlockData cfg) bs r) =
    List.firstn (Z.to_nat (Monitor_QueueSize cfg)) (List.rev bs ++ block_queue r)%list.
Proof.
  induction bs as [|b bs IH]; intros r Hq Hl; cbn [List.fold_left List.rev].
  - cbn [List.app]. symmetry. apply List.firstn_all2. exact Hl.
  - rewrite IH; [|exact Hq|].
    + cbn [PushBlockData block_queue]. rewrite LTrim0_firstn by exact Hq.
      rewrite <- List.app_assoc. cbn [List.app].
      set (n := Z.to_nat (Monitor_QueueSize cfg)).
      rewrite !List.firstn_app.
      rewrite List.firstn_firstn.
      replace (Nat.min (n - List.length (List.rev bs)) n)
        with (n - List.length (List.rev bs))%nat by lia.
      reflexivity.
    + cbn [PushBlockData block_queue]. rewrite LTrim0_firstn by exact Hq.
      rewrite List.length_firstn. lia.
Qed.

(** Pushing blocks on a queue of size [QueueSize > 0] keeps the newest
    [QueueSize] of them, the most recent first: the queue never grows
    beyond its size, and what is cut is the oldest end. *)
Theorem PushBlockData_keeps_newest (bs : list BlockData) (r : Redis) :
  0 < Monitor_QueueSize cfg ->
  GetQueueSize r <= Monitor_QueueSize cfg ->
  block_queue (List.fold_left (PushBlockData cfg) bs r) =
    List.firstn (Z.to_nat (Monitor_QueueSize cfg)) (List.rev bs ++ block_queue r)%list /\
  GetQueueSize (List.fold_left (PushBlockData cfg) bs r) <= Monitor_QueueSize cfg.
Proof.
  intros Hq Hl. unfold GetQueueSize in *.
  rewrite block_queue_pushes by (try exact Hq; lia).
  split; [reflexivity |]. rewrite List.length_firstn. lia.
Qed.

Lemma PopBlockData_snoc (r : Redis) (q : list BlockData) (b : BlockData) :
  block_queue r = (q ++ [b])%list ->
  exists r', PopBlockData r = (Some b, r') /\ block_queue r' = q /\
             transfer r' = transfer r /\ transfers r' = transfers r /\
             usdt_transfers r' = usdt_transfers r /\
             watch_addresses r' = watch_addresses r /\
             address_info r' = address_info r.
Proof.
  intros H. unfold PopBlockData. rewrite H, last_snoc.
  eexists. split; [reflexivity |]. cbn. rewrite List.removelast_last. auto 10.
Qed.

Lemma PopBlockData_nil (r : Redis) :
  block_queue r = [] -> PopBlockData r = (None, r).
Proof. intros H. unfold PopBlockData. now rewrite H. Qed.

Lemma drain_rev (q : list BlockData) :
  forall (fuel : nat) (r : Redis),
    block_queue r = List.rev q -> (List.length q <= fuel)%nat -> drain fuel r = q.
Proof.
  induction q as [|b q IH]; intros fuel r Hr Hf.
  - destruct fuel; [reflexivity |]. cbn [drain].
    now rewrite PopBlockData_nil.
  - destruct fuel as [|fuel]; [cbn in Hf; lia |]. cbn [drain].
    cbn [List.rev] in Hr.
    destruct (PopBlockData_snoc r _ b Hr) as (r' & -> & Hq & _).
    f_equal. apply IH; [exact Hq | cbn in Hf; lia].
Qed.

(** The queue is first in, first out.  After the blocks [bs] were pushed
    on an empty queue, a reader gets them in the order they were pushed;
    when more than [QueueSize] were pushed, it gets the last [QueueSize]
    of them and the earlier ones are lost. *)
Theorem queue_first_in_first_out (bs : list BlockData) (r : Redis) :
  0 < Monitor_QueueSize cfg -> block_queue r = [] ->
  drain (List.length bs) (List.fold_left (PushBlockData cfg) bs r) =
  List.skipn (List.length bs - Z.to_nat (Monitor_QueueSize cfg)) bs.
Proof.
  intros Hq He. apply drain_rev.
  - rewrite block_queue_pushes by (try exact Hq; rewrite He; cbn; lia).
    rewrite He, List.app_nil_r. apply List.firstn_rev.
  - rewrite List.length_skipn. lia.
Qed.

End Queue.

(** Two blocks pushed on the default queue are read in that order. *)
Lemma PushBlockData_keeps_newest_witness :
  List.map Height
    (block_queue (List.fold_left (PushBlockData default_config)
                    [head_at 7; head_at 8] empty_store)) = [8; 7] /\
  GetQueueSize (List.fold_left (PushBlockData default_config)
                  [head_at 7; head_at 8] empty_store) <= 1000.
Proof.
  destruct (PushBlockData_keeps_newest default_config [head_at 7; head_at 8] empty_store)
    as [H1 H2]; [reflexivity | discriminate |].
  split; [rewrite H1; reflexivity | exact H2].
Defined.

Lemma queue_first_in_first_out_witness :
  drain 2 (List.fold_left (PushBlockData default_config) [head_at 7; head_at 8] empty_store)
  = [head_at 7; head_at 8].
Proof.
  apply (queue_first_in_first_out default_config [head_at 7; head_at 8] empty_store);
    reflexivity.
Defined.

(** ** The event store and the watch set *)

Section StoreFacts.

Lemma length_LTrim0_cons {A : Type} (x : A) (l : list A) :
  Z.of_nat (List.length l) <= 10000 ->
  Z.of_nat (List.length (LTrim0 9999 (x :: l))) <= 10000.
Proof.
  intros H. unfold LTrim0. cbn [Z.leb Z.compare]. rewrite List.length_firstn. lia.
Qed.

Lemma Forall_LTrim0 {A : Type} (P : A -> Prop) (stop : Z) (l : list A) :
  List.Forall P l -> List.Forall P (LTrim0 stop l).
Proof.
  intros H. unfold LTrim0. destruct (0 <=? stop); now apply Forall_take.
Qed.

Lemma store_ok_save (r : Redis) (event : TransferEvent) :
  store_ok r -> store_ok (snd (SaveTransferEvent r event)).
Proof.
  intros (Hl & Hu & Hf & Hm & Hk & Ha).
  destruct (marshal_ok event) eqn:Hok.
  - destruct (SaveTransferEvent_stores r event Hok)
      as (r' & -> & Kt & Lt & Lu & Ka & _). cbn [snd].
    unfold store_ok. rewrite Kt, Lt, Lu, Ka.
    split; [now apply length_LTrim0_cons |].
    split; [destruct (IsUSDT event); [now apply length_LTrim0_cons | exact Hu] |].
    split.
    { destruct (IsUSDT event) eqn:Hi; [|exact Hf].
      apply Forall_LTrim0. now constructor. }
    split; [apply Forall_LTrim0; now constructor |].
    split; [|exact Ha].
    apply map_Forall_insert_2; auto.
  - unfold SaveTransferEvent. rewrite Hok. cbn. unfold store_ok. auto 10.
Qed.

(** [SaveTransferEvent] keeps the store well formed: the lists stay
    within 10000 events, the list of the tracked token holds only its
    events, and every record sits under its own hash.  An event it cannot
    serialise leaves the store as it was. *)
Theorem SaveTransferEvent_keeps_store_ok (r : Redis) (event : TransferEvent) :
  store_ok r ->
  store_ok (snd (SaveTransferEvent r event)) /\
  (marshal_ok event = false -> SaveTransferEvent r event = (Err ErrMarshal, r)).
Proof.
  intros Hok. split; [now apply store_ok_save |].
  intros Hm. unfold SaveTransferEvent. now rewrite Hm.
Qed.

(** Membership in the watch set after [AddWatchAddress] and
    [RemoveWatchAddress]; [GetWatchAddresses] lists the members.  Adding
    an address writes a fresh record for it, over the statistics of an
    address that was watched already. *)
Theorem watch_address_membership (now : Z) (r : Redis) (a b : string) :
  IsWatchAddress (AddWatchAddress now r a) b = String.eqb a b || IsWatchAddress r b /\
  IsWatchAddress (RemoveWatchAddress r a) b = negb (String.eqb a b) && IsWatchAddress r b /\
  (b ∈ GetWatchAddresses r <-> IsWatchAddress r b = true) /\
  address_info (AddWatchAddress now r a) !! a = Some (fresh_record now a) /\
  address_info (RemoveWatchAddress r a) !! a = None /\
  (a <> b ->
   address_info (AddWatchAddress now r a) !! b = address_info r !! b /\
   address_info (RemoveWatchAddress r a) !! b = address_info r !! b).
Proof.
  unfold IsWatchAddress, AddWatchAddress, RemoveWatchAddress, GetWatchAddresses.
  cbn [watch_addresses address_info].
  destruct (String.eqb_spec a b) as [->|Hne]; cbn [orb andb negb].
  - split; [apply bool_decide_eq_true, elem_of_union_l, elem_of_singleton; reflexivity |].
    split.
    { apply bool_decide_eq_false. rewrite elem_of_difference, elem_of_singleton.
      intros [_ H]. now apply H. }
    split; [rewrite elem_of_elements, bool_decide_eq_true; reflexivity |].
    split; [apply lookup_insert_eq |]. split; [apply lookup_delete_eq |].
    intros H. contradiction.
  - split.
    { apply bool_decide_ext. rewrite elem_of_union, elem_of_singleton.
      split; [intros [H|H]; [congruence | exact H] | auto]. }
    split.
    { apply bool_decide_ext. rewrite elem_of_difference, elem_of_singleton.
      split; [intros [H _]; exact H | intros H; split; [exact H | congruence]]. }
    split; [rewrite elem_of_elements, bool_decide_eq_true; reflexivity |].
    split; [apply lookup_insert_eq |]. split; [apply lookup_delete_eq |].
    intros _. split; [now apply lookup_insert_ne | now apply lookup_delete_ne].
Qed.

(** Removing an address right after it was added gives back the store,
    when the store knew nothing of the address before. *)
Theorem remove_after_add (now : Z) (r : Redis) (a : string) :
  a ∉ watch_addresses r -> address_info r !! a = None ->
  RemoveWatchAddress (AddWatchAddress now r a) a = r.
Proof.
  intros Hw Hi. destruct r as [q t l u w i]. cbn in Hw, Hi.
  unfold RemoveWatchAddress, AddWatchAddress. cbn. f_equal.
  - apply leibniz_equiv. intros x.
    rewrite elem_of_difference, elem_of_union, elem_of_singleton.
    split; [intros [[->|H] Hn]; [now contradiction Hn | exact H] |].
    intros H. split; [now right |]. intros ->. contradiction.
  - now apply delete_insert_id.
Qed.

Lemma initWatchAddresses_loop (now : Z) (m : gmap string bool) (configured : list string) :
  forall r : Redis,
    let r' :=
      List.fold_left
        (fun (r : Redis) addr =>
           if negb (watched m addr) then AddWatchAddress now r addr else r)
        configured r in
    (forall a, a ∈ watch_addresses r' <->
               a ∈ watch_addresses r \/ (a ∈ configured /\ watched m a = false)) /\
    (forall a, address_info r' !! a =
               if bool_decide (a ∈ configured) && negb (watched m a)
               then Some (fresh_record now a) else address_info r !! a) /\
    block_queue r' = block_queue r /\ transfer r' = transfer r /\
    transfers r' = transfers r /\ usdt_transfers r' = usdt_transfers r.
Proof.
  induction configured as [|x l IH]; intros r; cbn [List.fold_left].
  - cbv zeta. split; [intros a; rewrite elem_of_nil; tauto |].
    split; [|auto]. intros a. rewrite bool_decide_eq_false_2; [reflexivity |].
    apply not_elem_of_nil.
  - cbv zeta. specialize (IH (if negb (watched m x) then AddWatchAddress now r x else r)).
    cbv zeta in IH. destruct IH as (Hw & Hi & Hq & Ht & Hl & Hu).
    split; [|split].
    + intros a. rewrite Hw, elem_of_cons.
      destruct (watched m x) eqn:Hx; cbn [negb].
      * split; [tauto |]. intros [H|[[->|H] Hn]]; auto. congruence.
      * cbn [AddWatchAddress watch_addresses]. rewrite elem_of_union, elem_of_singleton.
        split; [intros [[->|H]|[H Hn]]; auto | intros [H|[[->|H] Hn]]; auto].
    + intros a. rewrite Hi.
      destruct (decide (a ∈ l)) as [Hin|Hnin].
      * rewrite !bool_decide_eq_true_2 by (try apply elem_of_cons; auto).
        destruct (watched m a) eqn:Ha; cbn [andb negb]; [|reflexivity].
        destruct (watched m x) eqn:Hx; cbn [negb]; [reflexivity |].
        cbn [AddWatchAddress address_info]. apply lookup_insert_ne. congruence.
      * rewrite (bool_decide_eq_false_2 (a ∈ l)) by exact Hnin. cbn [andb].
        destruct (decide (a = x)) as [->|Hne].
        -- rewrite bool_decide_eq_true_2 by (apply elem_of_cons; auto).
           destruct (watched m x); cbn [andb negb]; [reflexivity |].
           apply lookup_insert_eq.
        -- rewrite bool_decide_eq_false_2
             by (rewrite elem_of_cons; intros [?|?]; contradiction).
           cbn [andb]. destruct (watched m x); cbn [negb]; [reflexivity |].
           cbn [AddWatchAddress address_info]. now apply lookup_insert_ne.
    + rewrite Hq, Ht, Hl, Hu. destruct (watched m x); cbn; auto.
Qed.

(** [initWatchAddresses]: afterwards the store watches what it watched
    and every configured address; an address that was watched before
    keeps its record and statistics, a configured address that was not
    gets a fresh record; events and queue are left alone. *)
Theorem initWatchAddresses_adds_missing (now : Z) (configured : list string) (r : Redis) :
  let r' := initWatchAddresses now configured r in
  watch_addresses r' = watch_addresses r ∪ list_to_set configured /\
  (forall a, a ∈ watch_addresses r -> address_info r' !! a = address_info r !! a) /\
  (forall a, a ∈ configured -> a ∉ watch_addresses r ->
             address_info r' !! a = Some (fresh_record now a)) /\
  block_queue r' = block_queue r /\ transfer r' = transfer r /\
  transfers r' = transfers r /\ usdt_transfers r' = usdt_transfers r.
Proof.
  cbv zeta. unfold initWatchAddresses. cbv zeta.
  set (m := List.fold_left _ (GetWatchAddresses r) ∅).
  assert (Hm : forall a, watched m a = true <-> a ∈ watch_addresses r).
  { intros a. unfold m, GetWatchAddresses. rewrite watched_fold, elem_of_elements.
    unfold watched. rewrite lookup_empty. cbn. split; [intros [H|H] | auto].
    - exact H.
    - discriminate H. }
  destruct (initWatchAddresses_loop now m configured r) as (Hw & Hi & Hrest).
  cbv zeta in Hw, Hi, Hrest.
  split; [|split; [|split; [|exact Hrest]]].
  - apply leibniz_equiv. intros a. rewrite Hw, elem_of_union, elem_of_list_to_set.
    split; [intros [H|[H _]]; auto |].
    intros [H|H]; [auto |].
    destruct (watched m a) eqn:Ha; [left; now apply Hm | auto].
  - intros a Ha. rewrite Hi. apply Hm in Ha. rewrite Ha. cbn [negb].
    now rewrite andb_false_r.
  - intros a Hc Ha. rewrite Hi. rewrite bool_decide_eq_true_2 by exact Hc.
    destruct (watched m a) eqn:Hwa; [apply Hm in Hwa; contradiction | reflexivity].
Qed.

End StoreFacts.

(** ** What processing a block changes *)

Section BlockEffects.

Variable cfg : Config.
Variable math_Pow10 : Z -> float64.
Variable now : Z.

Lemma records_only_refl (r : Redis) : records_only r r.
Proof. unfold records_only. auto 10. Qed.

Lemma records_only_trans (r1 r2 r3 : Redis) :
  records_only r1 r2 -> records_only r2 r3 -> records_only r1 r3.
Proof.
  unfold records_only. intros (A1 & A2 & A3 & A4 & A5 & A6) (B1 & B2 & B3 & B4 & B5 & B6).
  rewrite B1, B2, B3, B4, B5. auto 10.
Qed.

Lemma records_only_update (r : Redis) (a : string) (blockData : BlockData) :
  records_only r (updateAddressStats now r a blockData).
Proof.
  unfold records_only, updateAddressStats, UpdateAddressStats. cbn.
  do 5 (split; [reflexivity |]). intros H.
  apply map_Forall_insert_2; [|exact H]. cbn.
  destruct (address_info r !! a) as [info|] eqn:E; [|reflexivity].
  exact (H a info E).
Qed.

Lemma records_only_touch (ws : gmap string bool) (r : Redis) (from to : string)
    (blockData : BlockData) :
  records_only r (touch now ws r from to blockData).
Proof.
  unfold touch.
  destruct (watched ws from), (watched ws to);
    eauto using records_only_refl, records_only_update, records_only_trans.
Qed.












End BlockEffects.

(** ** Address statistics *)

Section Statistics.

Variable cfg : Config.
Variable math_Pow10 : Z -> float64.
Variable now : Z.







End Statistics.

(** ** The worker's loop *)

Section WorkerLoopFacts.

Variable cfg : Config.
Variable math_Pow10 : Z -> float64.
Variable now : Z.



(** A block the client built from a response without transactions is no
    valid block for the worker: the pass that takes it counts an error,
    and nothing but the queue changes. *)
Theorem block_without_transactions_is_an_error (rawResponse : Client.RawResponse)
    (bp : BlockProcessor) (r : Redis) (q : list BlockData) :
  Client.Transactions rawResponse = None ->
  block_queue r = (q ++ [Client.build_BlockData rawResponse])%list ->
  exists r',
    processBlocks_pass cfg math_Pow10 now bp r =
      ({| running := running bp; cancelled := cancelled bp; workers := workers bp;
          processedBlocks := processedBlocks bp; transfersFound := transfersFound bp;
          errors := wrap64 (errors bp + 1) |}, r') /\
    block_queue r' = q /\ transfer r' = transfer r /\ transfers r' = transfers r /\
    usdt_transfers r' = usdt_transfers r /\ watch_addresses r' = watch_addresses r /\
    address_info r' = address_info r.
Proof.
  intros Ht Hq. unfold processBlocks_pass.
  destruct (PopBlockData_snoc r q _ Hq) as (r1 & -> & H).
  unfold processBlock, Client.build_BlockData. cbn [Block_ Trans]. rewrite Ht.
  exists r1. split; [reflexivity | exact H].
Qed.

End WorkerLoopFacts.

(** ** Restarting the pool *)

Section Restart.

Variable cfg : Config.
Variable math_Pow10 : Z -> float64.
Variable now : Z.

(** A pool that was stopped cannot be brought back: [Start] succeeds and
    the pool and its workers report that they run, but every worker's
    context stays cancelled, so each loop returns at its first check and
    no block is ever taken off the queue. *)
Theorem restarted_pool_is_idle (bp : BlockProcessor) :
  running bp = true ->
  exists bp1 bp2,
    Pool.Stop bp = (Ok tt, bp1) /\ Pool.Start bp1 = (Ok tt, bp2) /\
    running bp2 = true /\
    List.Forall (fun w => w_running w = true /\ w_cancelled w = true) (workers bp2) /\
    forall w, w ∈ workers bp2 ->
      forall fuel bp' r, processBlocks cfg math_Pow10 now fuel w bp' r = (bp', r).
Proof.
  intros Hr. unfold Pool.Stop. rewrite Hr. cbn [negb].
  eexists. eexists. split; [reflexivity |].
  unfold Pool.Start. cbn [running]. split; [reflexivity |]. cbn [running workers].
  split; [reflexivity |].
  assert (Hall : List.Forall (fun w => w_running w = true /\ w_cancelled w = true)
                   (List.map Worker.start
                      (List.map (fun w => Worker.stop
                                   {| id := id w; w_running := w_running w;
                                      w_cancelled := true; loops := loops w |})
                         (workers bp)))).
  { rewrite List.map_map. apply List.Forall_map, List.Forall_forall. intros w _.
    unfold Worker.stop, Worker.start. cbn.
    destruct (w_running w); cbn; auto. }
  split; [exact Hall |].
  intros w Hw fuel bp' r.
  rewrite List.Forall_forall in Hall.
  destruct (Hall w) as [_ Hc]; [now apply list_elem_of_In |].
  destruct fuel; cbn [processBlocks]; [reflexivity |]. now rewrite Hc.
Qed.

End Restart.

Lemma restarted_pool_is_idle_witness :
  exists bp1 bp2,
    Pool.Stop started_pool = (Ok tt, bp1) /\ Pool.Start bp1 = (Ok tt, bp2) /\
    running bp2 = true /\ List.length (workers bp2) = 4%nat /\
    forall w, w ∈ workers bp2 ->
      processBlocks default_config Pow10 0 1 w bp2
        (PushBlockData default_config empty_store (head_at 7)) =
      (bp2, PushBlockData default_config empty_store (head_at 7)).
Proof.
  destruct (restarted_pool_is_idle default_config Pow10 0 started_pool eq_refl)
    as (bp1 & bp2 & H1 & H2 & H3 & H4 & H5).
  exists bp1, bp2. split; [exact H1 |]. split; [exact H2 |]. split; [exact H3 |].
  split; [|intros w Hw; apply H5; exact Hw].
  inversion H1; subst bp1. inversion H2; subst bp2. reflexivity.
Defined.

(** ** History runs and the tick's errors *)

Section MonitorRunsFacts.

Variable cfg : Config.
Variable GetBlockByNumber : Z -> option BlockData.
Variable push_ok : BlockData -> bool.

Local Abbreviation queued := (enqueued GetBlockByNumber push_ok).
Local Abbreviation pushes := (List.fold_left (PushBlockData cfg)).

Lemma historical_range (n : nat) :
  forall (fuel : nat) (a : Z) (r : Redis),
    (n <= fuel)%nat -> - 2 ^ 63 <= a -> a + Z.of_nat n < 2 ^ 63 ->
    ProcessHistoricalBlocks cfg GetBlockByNumber push_ok false fuel a
      (a + Z.of_nat n - 1) r =
    Some (None, pushes (queued (seqZ a (Z.of_nat n))) r).
Proof.
  induction n as [|n IH]; intros fuel a r Hf Ha Hb.
  - replace (a + Z.of_nat 0 - 1) with (a - 1) by lia.
    destruct fuel; cbn [ProcessHistoricalBlocks];
      (destruct (Z.leb_spec a (a - 1)); [lia | reflexivity]).
  - destruct fuel as [|fuel]; [lia |]. cbn [ProcessHistoricalBlocks].
    destruct (Z.leb_spec a (a + Z.of_nat (S n) - 1)); [|lia].
    rewrite wrap64_id by lia.
    replace (a + Z.of_nat (S n) - 1) with (a + 1 + Z.of_nat n - 1) by lia.
    rewrite (seqZ_cons a (Z.of_nat (S n))) by lia.
    replace (Z.pred (Z.of_nat (S n))) with (Z.of_nat n) by lia.
    replace (Z.succ a) with (a + 1) by lia.
    rewrite enqueued_cons. unfold push.
    destruct (GetBlockByNumber a) as [b|]; [destruct (push_ok b) |];
      rewrite IH by lia; reflexivity.
Qed.

(** [ProcessHistoricalBlocks] asks for every height from [startBlock] to
    [endBlock] in ascending order and pushes the blocks it got; a height
    it could not get or push is skipped, and the run returns no error.
    On a cancelled context it stops with an error before the first
    request, unless the range is empty. *)
Theorem ProcessHistoricalBlocks_pushes_range (fuel : nat) (startBlock endBlock : Z)
    (r : Redis) :
  - 2 ^ 63 <= startBlock -> endBlock < 2 ^ 63 - 1 ->
  endBlock - startBlock < Z.of_nat fuel ->
  ProcessHistoricalBlocks cfg GetBlockByNumber push_ok false fuel startBlock endBlock r =
    Some (None, pushes (queued (seqZ startBlock (endBlock - startBlock + 1))) r) /\
  ProcessHistoricalBlocks cfg GetBlockByNumber push_ok true fuel startBlock endBlock r =
    Some (if startBlock <=? endBlock then Some ErrInterrupted else None, r).
Proof.
  intros Ha Hb Hf. split.
  - destruct (Z.le_gt_cases startBlock endBlock) as [Hle|Hgt].
    + replace endBlock
        with (startBlock + Z.of_nat (Z.to_nat (endBlock - startBlock + 1)) - 1) at 1
        by lia.
      rewrite historical_range by lia. rewrite Z2Nat.id by lia. reflexivity.
    + rewrite seqZ_nil by lia. cbn [enqueued omap list_omap List.filter List.fold_left].
      destruct fuel; cbn [ProcessHistoricalBlocks];
        (destruct (Z.leb_spec startBlock endBlock); [lia | reflexivity]).
  - destruct fuel as [|fuel]; cbn [ProcessHistoricalBlocks];
      destruct (Z.leb_spec startBlock endBlock); try reflexivity; lia.
Qed.

Lemma omap_none (hs : list Z) :
  (forall h, GetBlockByNumber h = None) -> omap GetBlockByNumber hs = [].
Proof.
  intros H. induction hs as [|h hs IH]; [reflexivity |].
  cbn [omap list_omap]. now rewrite H.
Qed.

(** The window of a tick that finds a gap, with the loop run. *)
Lemma tick_over_gap (fuel : nat) (blockData : BlockData) (bm : BlockMonitor) (r : Redis) :
  0 <= lastProcessedBlock bm -> lastProcessedBlock bm + 1 < Height blockData ->
  Height blockData < 2 ^ 62 ->
  (Monitor_MaxBlockHeight cfg <= 0 \/ Height blockData <= Monitor_MaxBlockHeight cfg) ->
  (Monitor_StartBlockHeight cfg <= 0 \/
   Monitor_StartBlockHeight cfg <= Height blockData) ->
  (10 <= fuel)%nat ->
  let start := Z.max (lastProcessedBlock bm + 1) (Height blockData - 9) in
  let pushed := queued (seqZ start (Height blockData - start + 1)) in
  exists bm',
    processLatestBlock cfg GetBlockByNumber push_ok fuel blockData bm r =
      Some (Ok tt, (bm', pushes pushed r)) /\
    lastProcessedBlock bm' = Height blockData /\ m_errors bm' = m_errors bm /\
    m_running bm' = m_running bm.
Proof.
  intros Hl Hg Hh Hmax Hmin Hf start pushed.
  unfold processLatestBlock.
  destruct (Z.leb_spec (Height blockData) (lastProcessedBlock bm)); [lia |].
  replace ((0 <? Monitor_MaxBlockHeight cfg) &&
           (Monitor_MaxBlockHeight cfg <? Height blockData)) with false
    by (symmetry; apply andb_false_iff;
        destruct Hmax; [left; apply Z.ltb_ge | right; apply Z.ltb_ge]; lia).
  replace ((0 <? Monitor_StartBlockHeight cfg) &&
           (Height blockData <? Monitor_StartBlockHeight cfg)) with false
    by (symmetry; apply andb_false_iff;
        destruct Hmin; [left; apply Z.ltb_ge | right; apply Z.ltb_ge]; lia).
  cbv zeta. unfold maxGap.
  rewrite !wrap64_id by (rewrite ?wrap64_id by lia; lia).
  destruct (Z.ltb_spec (lastProcessedBlock bm + 1) (Height blockData)); [|lia].
  replace (if 10 <? Height blockData - (lastProcessedBlock bm + 1) + 1
           then Height blockData - 10 + 1 else lastProcessedBlock bm + 1)
    with start
    by (unfold start;
        destruct (Z.ltb_spec 10 (Height blockData - (lastProcessedBlock bm + 1) + 1));
        lia).
  assert (Hb : backfill cfg GetBlockByNumber push_ok fuel start (Height blockData) bm r =
               Some (Nat.iter (List.length pushed) count_block bm, pushes pushed r)).
  { replace (Height blockData)
      with (start + Z.of_nat (Z.to_nat (Height blockData - start + 1)) - 1) at 1
      by (unfold start; lia).
    rewrite backfill_range by (unfold start; lia).
    unfold pushed. rewrite Z2Nat.id by (unfold start; lia). reflexivity. }
  rewrite Hb. eexists. split; [reflexivity |]. cbn.
  assert (Hi : forall k bm0,
             m_running (Nat.iter k count_block bm0) = m_running bm0 /\
             m_errors (Nat.iter k count_block bm0) = m_errors bm0).
  { induction k as [|k IHk]; intros bm0; cbn; [auto | apply IHk]. }
  destruct (Hi (List.length pushed) bm) as [-> ->]. auto.
Qed.

(** [SyncToLatestBlock] pushes every height above [lastProcessedBlock]
    up to the head, with no limit on their number, and does not move
    [lastProcessedBlock]: the tick that follows finds the same gap and
    pushes its window of at most ten heights once more. *)
Theorem SyncToLatestBlock_then_tick (fuel : nat) (latestBlock : BlockData)
    (bm : BlockMonitor) (r : Redis) :
  let last := lastProcessedBlock bm in
  let head := Height latestBlock in
  0 <= last -> last + 1 < head -> head < 2 ^ 62 ->
  (Monitor_MaxBlockHeight cfg <= 0 \/ head <= Monitor_MaxBlockHeight cfg) ->
  (Monitor_StartBlockHeight cfg <= 0 \/ Monitor_StartBlockHeight cfg <= head) ->
  (10 <= fuel)%nat -> head - last <= Z.of_nat fuel ->
  let synced := pushes (queued (seqZ (last + 1) (head - last))) r in
  let start := Z.max (last + 1) (head - 9) in
  SyncToLatestBlock cfg GetBlockByNumber push_ok false fuel latestBlock bm r =
    Some (None, synced) /\
  exists bm',
    processLatestBlock cfg GetBlockByNumber push_ok fuel latestBlock bm synced =
      Some (Ok tt, (bm', pushes (queued (seqZ start (head - start + 1))) synced)) /\
    lastProcessedBlock bm' = head.
Proof.
  intros last head Hl Hg Hh Hmax Hmin Hf Hf2 synced start. split.
  - unfold SyncToLatestBlock. fold last head.
    destruct (Z.leb_spec head last); [lia |].
    rewrite wrap64_id by lia.
    replace head with (last + 1 + Z.of_nat (Z.to_nat (head - last)) - 1) at 1 by lia.
    rewrite historical_range by lia. rewrite Z2Nat.id by lia. reflexivity.
  - destruct (tick_over_gap fuel latestBlock bm synced Hl Hg Hh Hmax Hmin Hf)
      as (bm' & H1 & H2 & _).
    exists bm'. split; [exact H1 | exact H2].
Qed.

(** What a tick counts as an error.  A failed request for the head counts
    one.  A head one above [lastProcessedBlock] that the queue refuses
    counts one and leaves [lastProcessedBlock] where it was, so the
    height is tried again.  A tick over a gap never counts an error and
    always moves [lastProcessedBlock] to the head, whatever the requests
    and pushes inside the gap did: a height that failed there is not
    asked for again. *)
Theorem monitorBlocks_tick_errors (fuel : nat) (bm : BlockMonitor) (r : Redis) :
  let failed :=
    {| m_running := m_running bm; lastProcessedBlock := lastProcessedBlock bm;
       m_processedBlocks := m_processedBlocks bm;
       m_errors := wrap64 (m_errors bm + 1) |} in
  monitorBlocks_tick cfg GetBlockByNumber push_ok fuel None bm r = Some (failed, r) /\
  (forall blockData,
      Height blockData = lastProcessedBlock bm + 1 -> Height blockData < 2 ^ 63 ->
      - 2 ^ 63 <= lastProcessedBlock bm ->
      (Monitor_MaxBlockHeight cfg <= 0 \/ Height blockData <= Monitor_MaxBlockHeight cfg) ->
      (Monitor_StartBlockHeight cfg <= 0 \/
       Monitor_StartBlockHeight cfg <= Height blockData) ->
      push_ok blockData = false ->
      monitorBlocks_tick cfg GetBlockByNumber push_ok fuel (Some blockData) bm r =
        Some (failed, r)) /\
  (forall blockData,
      0 <= lastProcessedBlock bm -> lastProcessedBlock bm + 1 < Height blockData ->
      Height blockData < 2 ^ 62 ->
      (Monitor_MaxBlockHeight cfg <= 0 \/ Height blockData <= Monitor_MaxBlockHeight cfg) ->
      (Monitor_StartBlockHeight cfg <= 0 \/
       Monitor_StartBlockHeight cfg <= Height blockData) ->
      (10 <= fuel)%nat ->
      exists bm' r',
        monitorBlocks_tick cfg GetBlockByNumber push_ok fuel (Some blockData) bm r =
          Some (bm', r') /\
        m_errors bm' = m_errors bm /\ lastProcessedBlock bm' = Height blockData /\
        ((forall h, GetBlockByNumber h = None) -> r' = r)).
Proof.
  cbv zeta. split; [reflexivity |]. split.
  - intros blockData Hh Hb Hl Hmax Hmin Hp.
    unfold monitorBlocks_tick, processLatestBlock.
    destruct (Z.leb_spec (Height blockData) (lastProcessedBlock bm)); [lia |].
    replace ((0 <? Monitor_MaxBlockHeight cfg) &&
             (Monitor_MaxBlockHeight cfg <? Height blockData)) with false
      by (symmetry; apply andb_false_iff;
          destruct Hmax; [left; apply Z.ltb_ge | right; apply Z.ltb_ge]; lia).
    replace ((0 <? Monitor_StartBlockHeight cfg) &&
             (Height blockData <? Monitor_StartBlockHeight cfg)) with false
      by (symmetry; apply andb_false_iff;
          destruct Hmin; [left; apply Z.ltb_ge | right; apply Z.ltb_ge]; lia).
    cbv zeta. rewrite wrap64_id by lia.
    destruct (Z.ltb_spec (lastProcessedBlock bm + 1) (Height blockData)); [lia |].
    unfold push. rewrite Hp. reflexivity.
  - intros blockData Hl Hg Hh Hmax Hmin Hf.
    destruct (tick_over_gap fuel blockData bm r Hl Hg Hh Hmax Hmin Hf)
      as (bm' & H1 & H2 & H3 & _).
    unfold monitorBlocks_tick. rewrite H1. do 2 eexists.
    split; [reflexivity |]. split; [exact H3 |]. split; [exact H2 |].
    intros Hnone. unfold enqueued. now rewrite omap_none.
Qed.

(** A response without a block header, or with a header without its raw
    data, is a block of height 0: a monitor that has processed any height
    at all takes it for an old block and pushes nothing. *)
Theorem response_without_header_is_skipped (fuel : nat)
    (rawResponse : Client.RawResponse) (bm : BlockMonitor) (r : Redis) :
  match Client.Response_BlockHeader rawResponse with
  | Some header => Client.Header_RawData header = None
  | None => True
  end ->
  0 <= lastProcessedBlock bm ->
  Height (Client.build_BlockData rawResponse) = 0 /\
  processLatestBlock cfg GetBlockByNumber push_ok fuel
    (Client.build_BlockData rawResponse) bm r = Some (Ok tt, (bm, r)).
Proof.
  intros Hh Hl.
  assert (E : Height (Client.build_BlockData rawResponse) = 0).
  { unfold Client.build_BlockData. cbn [Height].
    destruct (Client.Response_BlockHeader rawResponse) as [h|]; [|reflexivity].
    now rewrite Hh. }
  split; [exact E |]. unfold processLatestBlock. rewrite E.
  destruct (Z.leb_spec 0 (lastProcessedBlock bm)); [reflexivity | lia].
Qed.

End MonitorRunsFacts.

(** ** The client's retries and counters *)

Section ClientFacts.

Import Client.

Context {A : Type}.
Variable doRequest : Z -> option A.

Lemma attempts_first_success (k : nat) :
  forall (n : nat) (i : Z) (c : HTTPClient) (result : A),
    (k < n)%nat -> - 2 ^ 63 <= errorCount c -> errorCount c + Z.of_nat k < 2 ^ 63 ->
    (forall j, 0 <= j < Z.of_nat k -> doRequest (i + j) = None) ->
    doRequest (i + Z.of_nat k) = Some result ->
    attempts doRequest n i c = (Some result, failed_attempts (Z.of_nat k) c).
Proof.
  induction k as [|k IH]; intros n i c result Hn Hlo Hhi Hfail Hok;
    (destruct n as [|n]; [lia |]); cbn [attempts].
  - replace (i + Z.of_nat 0) with i in Hok by lia. rewrite Hok.
    destruct c. unfold failed_attempts. cbn. do 2 f_equal. lia.
  - rewrite <- (Z.add_0_r i) at 1. rewrite Hfail by lia.
    rewrite (IH n (i + 1) (count_error c) result); try lia.
    + unfold failed_attempts, count_error. cbn. rewrite wrap64_id by lia.
      do 2 f_equal. lia.
    + cbn. rewrite wrap64_id by lia. lia.
    + cbn. rewrite wrap64_id by lia. lia.
    + intros j Hj. replace (i + 1 + j) with (i + (j + 1)) by lia. apply Hfail. lia.
    + replace (i + 1 + Z.of_nat k) with (i + Z.of_nat (S k)) by lia. exact Hok.
Qed.

Lemma attempts_all_fail (n : nat) :
  forall (i : Z) (c : HTTPClient),
    - 2 ^ 63 <= errorCount c -> errorCount c + Z.of_nat n < 2 ^ 63 ->
    (forall j, 0 <= j < Z.of_nat n -> doRequest (i + j) = None) ->
    attempts doRequest n i c = (None, failed_attempts (Z.of_nat n) c).
Proof.
  induction n as [|n IH]; intros i c Hlo Hhi Hfail; cbn [attempts].
  - destruct c. unfold failed_attempts. cbn. do 2 f_equal. lia.
  - rewrite <- (Z.add_0_r i) at 1. rewrite Hfail by lia.
    rewrite (IH (i + 1) (count_error c)).
    + unfold failed_attempts, count_error. cbn. rewrite wrap64_id by lia.
      do 2 f_equal. lia.
    + cbn. rewrite wrap64_id by lia. lia.
    + cbn. rewrite wrap64_id by lia. lia.
    + intros j Hj. replace (i + 1 + j) with (i + (j + 1)) by lia. apply Hfail. lia.
Qed.

(** [makeRequest] makes the attempts [0], [1], ... up to [retryMax] and
    stops at the first that succeeds, having counted one error for each
    attempt before it.  When all of them fail, and at once when
    [retryMax] is negative, it returns an error that names [retryMax + 1]
    tries. *)
Theorem makeRequest_retries (c : HTTPClient) :
  - 2 ^ 63 <= errorCount c -> errorCount c + Z.max 0 (retryMax c + 1) < 2 ^ 63 ->
  (forall k result,
      0 <= k <= retryMax c -> (forall i, 0 <= i < k -> doRequest i = None) ->
      doRequest k = Some result ->
      makeRequest doRequest c = (inr result, failed_attempts k c)) /\
  ((forall i, 0 <= i <= retryMax c -> doRequest i = None) ->
   makeRequest doRequest c =
     (inl (ErrRequestFailed (retryMax c + 1)),
      failed_attempts (Z.max 0 (retryMax c + 1)) c)).
Proof.
  intros Hlo Hhi. split.
  - intros k result Hk Hfail Hok. unfold makeRequest.
    rewrite (attempts_first_success (Z.to_nat k) _ 0 c result); try lia.
    + rewrite Z2Nat.id by lia. reflexivity.
    + intros j Hj. apply Hfail. lia.
    + rewrite Z2Nat.id by lia. exact Hok.
  - intros Hfail. unfold makeRequest.
    rewrite (attempts_all_fail _ 0 c); try lia.
    + do 2 f_equal. f_equal. lia.
    + intros j Hj. apply Hfail. lia.
Qed.

End ClientFacts.

Section ClientCounters.

Import Client.

Variable doRequest : Z -> option RawResponse.

Lemma attempts_counts {A : Type} (request : Z -> option A) (n : nat) :
  forall (i : Z) (c : HTTPClient),
    requestCount (snd (attempts request n i c)) = requestCount c /\
    successCount (snd (attempts request n i c)) = successCount c.
Proof.
  induction n as [|n IH]; intros i c; cbn [attempts]; [auto |].
  destruct (request i); [auto |]. apply (IH (i + 1) (count_error c)).
Qed.

(** The float of a count divided by itself is one, and the rate 100. *)
Lemma f64_div_same (p : positive) :
  Z.pos p < 2 ^ 53 ->
  SFmul 53 1024 (f64_div (f64_of_Z (Z.pos p)) (f64_of_Z (Z.pos p))) (f64_of_Z 100) =
  f64_of_Z 100.
Proof.
  intros Hp. destruct (f64_of_Z_normal p Hp) as (m & k & -> & Hk & Hm & Hd).
  unfold f64_div, SFdiv, SFdiv_core_binary. cbn [Zdigits2 xorb]. rewrite Hd.
  unfold fexp, emin.
  replace (Z.min (Z.max (53 + - k - (53 + - k) - 53) (3 - 1024 - 53)) (- k - - k))
    with (-53) by lia.
  replace (- k - - k - -53) with 53 by lia.
  rewrite Z.shiftl_mul_pow2 by lia.
  assert (E : Z.div_eucl (Z.pos m * 2 ^ 53) (Z.pos m) = (2 ^ 53, 0)).
  { pose proof (Z_div_mod (Z.pos m * 2 ^ 53) (Z.pos m) eq_refl) as H.
    destruct (Z.div_eucl (Z.pos m * 2 ^ 53) (Z.pos m)) as [q r].
    destruct H as [H1 H2]. assert (q = 2 ^ 53) by nia. f_equal; lia. }
  rewrite E.
  replace (new_location (Z.pos m) 0) with loc_Exact
    by (unfold new_location; destruct (Z.even (Z.pos m)); reflexivity).
  vm_compute. reflexivity.
Qed.

(** A block request that succeeds counts one request and one success; a
    request that fails counts neither, only its failed attempts.  So the
    two counters stay equal, from [ResetStats] on, and the success rate
    the client reports is 100 once a single request has succeeded,
    however many have failed. *)
Theorem requestCount_counts_successes (c : HTTPClient) :
  requestCount c = successCount c ->
  requestCount (snd (GetLatestBlock doRequest c)) =
    successCount (snd (GetLatestBlock doRequest c)) /\
  requestCount (snd (GetBlockByNumber doRequest c)) =
    successCount (snd (GetBlockByNumber doRequest c)) /\
  requestCount (ResetStats c) = successCount (ResetStats c) /\
  match fst (GetLatestBlock doRequest c) with
  | inr _ => requestCount (snd (GetLatestBlock doRequest c)) = wrap64 (requestCount c + 1)
  | inl _ => requestCount (snd (GetLatestBlock doRequest c)) = requestCount c
  end /\
  (0 < requestCount c < 2 ^ 53 -> success_rate c = f64_of_Z 100) /\
  (requestCount c = 0 -> success_rate c = f64_zero).
Proof.
  intros H.
  assert (Hcall : requestCount (snd (GetLatestBlock doRequest c)) =
                  successCount (snd (GetLatestBlock doRequest c))).
  { unfold GetLatestBlock, makeRequest.
    pose proof (attempts_counts doRequest (Z.to_nat (retryMax c + 1)) 0 c) as [H1 H2].
    destruct (attempts doRequest (Z.to_nat (retryMax c + 1)) 0 c) as [[raw|] c'];
      cbn [snd] in *; cbn; congruence. }
  split; [exact Hcall |]. split; [exact Hcall |]. split; [reflexivity |].
  split; [|split].
  - unfold GetLatestBlock, makeRequest.
    pose proof (attempts_counts doRequest (Z.to_nat (retryMax c + 1)) 0 c) as [H1 _].
    destruct (attempts doRequest (Z.to_nat (retryMax c + 1)) 0 c) as [[raw|] c'];
      cbn [fst snd] in *; cbn; congruence.
  - intros Hr. unfold success_rate. cbv zeta. rewrite <- H.
    destruct (Z.eqb_spec (requestCount c) 0); [lia |].
    destruct (requestCount c) as [|p|p]; try lia. now apply f64_div_same.
  - intros Hz. unfold success_rate. now rewrite Hz.
Qed.

End ClientCounters.

(** ** The configuration *)

Section ConfigFacts.

Lemma isValidTronAddress_shape (address : string) :
  isValidTronAddress address = true <-> display_shape address.
Proof.
  unfold isValidTronAddress, display_shape, len.
  destruct (Z.eqb_spec (Z.of_nat (String.length address)) 34) as [E|E];
    destruct (HasPrefix address "T"); cbn; split;
    try discriminate; try (intros [H1 H2]; try discriminate H2; lia); auto.
  intros _. split; [lia | reflexivity].
Qed.

Lemma validate_addresses_accepts (addresses : list string) :
  forall i, validate_addresses i addresses = None <->
            List.Forall display_shape addresses.
Proof.
  induction addresses as [|a l IH]; intros i; cbn [validate_addresses].
  - split; [constructor | reflexivity].
  - pose proof (isValidTronAddress_shape a) as Ha.
    destruct (isValidTronAddress a); cbn [negb].
    + rewrite IH. split; [intros H; constructor; [now apply Ha | exact H] |].
      intros H. now inversion H.
    + split; [discriminate |]. intros H. inversion H; subst.
      destruct Ha as [_ Ha]. discriminate (Ha ltac:(assumption)).
Qed.

Lemma validate_addresses_rejects (addresses : list string) :
  forall i e,
    validate_addresses i addresses = Some e ->
    exists (n : nat) (a : string),
      e = ErrAddressFormatAt a (i + Z.of_nat n) /\ addresses !! n = Some a /\
      ~ display_shape a /\ List.Forall display_shape (List.firstn n addresses).
Proof.
  induction addresses as [|a l IH]; intros i e; cbn [validate_addresses];
    [discriminate |].
  pose proof (isValidTronAddress_shape a) as Ha.
  destruct (isValidTronAddress a) eqn:Hv; cbn [negb].
  - intros H. destruct (IH _ _ H) as (n & b & -> & Hn & Hb & Hall).
    exists (S n), b. split; [f_equal; lia |]. split; [exact Hn |].
    split; [exact Hb |]. cbn [List.firstn]. constructor; [now apply Ha | exact Hall].
  - intros H. inversion H; subst. exists 0%nat, a.
    split; [f_equal; lia |]. split; [reflexivity |].
    split; [|constructor]. intros Hs. apply Ha in Hs. discriminate Hs.
Qed.

(** [validateConfig] accepts a configuration exactly when the base URL
    and the Redis address are not empty, the block interval is a second
    or more, the numbers of workers and of queue places are positive, and
    every watch address has 34 characters and starts with [T].  For a bad
    watch address the error names the first one and its index. *)
Theorem validateConfig_accepts (config : Settings) :
  (validateConfig config = None <->
   TronGrid_BaseURL config <> "" /\ Redis_Addr config <> "" /\
   time_Second <= Monitor_BlockInterval config /\
   0 < Monitor_WorkerCount (core config) /\ 0 < Monitor_QueueSize (core config) /\
   List.Forall display_shape (WatchAddresses config)) /\
  (forall a i,
      validateConfig config = Some (ErrAddressFormatAt a i) ->
      exists n : nat,
        i = Z.of_nat n /\ WatchAddresses config !! n = Some a /\ ~ display_shape a /\
        List.Forall display_shape (List.firstn n (WatchAddresses config))).
Proof.
  unfold validateConfig.
  destruct (String.eqb_spec (TronGrid_BaseURL config) "") as [E1|E1].
  { split; [split; [discriminate | intros (H & _); contradiction] | discriminate]. }
  destruct (String.eqb_spec (Redis_Addr config) "") as [E2|E2].
  { split; [split; [discriminate | intros (_ & H & _); contradiction] | discriminate]. }
  destruct (Z.ltb_spec (Monitor_BlockInterval config) time_Second) as [E3|E3].
  { split; [split; [discriminate | intros (_ & _ & H & _); lia] | discriminate]. }
  destruct (Z.leb_spec (Monitor_WorkerCount (core config)) 0) as [E4|E4].
  { split; [split; [discriminate | intros (_ & _ & _ & H & _); lia] | discriminate]. }
  destruct (Z.leb_spec (Monitor_QueueSize (core config)) 0) as [E5|E5].
  { split; [split; [discriminate | intros (_ & _ & _ & _ & H & _); lia] | discriminate]. }
  split.
  - rewrite validate_addresses_accepts. split; [auto 10 | intros (_ & _ & _ & _ & _ & H)].
    exact H.
  - intros a i H. destruct (validate_addresses_rejects _ _ _ H) as (n & b & E & Hn & Hb & Hall).
    inversion E; subst. exists n. auto.
Qed.

Lemma existsb_eqb_elem_of (a : string) (l : list string) :
  List.existsb (String.eqb a) l = true <-> a ∈ l.
Proof.
  rewrite List.existsb_exists, list_elem_of_In. split.
  - intros (x & Hx & E). apply String.eqb_eq in E. now subst.
  - intros H. exists a. split; [exact H | apply String.eqb_refl].
Qed.

Lemma remove_first_spec (a : string) (l : list string) :
  match remove_first a l with
  | Some l' => exists l1 l2, l = (l1 ++ a :: l2)%list /\ (a ∉ l1) /\ l' = (l1 ++ l2)%list
  | None => a ∉ l
  end.
Proof.
  induction l as [|x l IH]; cbn [remove_first]; [apply not_elem_of_nil |].
  destruct (String.eqb_spec x a) as [->|Hne].
  - exists [], l. split; [reflexivity |]. split; [apply not_elem_of_nil | reflexivity].
  - destruct (remove_first a l) as [l'|]; cbn [option_map].
    + destruct IH as (l1 & l2 & -> & Hn & ->). exists (x :: l1), l2.
      split; [reflexivity |]. split; [|reflexivity].
      rewrite not_elem_of_cons. auto.
    + rewrite not_elem_of_cons. auto.
Qed.

Lemma remove_first_last (a : string) (l : list string) :
  a ∉ l -> remove_first a (l ++ [a]) = Some l.
Proof.
  induction l as [|x l IH]; intros Hn; cbn [List.app remove_first].
  - now rewrite String.eqb_refl.
  - apply not_elem_of_cons in Hn as [Hne Hn].
    destruct (String.eqb_spec x a) as [E|_]; [congruence |].
    now rewrite IH.
Qed.

(** [AddWatchAddress] of the configuration succeeds exactly for a
    well-shaped address that is not in the list, and appends it;
    [RemoveWatchAddress] succeeds exactly for an address in the list and
    takes out its first occurrence.  Removing an address right after it
    was added gives back the configuration. *)
Theorem Config_watch_addresses (c : Settings) (a : string) :
  (fst (Config_AddWatchAddress c a) = None <->
   display_shape a /\ (a ∉ WatchAddresses c)) /\
  (fst (Config_AddWatchAddress c a) = None ->
   WatchAddresses (snd (Config_AddWatchAddress c a)) = (WatchAddresses c ++ [a])%list /\
   Config_RemoveWatchAddress (snd (Config_AddWatchAddress c a)) a = (None, c)) /\
  (fst (Config_AddWatchAddress c a) <> None -> snd (Config_AddWatchAddress c a) = c) /\
  (fst (Config_RemoveWatchAddress c a) = None <-> a ∈ WatchAddresses c) /\
  (fst (Config_RemoveWatchAddress c a) = None ->
   exists l1 l2,
     WatchAddresses c = (l1 ++ a :: l2)%list /\ (a ∉ l1) /\
     WatchAddresses (snd (Config_RemoveWatchAddress c a)) = (l1 ++ l2)%list) /\
  (fst (Config_RemoveWatchAddress c a) <> None -> snd (Config_RemoveWatchAddress c a) = c).
Proof.
  pose proof (isValidTronAddress_shape a) as Hv.
  pose proof (existsb_eqb_elem_of a (WatchAddresses c)) as He.
  pose proof (remove_first_spec a (WatchAddresses c)) as Hr.
  unfold Config_AddWatchAddress, Config_RemoveWatchAddress.
  destruct (isValidTronAddress a); cbn [negb].
  - destruct (List.existsb (String.eqb a) (WatchAddresses c)); cbn [fst snd].
    + split; [split; [discriminate | intros [_ H]; exfalso; apply H, He; reflexivity] |].
      split; [discriminate |]. split; [reflexivity |].
      destruct (remove_first a (WatchAddresses c)) as [l'|]; cbn [fst snd].
      * split; [split; [intros _; apply He; reflexivity | reflexivity] |].
        split; [intros _; destruct Hr as (l1 & l2 & E1 & E2 & E3); eauto |].
        intros H. contradiction.
      * exfalso. apply Hr, He. reflexivity.
    + assert (Hn : a ∉ WatchAddresses c) by (intros H; apply He in H; discriminate H).
      split; [split; [intros _; split; [now apply Hv | exact Hn] | reflexivity] |].
      split.
      { intros _. split; [reflexivity |]. cbn [set_WatchAddresses WatchAddresses].
        rewrite remove_first_last by exact Hn. destruct c. reflexivity. }
      split; [intros H; contradiction |].
      destruct (remove_first a (WatchAddresses c)) as [l'|]; cbn [fst snd].
      * destruct Hr as (l1 & l2 & E1 & _). exfalso. apply Hn. rewrite E1.
        apply elem_of_app. right. left.
      * split; [split; [discriminate | intros H; contradiction] |].
        split; [discriminate | reflexivity].
  - cbn [fst snd].
    split; [split; [discriminate | intros [H _]; apply Hv in H; discriminate H] |].
    split; [discriminate |]. split; [reflexivity |].
    destruct (remove_first a (WatchAddresses c)) as [l'|]; cbn [fst snd].
    + split; [split; [intros _ | reflexivity] |].
      { destruct Hr as (l1 & l2 & -> & _). apply elem_of_app. right. left. }
      split; [intros _; destruct Hr as (l1 & l2 & E1 & E2 & E3); eauto |].
      intros H. contradiction.
    + split; [split; [discriminate | intros H; contradiction] |].
      split; [discriminate | reflexivity].
Qed.

End ConfigFacts.

(** ** Amounts of the tracked token *)

Section TrackedToken.

Variable cfg : Config.
Variable math_Pow10 : Z -> float64.

(** For the tracked token with six decimals, a call whose second
    argument is the integer [n < 2 ^ 53] gives an event whose amount is a
    finite [float64] within [2 ^ -53] of [n / 1_000_000], relatively, and
    whose [USDValue] is that amount. *)
Theorem tracked_amount_accuracy (arg1 amountHex rest ownerAddress contractAddress : string)
    (n : Z) (tx : Transaction) (blockData : BlockData) :
  String.length arg1 = 64%nat -> (String.length amountHex <= 64)%nat ->
  hex_value amountHex = Some n -> n < 2 ^ 53 ->
  math_Pow10 (USDT_Decimals cfg) = f64_of_Z 1000000 ->
  exists ev q,
    parseTRC20TransferData cfg math_Pow10
      ("a9059cbb" ++ arg1 ++ pad64 amountHex ++ rest)
      ownerAddress contractAddress tx blockData true = Ok (Some ev) /\
    TokenType ev = "USDT" /\ IsUSDT ev = true /\ USDValue ev = Amount ev /\
    f64_to_Q (Amount ev) = Some q /\
    (Qabs (q - (n # 1000000)) * inject_Z (2 ^ 53) <= n # 1000000)%Q.
Proof.
  intros H1 H2 Hn Hs Hp.
  assert (H0 : 0 <= n) by (apply (hex_value_from_ge amountHex 0 n); [lia | exact Hn]).
  rewrite parseTRC20TransferData_layout by (try exact H1; apply length_pad64; lia).
  rewrite <- hex_value_pad64 in Hn.
  rewrite (parseHexAmount_value _ _ Hn) by (unfold maxUint64; lia).
  cbv zeta. rewrite Hp.
  destruct (f64_div_1e6_Q n) as (q & Hq & Hb); [lia |].
  eexists. exists q. split; [reflexivity |]. cbn. auto.
Qed.

End TrackedToken.

Lemma tracked_amount_accuracy_witness :
  exists ev q,
    parseTRC20TransferData default_config Pow10
      ("a9059cbb" ++ pad64 "a614f803b6fd780986a42c78ec9c7f77e6ded13c" ++
       pad64 "0f4240" ++ "")
      "41eca9bc828a3005b9a3b909f2cc5c2a54794de05f" "TR7NHqjeKQxGTCi8q8ZY4pL8otSzgjLj6t"
      tx0 block0 true = Ok (Some ev) /\
    TokenType ev = "USDT" /\ IsUSDT ev = true /\ USDValue ev = Amount ev /\
    f64_to_Q (Amount ev) = Some q /\
    (Qabs (q - (1000000 # 1000000)) * inject_Z (2 ^ 53) <= 1000000 # 1000000)%Q.
Proof.
  apply (tracked_amount_accuracy default_config Pow10
           (pad64 "a614f803b6fd780986a42c78ec9c7f77e6ded13c") "0f4240" ""
           "41eca9bc828a3005b9a3b909f2cc5c2a54794de05f" "TR7NHqjeKQxGTCi8q8ZY4pL8otSzgjLj6t"
           1000000 tx0 block0); try reflexivity.
  cbn. lia.
Defined.

(** ** Every event an extractor gives *)

Section Emitted.

Variable cfg : Config.
Variable math_Pow10 : Z -> float64.
Variable now : Z.

Lemma parseTRC20TransferData_fields (data ownerAddress contractAddress : string)
    (tx : Transaction) (blockData : BlockData) (isUSDT : bool) (ev : TransferEvent) :
  parseTRC20TransferData cfg math_Pow10 data ownerAddress contractAddress
    tx blockData isUSDT = Ok (Some ev) ->
  TxHash ev = TxID tx /\ BlockHeight ev = Height blockData /\
  EventTimestamp ev = Timestamp blockData /\ Fee ev = f64_zero /\
  Confirmations ev = 0 /\
  TokenType ev = (if isUSDT then "USDT" else "TRC20") /\ IsUSDT ev = isUSDT /\
  ContractAddress ev = contractAddress.
Proof.
  unfold parseTRC20TransferData. cbv zeta.
  destruct ((len data <? 74) || negb (HasPrefix data "a9059cbb")); [discriminate |].
  destruct (len data <? 8); [discriminate |].
  destruct (len (drop 8 data) <? 64); [discriminate |].
  destruct (len (drop 64 (drop 8 data)) <? 64); [discriminate |].
  destruct (parseHexAmount (take 64 (drop 64 (drop 8 data)))) as [amount|];
    [|discriminate].
  intros H. inversion H; subst ev; clear H. cbn. auto 10.
Qed.

(** Every event an extractor gives carries the transaction's hash and
    the block's height and time, no fee and no confirmations, and one of
    the four token types.  It is marked as the tracked token exactly when
    its type is [USDT], and then monitoring of the token is enabled and
    the event names the configured contract.  An event of another type
    than [TRX] has a watched endpoint. *)
Theorem emitted_event_shape (contract : Contract) (tx : Transaction)
    (blockData : BlockData) (ws : gmap string bool) (r r' : Redis) (ev : TransferEvent) :
  extractTransferFromContract cfg math_Pow10 now contract tx blockData ws r =
    (Ok (Some ev), r') ->
  TxHash ev = TxID tx /\ BlockHeight ev = Height blockData /\
  EventTimestamp ev = Timestamp blockData /\ Fee ev = f64_zero /\
  Confirmations ev = 0 /\
  (TokenType ev = "TRX" \/ TokenType ev = "TRC10" \/ TokenType ev = "TRC20" \/
   TokenType ev = "USDT") /\
  (IsUSDT ev = true <-> TokenType ev = "USDT") /\
  (IsUSDT ev = true ->
   USDT_EnableMonitoring cfg = true /\ ContractAddress ev = USDT_ContractAddress cfg) /\
  (TokenType ev <> "TRX" ->
   watched ws (Source ev) = true \/ watched ws (Destination ev) = true).
Proof.
  unfold extractTransferFromContract.
  destruct (String.eqb (Type_ contract) "TransferContract").
  { unfold extractTRXTransfer. cbv zeta. intros H.
    repeat match type of H with
           | context [match ?x with _ => _ end] => destruct x
           end; inversion H; subst; cbn.
    repeat split; auto; try discriminate; try congruence. }
  destruct (String.eqb (Type_ contract) "TransferAssetContract").
  { unfold extractTRC10Transfer. cbv zeta. intros H.
    repeat match type of H with
           | context [if ?b then _ else _] => destruct b eqn:?
           | context [match ?x with _ => _ end] => destruct x
           end; inversion H; subst; cbn.
    repeat split; auto; try discriminate; try congruence.
    intros _.
    match goal with
    | E : negb _ && negb _ = false |- _ =>
        apply andb_false_iff in E as [E|E]; apply negb_false_iff in E; auto
    end. }
  destruct (String.eqb (Type_ contract) "TriggerSmartContract"); [|discriminate].
  unfold extractTRC20Transfer. cbv zeta. intros H.
  destruct (as_map (Parameter_ contract)) as [p|]; [|discriminate H].
  destruct (as_map (map_index p "value")) as [v|]; [|discriminate H].
  set (contractAddress := convertHexToBase58 (as_string (map_index v "contract_address")))
    in *.
  destruct (isUSDTContract cfg contractAddress && negb (USDT_EnableMonitoring cfg))
    eqn:Hoff; [discriminate H |].
  destruct (parseTRC20TransferData _ _ _ _ _ _ _ _) as [[transfer|]|e] eqn:Hp;
    try discriminate H.
  destruct (negb (watched ws (Source transfer)) &&
            negb (watched ws (Destination transfer))) eqn:Hw; [discriminate H |].
  inversion H; subst ev r'. clear H.
  apply parseTRC20TransferData_fields in Hp
    as (Hh & Hb & Ht & Hf & Hc & Hk & Hi & Ha).
  split; [exact Hh |]. split; [exact Hb |]. split; [exact Ht |]. split; [exact Hf |].
  split; [exact Hc |].
  destruct (isUSDTContract cfg contractAddress) eqn:Hu; rewrite Hi, Hk.
  - split; [auto |]. split; [tauto |]. split.
    + intros _. split; [|rewrite Ha; now apply String.eqb_eq].
      cbn [andb] in Hoff. now apply negb_false_iff in Hoff.
    + intros _. apply andb_false_iff in Hw as [E|E]; apply negb_false_iff in E; auto.
  - split; [auto |]. split; [split; discriminate |]. split; [discriminate |].
    intros _. apply andb_false_iff in Hw as [E|E]; apply negb_false_iff in E; auto.
Qed.

End Emitted.

(** ** Recent events *)


(** ** From the chain to the store *)

Section EndToEnd.

Variable cfg : Config.
Variable math_Pow10 : Z -> float64.
Variable now : Z.
Variable GetBlockByNumber : Z -> option BlockData.
Variable push_ok : BlockData -> bool.

Lemma f64_to_Q_finite (x : float64) (q : Q) : f64_to_Q x = Some q -> f64_is_finite x = true.
Proof. destruct x; cbn; intros H; try reflexivity; discriminate H. Qed.

(** A native transfer in the block that follows the last processed one
    reaches the store in one tick and one pass of a worker: the tick puts
    the block on the empty queue, the pass takes it off, counts it, and
    the event is then found under the transaction's hash and at the head
    of the list of transfers. *)
Theorem native_transfer_reaches_store (fuel : nat) (blockData : BlockData)
    (tx : Transaction) (contract : Contract) (A : Z)
    (bm : BlockMonitor) (bp : BlockProcessor) (r : Redis) :
  0 < Monitor_QueueSize cfg -> block_queue r = [] ->
  Height blockData = lastProcessedBlock bm + 1 -> Height blockData < 2 ^ 63 ->
  - 2 ^ 63 <= lastProcessedBlock bm ->
  (Monitor_MaxBlockHeight cfg <= 0 \/ Height blockData <= Monitor_MaxBlockHeight cfg) ->
  (Monitor_StartBlockHeight cfg <= 0 \/
   Monitor_StartBlockHeight cfg <= Height blockData) ->
  push_ok blockData = true ->
  single_contract blockData tx contract ->
  Type_ contract = "TransferContract" -> has_value contract ->
  value_field contract "amount" = JNumber (f64_of_Z A) -> 0 <= A < 2 ^ 53 ->
  exists bm1 r1 bp2 r2 ev,
    processLatestBlock cfg GetBlockByNumber push_ok fuel blockData bm r =
      Some (Ok tt, (bm1, r1)) /\
    lastProcessedBlock bm1 = Height blockData /\
    processBlocks_pass cfg math_Pow10 now bp r1 = (bp2, r2) /\
    block_queue r2 = [] /\
    processedBlocks bp2 = wrap64 (processedBlocks bp + 1) /\
    transfersFound bp2 = wrap64 (transfersFound bp + 1) /\ errors bp2 = errors bp /\
    GetTransferEvent r2 (TxID tx) = Some ev /\
    List.hd_error (transfers r2) = Some ev /\
    TokenType ev = "TRX" /\ Amount ev = f64_div (f64_of_Z A) (f64_of_Z 1000000).
Proof.
  intros Hq He Hh Hb Hl Hmax Hmin Hp Hsingle Ht Hv Ha HA.
  unfold processLatestBlock.
  destruct (Z.leb_spec (Height blockData) (lastProcessedBlock bm)); [lia |].
  replace ((0 <? Monitor_MaxBlockHeight cfg) &&
           (Monitor_MaxBlockHeight cfg <? Height blockData)) with false
    by (symmetry; apply andb_false_iff;
        destruct Hmax; [left; apply Z.ltb_ge | right; apply Z.ltb_ge]; lia).
  replace ((0 <? Monitor_StartBlockHeight cfg) &&
           (Height blockData <? Monitor_StartBlockHeight cfg)) with false
    by (symmetry; apply andb_false_iff;
        destruct Hmin; [left; apply Z.ltb_ge | right; apply Z.ltb_ge]; lia).
  cbv zeta. rewrite wrap64_id by lia.
  destruct (Z.ltb_spec (lastProcessedBlock bm + 1) (Height blockData)); [lia |].
  unfold push. rewrite Hp.
  set (r1 := PushBlockData cfg r blockData).
  assert (Hq1 : block_queue r1 = ([] ++ [blockData])%list).
  { unfold r1. cbn [PushBlockData block_queue]. rewrite He, LTrim0_firstn by exact Hq.
    replace (Z.to_nat (Monitor_QueueSize cfg))
      with (S (Z.to_nat (Monitor_QueueSize cfg - 1))) by lia.
    cbn [List.firstn]. now rewrite List.firstn_nil. }
  destruct (PopBlockData_snoc r1 [] blockData Hq1)
    as (r1' & Hpop & Q1 & T1 & L1 & U1 & W1 & A1).
  cut (exists bp2 r2 ev,
          processBlocks_pass cfg math_Pow10 now bp r1 = (bp2, r2) /\
          block_queue r2 = [] /\
          processedBlocks bp2 = wrap64 (processedBlocks bp + 1) /\
          transfersFound bp2 = wrap64 (transfersFound bp + 1) /\
          errors bp2 = errors bp /\
          GetTransferEvent r2 (TxID tx) = Some ev /\
          List.hd_error (transfers r2) = Some ev /\
          TokenType ev = "TRX" /\
          Amount ev = f64_div (f64_of_Z A) (f64_of_Z 1000000)).
  { intros (bp2 & r2 & ev & H'). eexists. exists r1, bp2, r2, ev.
    split; [reflexivity |]. split; [reflexivity | exact H']. }
  unfold processBlocks_pass. rewrite Hpop.
  rewrite (processBlock_single _ _ _ _ _ _ _ _ Hsingle).
  rewrite Type_TransferContract by exact Ht.
  destruct (extractTRXTransfer_emits now contract tx blockData (watch_set r1') r1' Hv)
    as (ev & Hex & _ & _ & Hamt & Hhash & Htok & _ & Hfee & Husd).
  rewrite Hex. rewrite Ha in Hamt. cbn [as_float64] in Hamt.
  assert (Hm : marshal_ok ev = true).
  { unfold marshal_ok. rewrite Hfee, Husd, Hamt.
    destruct (f64_div_1e6_Q A HA) as (q & Hq' & _).
    now rewrite (f64_to_Q_finite _ _ Hq'). }
  cbn [save_transfers].
  match goal with
  | |- context [SaveTransferEvent ?s ev] =>
      destruct (SaveTransferEvent_stores s ev Hm)
        as (r2 & Hsave & Kt & Lt & _ & _ & _ & Kq);
      pose proof (records_only_touch now (watch_set r1') r1'
                    (convertHexToBase58 (as_string (value_field contract "owner_address")))
                    (convertHexToBase58 (as_string (value_field contract "to_address")))
                    blockData) as (Rq & _)
  end.
  rewrite Hsave.
  do 3 eexists. split; [reflexivity |]. cbn [processedBlocks transfersFound errors].
  split; [rewrite Kq, Rq; exact Q1 |].
  do 3 (split; [reflexivity |]).
  split; [unfold GetTransferEvent; rewrite Kt, <- Hhash; apply lookup_insert_eq |].
  split; [rewrite Lt, LTrim0_cons by lia; reflexivity |].
  split; [exact Htok | exact Hamt].
Qed.

End EndToEnd.

(** ** Closed instances *)

Lemma store_ok_empty_store : store_ok empty_store.
Proof.
  unfold store_ok. cbn.
  split; [lia |]. split; [lia |]. do 2 (split; [constructor |]).
  split; apply map_Forall_empty.
Qed.

Lemma SaveTransferEvent_keeps_store_ok_witness :
  store_ok (snd (SaveTransferEvent empty_store sample_event)) /\
  (marshal_ok sample_event = false ->
   SaveTransferEvent empty_store sample_event = (Err ErrMarshal, empty_store)).
Proof.
  apply (SaveTransferEvent_keeps_store_ok empty_store sample_event store_ok_empty_store).
Defined.

Lemma remove_after_add_witness :
  RemoveWatchAddress
    (AddWatchAddress 1700000000 empty_store "TR7NHqjeKQxGTCi8q8ZY4pL8otSzgjLj6t")
    "TR7NHqjeKQxGTCi8q8ZY4pL8otSzgjLj6t" = empty_store.
Proof.
  apply (remove_after_add 1700000000 empty_store "TR7NHqjeKQxGTCi8q8ZY4pL8otSzgjLj6t");
    [apply not_elem_of_empty | apply lookup_empty].
Defined.




Lemma block_without_transactions_is_an_error_witness :
  exists r',
    processBlocks_pass default_config Pow10 0 started_pool
      (PushBlockData default_config empty_store (Client.build_BlockData empty_response)) =
      ({| running := true; cancelled := false; workers := workers started_pool;
          processedBlocks := 0; transfersFound := 0; errors := wrap64 (0 + 1) |}, r') /\
    block_queue r' = [] /\ transfer r' = ∅ /\ transfers r' = [] /\
    usdt_transfers r' = [] /\ watch_addresses r' = ∅ /\ address_info r' = ∅.
Proof.
  apply (block_without_transactions_is_an_error default_config Pow10 0 empty_response
           started_pool
           (PushBlockData default_config empty_store
              (Client.build_BlockData empty_response)) []); reflexivity.
Defined.

Lemma ProcessHistoricalBlocks_pushes_range_witness :
  ProcessHistoricalBlocks default_config chain (fun _ => true) false 5 6 8 empty_store =
    Some (None,
          List.fold_left (PushBlockData default_config)
            (enqueued chain (fun _ => true) (seqZ 6 (8 - 6 + 1))) empty_store) /\
  ProcessHistoricalBlocks default_config chain (fun _ => true) true 5 6 8 empty_store =
    Some (if 6 <=? 8 then Some ErrInterrupted else None, empty_store).
Proof.
  apply (ProcessHistoricalBlocks_pushes_range default_config chain (fun _ => true) 5 6 8
           empty_store); cbn; lia.
Defined.

Lemma SyncToLatestBlock_then_tick_witness :
  exists r1 bm' r2,
    SyncToLatestBlock default_config chain (fun _ => true) false 15 (head_at 115)
      (monitor_at 100) empty_store = Some (None, r1) /\
    List.map Height (block_queue r1) =
      [115; 114; 113; 112; 111; 110; 109; 108; 107; 106; 105; 104; 103; 102; 101] /\
    processLatestBlock default_config chain (fun _ => true) 15 (head_at 115)
      (monitor_at 100) r1 = Some (Ok tt, (bm', r2)) /\
    List.map Height (block_queue r2) =
      [115; 114; 113; 112; 111; 110; 109; 108; 107; 106;
       115; 114; 113; 112; 111; 110; 109; 108; 107; 106; 105; 104; 103; 102; 101].
Proof.
  destruct (SyncToLatestBlock_then_tick default_config chain (fun _ => true) 15
              (head_at 115) (monitor_at 100) empty_store
              ltac:(cbn; lia) ltac:(cbn; lia) ltac:(cbn; lia)
              ltac:(left; cbn; lia) ltac:(left; cbn; lia) ltac:(lia) ltac:(cbn; lia))
    as (H1 & bm' & H2 & _).
  do 3 eexists. split; [exact H1 |]. split; [vm_compute; reflexivity |].
  split; [exact H2 |]. vm_compute. reflexivity.
Defined.

Lemma response_without_header_is_skipped_witness :
  Height (Client.build_BlockData empty_response) = 0 /\
  processLatestBlock default_config chain (fun _ => true) 10
    (Client.build_BlockData empty_response) (monitor_at 100) empty_store =
  Some (Ok tt, (monitor_at 100, empty_store)).
Proof.
  apply (response_without_header_is_skipped default_config chain (fun _ => true) 10
           empty_response (monitor_at 100) empty_store); [exact I | cbn; lia].
Defined.

Lemma makeRequest_retries_witness :
  Client.makeRequest third_time client0 = (inr empty_response, failed_attempts 2 client0).
Proof.
  destruct (makeRequest_retries third_time client0) as [H _]; [cbn; lia | cbn; lia |].
  apply (H 2 empty_response); [cbn; lia | | reflexivity].
  intros i Hi. unfold third_time. destruct (Z.eqb_spec i 2); [lia | reflexivity].
Defined.

Lemma requestCount_counts_successes_witness :
  Client.requestCount (snd (Client.GetLatestBlock third_time client0)) =
  Client.successCount (snd (Client.GetLatestBlock third_time client0)).
Proof.
  apply (proj1 (requestCount_counts_successes third_time client0 eq_refl)).
Defined.

Lemma emitted_event_shape_witness :
  exists ev r',
    extractTransferFromContract default_config Pow10 0 token_call tx0 block0
      watch_sender empty_store = (Ok (Some ev), r') /\
    TxHash ev = "5f2a6c2d" /\ TokenType ev = "TRC20" /\ IsUSDT ev = false /\
    (watched watch_sender (Source ev) = true \/
     watched watch_sender (Destination ev) = true).
Proof.
  destruct (extractTransferFromContract default_config Pow10 0 token_call tx0 block0
              watch_sender empty_store) as [[[ev|]|e] r'] eqn:E;
    [|vm_compute in E; discriminate E | vm_compute in E; discriminate E].
  destruct (emitted_event_shape default_config Pow10 0 token_call tx0 block0
              watch_sender empty_store r' ev E)
    as (Hh & _ & _ & _ & _ & _ & _ & _ & Hw).
  vm_compute in E. inversion E; subst ev r'. clear E.
  do 2 eexists. split; [reflexivity |]. split; [exact Hh |].
  split; [reflexivity |]. split; [reflexivity |]. apply Hw. discriminate.
Defined.


Lemma native_transfer_reaches_store_witness :
  exists bm1 r1 bp2 r2 ev,
    processLatestBlock default_config chain (fun _ => true) 10 (native_block 101)
      (monitor_at 100) empty_store = Some (Ok tt, (bm1, r1)) /\
    processBlocks_pass default_config Pow10 0 started_pool r1 = (bp2, r2) /\
    block_queue r2 = [] /\ processedBlocks bp2 = 1 /\ transfersFound bp2 = 1 /\
    GetTransferEvent r2 "5f2a6c2d" = Some ev /\ TokenType ev = "TRX".
Proof.
  destruct (native_transfer_reaches_store default_config Pow10 0 chain (fun _ => true) 10
              (native_block 101) (tx_of (native_call 5000000)) (native_call 5000000)
              5000000 (monitor_at 100) started_pool empty_store)
    as (bm1 & r1 & bp2 & r2 & ev & H1 & _ & H2 & H3 & H4 & H5 & _ & H6 & _ & H7 & _);
    try reflexivity; try (cbn; lia); try (left; cbn; lia).
  - split; reflexivity.
  - apply has_value_native.
  - exists bm1, r1, bp2, r2, ev. auto 10.
Defined.
